(** * kon: session store, turn executor and compaction check

  A shallow embedding of [kon/session.py], [kon/turn.py] and the
  compaction check of [kon/loop.py], with the properties of the agent
  execution core proved about it.

  Conventions of the embedding.
  - Python objects mutated in place ([Session], the local variables of
    [run_single_turn]) become records threaded through the functions.
  - Everything the code obtains from outside (random ids, the clock, the
    provider, the tools, the cancellation signal, the outcome of each
    race in the chunk loop) is an explicit argument.
  - A generator is the list of what it yields, in order.
  - A line of a session file is represented by what [line.strip()] and
    [json.loads] make of it: blank, not JSON, or a JSON value; the text
    that [model_dump_json] writes is the line that parses to the dumped
    value. *)

From Stdlib Require Import ZArith QArith Ascii String List Bool Lia.
From Stdlib Require Import Sorted Permutation.
From stdpp Require Import base option list gmap strings.
Import ListNotations.

Set Warnings "-register-all".

Local Open Scope string_scope.
Local Open Scope list_scope.
Local Open Scope Z_scope.

(* ===================================================================== *)
(** ** JSON values *)
(* ===================================================================== *)

Module Json.

(** What [json.loads] returns: [None], [bool], [int], [str], [list] or
    [dict].  A [dict] is kept as its items in insertion order, with
    distinct keys. *)
Inductive json : Type :=
| JNull
| JBool (b : bool)
| JNum (n : Z)
| JStr (s : string)
| JArr (items : list json)
| JObj (fields : list (string * json)).

(** [d.get(key)] on the items of a dict. *)
Fixpoint get (key : string) (fields : list (string * json)) : option json :=
  match fields with
  | [] => None
  | (k, v) :: rest => if String.eqb k key then Some v else get key rest
  end.

(** Readers for the field types the pydantic models declare.  A missing
    key or a value of another type is a validation error ([None]). *)
Definition get_str key fields : option string :=
  match get key fields with Some (JStr s) => Some s | _ => None end.

Definition get_int key fields : option Z :=
  match get key fields with Some (JNum n) => Some n | _ => None end.

(** [str | None] without a default: the key is required. *)
Definition get_opt_str key fields : option (option string) :=
  match get key fields with
  | Some (JStr s) => Some (Some s)
  | Some JNull => Some None
  | _ => None
  end.

(** [str | None = None]: the key may be absent. *)
Definition get_opt_str_default key fields : option (option string) :=
  match get key fields with
  | Some (JStr s) => Some (Some s)
  | Some JNull | None => Some None
  | _ => None
  end.

(** [bool] with a default. *)
Definition get_bool_default key (dflt : bool) fields : option bool :=
  match get key fields with
  | Some (JBool b) => Some b
  | None => Some dflt
  | _ => None
  end.

(** [dict[str, Any] | None = None]. *)
Definition get_opt_dict_default key fields
  : option (option (list (string * json))) :=
  match get key fields with
  | Some (JObj kv) => Some (Some kv)
  | Some JNull | None => Some None
  | _ => None
  end.

Definition of_opt_str (o : option string) : json :=
  match o with Some s => JStr s | None => JNull end.

Definition of_opt_dict (o : option (list (string * json))) : json :=
  match o with Some kv => JObj kv | None => JNull end.

(** Validation of a list field, element by element. *)
Fixpoint traverse {A} (f : json -> option A) (items : list json)
  : option (list A) :=
  match items with
  | [] => Some []
  | j :: rest =>
      match f j, traverse f rest with
      | Some a, Some l => Some (a :: l)
      | _, _ => None
      end
  end.

End Json.
Import Json.

(* ===================================================================== *)
(** ** Messages and stream parts ([kon/core/types.py]) *)
(* ===================================================================== *)

Module Types.

(** Modelled from the spec: the declarations of [kon/core/types.py]
    (stop reasons, usage, content parts, the three message variants and
    the stream parts) follow section 3, 4.1 and 6 of the specification
    and the constructor calls in [turn.py], [session.py], the mock
    provider and the tests. *)
Inductive StopReason := STOP | LENGTH | TOOL_USE | ERROR | INTERRUPTED.

Definition StopReason_eqb (a b : StopReason) : bool :=
  match a, b with
  | STOP, STOP | LENGTH, LENGTH | TOOL_USE, TOOL_USE
  | ERROR, ERROR | INTERRUPTED, INTERRUPTED => true
  | _, _ => false
  end.

Record Usage := mkUsage {
  input_tokens : Z;
  output_tokens : Z;
  cache_read_tokens : Z;
  cache_write_tokens : Z
}.

Record ImageContent := mkImage { data : string; mime_type : string }.

Record ToolCall := mkToolCall {
  tc_id : string;
  tc_name : string;
  arguments : list (string * json)
}.

(** A part of a user or tool-result message. *)
Inductive Part :=
| PText (text : string)
| PImage (img : ImageContent).

(** A part of an assistant message. *)
Inductive Content :=
| TextContent (text : string)
| ThinkingContent (thinking : string) (signature : option string)
| ToolCallContent (tc : ToolCall).

Inductive UserContent :=
| UPlain (s : string)
| UParts (parts : list Part).

Record ToolResultMessage := mkToolResultMessage {
  tool_call_id : string;
  tool_name : string;
  tr_content : list Part;
  display : option string;
  is_error : bool
}.

Record AssistantMessage := mkAssistantMessage {
  am_content : list Content;
  usage : option Usage;
  am_stop_reason : StopReason
}.

Inductive Message :=
| UserMessage (content : UserContent)
| AssistantMsg (m : AssistantMessage)
| ToolResultMsg (m : ToolResultMessage).

Definition role (m : Message) : string :=
  match m with
  | UserMessage _ => "user"
  | AssistantMsg _ => "assistant"
  | ToolResultMsg _ => "tool_result"
  end.

(** The stream parts of a provider. *)
Inductive StreamPart :=
| ThinkPart (think : string) (signature : option string)
| TextPart (text : string)
| ToolCallStart (id name : string) (index : Z)
| ToolCallDelta (index : Z) (arguments_delta : string)
| StreamDone (stop_reason : StopReason)
| StreamError (error : string).

(** *** The wire form of a message (what [model_dump] produces and
    [model_validate] reads back) *)

Definition StopReason_to_json (r : StopReason) : json :=
  JStr match r with
       | STOP => "stop" | LENGTH => "length" | TOOL_USE => "tool_use"
       | ERROR => "error" | INTERRUPTED => "interrupted"
       end.

Definition StopReason_of_json (j : json) : option StopReason :=
  match j with
  | JStr s =>
      if String.eqb s "stop" then Some STOP
      else if String.eqb s "length" then Some LENGTH
      else if String.eqb s "tool_use" then Some TOOL_USE
      else if String.eqb s "error" then Some ERROR
      else if String.eqb s "interrupted" then Some INTERRUPTED
      else None
  | _ => None
  end.

Definition Usage_to_json (u : Usage) : json :=
  JObj [("input_tokens", JNum (input_tokens u));
        ("output_tokens", JNum (output_tokens u));
        ("cache_read_tokens", JNum (cache_read_tokens u));
        ("cache_write_tokens", JNum (cache_write_tokens u))].

Definition Usage_of_json (j : json) : option Usage :=
  match j with
  | JObj f =>
      match get_int "input_tokens" f, get_int "output_tokens" f,
            get_int "cache_read_tokens" f, get_int "cache_write_tokens" f with
      | Some a, Some b, Some c, Some d => Some (mkUsage a b c d)
      | _, _, _, _ => None
      end
  | _ => None
  end.

Definition Part_to_json (p : Part) : json :=
  match p with
  | PText t => JObj [("type", JStr "text"); ("text", JStr t)]
  | PImage i =>
      JObj [("type", JStr "image"); ("data", JStr (data i));
            ("mime_type", JStr (mime_type i))]
  end.

Definition Part_of_json (j : json) : option Part :=
  match j with
  | JObj f =>
      match get_str "type" f with
      | Some ty =>
          if String.eqb ty "text" then
            match get_str "text" f with
            | Some t => Some (PText t)
            | None => None
            end
          else if String.eqb ty "image" then
            match get_str "data" f, get_str "mime_type" f with
            | Some d, Some m => Some (PImage (mkImage d m))
            | _, _ => None
            end
          else None
      | None => None
      end
  | _ => None
  end.

Definition Content_to_json (c : Content) : json :=
  match c with
  | TextContent t => JObj [("type", JStr "text"); ("text", JStr t)]
  | ThinkingContent t s =>
      JObj [("type", JStr "thinking"); ("thinking", JStr t);
            ("signature", of_opt_str s)]
  | ToolCallContent tc =>
      JObj [("type", JStr "tool_call"); ("id", JStr (tc_id tc));
            ("name", JStr (tc_name tc)); ("arguments", JObj (arguments tc))]
  end.

Definition Content_of_json (j : json) : option Content :=
  match j with
  | JObj f =>
      match get_str "type" f with
      | Some ty =>
          if String.eqb ty "text" then
            match get_str "text" f with
            | Some t => Some (TextContent t)
            | None => None
            end
          else if String.eqb ty "thinking" then
            match get_str "thinking" f, get_opt_str_default "signature" f with
            | Some t, Some s => Some (ThinkingContent t s)
            | _, _ => None
            end
          else if String.eqb ty "tool_call" then
            match get_str "id" f, get_str "name" f, get "arguments" f with
            | Some i, Some n, Some (JObj a) =>
                Some (ToolCallContent (mkToolCall i n a))
            | _, _, _ => None
            end
          else None
      | None => None
      end
  | _ => None
  end.

Definition Message_to_json (m : Message) : json :=
  match m with
  | UserMessage (UPlain s) =>
      JObj [("role", JStr "user"); ("content", JStr s)]
  | UserMessage (UParts ps) =>
      JObj [("role", JStr "user"); ("content", JArr (map Part_to_json ps))]
  | AssistantMsg a =>
      JObj [("role", JStr "assistant");
            ("content", JArr (map Content_to_json (am_content a)));
            ("usage", match usage a with
                      | Some u => Usage_to_json u
                      | None => JNull
                      end);
            ("stop_reason", StopReason_to_json (am_stop_reason a))]
  | ToolResultMsg t =>
      JObj [("role", JStr "tool_result");
            ("tool_call_id", JStr (tool_call_id t));
            ("tool_name", JStr (tool_name t));
            ("content", JArr (map Part_to_json (tr_content t)));
            ("display", of_opt_str (display t));
            ("is_error", JBool (is_error t))]
  end.

Definition Message_of_json (j : json) : option Message :=
  match j with
  | JObj f =>
      match get_str "role" f with
      | Some r =>
          if String.eqb r "user" then
            match get "content" f with
            | Some (JStr s) => Some (UserMessage (UPlain s))
            | Some (JArr items) =>
                match traverse Part_of_json items with
                | Some ps => Some (UserMessage (UParts ps))
                | None => None
                end
            | _ => None
            end
          else if String.eqb r "assistant" then
            match get "content" f, get "usage" f, get "stop_reason" f with
            | Some (JArr items), Some ju, Some jr =>
                match traverse Content_of_json items,
                      match ju with
                      | JNull => Some None
                      | _ => option_map Some (Usage_of_json ju)
                      end,
                      StopReason_of_json jr with
                | Some cs, Some u, Some sr =>
                    Some (AssistantMsg (mkAssistantMessage cs u sr))
                | _, _, _ => None
                end
            | _, _, _ => None
            end
          else if String.eqb r "tool_result" then
            match get_str "tool_call_id" f, get_str "tool_name" f,
                  get "content" f, get_opt_str_default "display" f,
                  get_bool_default "is_error" false f with
            | Some i, Some n, Some (JArr items), Some d, Some e =>
                match traverse Part_of_json items with
                | Some ps =>
                    Some (ToolResultMsg (mkToolResultMessage i n ps d e))
                | None => None
                end
            | _, _, _, _, _ => None
            end
          else None
      | None => None
      end
  | _ => None
  end.

End Types.
Import Types.

(* ===================================================================== *)
(** ** The session store ([kon/session.py]) *)
(* ===================================================================== *)

Module SessionStore.

Definition CURRENT_VERSION : Z := 1.

Record SessionHeader := mkHeader {
  h_version : Z;
  h_id : string;
  h_timestamp : string;
  h_cwd : string
}.

Record EntryBase := mkBase {
  id : string;
  parent_id : option string;
  timestamp : string
}.

(** The six entry classes; the [type] literal of each is its constructor. *)
Inductive SessionEntry :=
| MessageEntry (b : EntryBase) (message : Message)
| ThinkingLevelChangeEntry (b : EntryBase) (thinking_level : string)
| ModelChangeEntry (b : EntryBase) (provider model_id : string)
    (base_url : option string)
| CompactionEntry (b : EntryBase) (summary first_kept_entry_id : string)
    (tokens_before : Z) (details : option (list (string * json)))
| CustomMessageEntry (b : EntryBase) (custom_type content : string)
    (display : bool) (details : option (list (string * json)))
| SessionInfoEntry (b : EntryBase) (name : option string).

Definition base (e : SessionEntry) : EntryBase :=
  match e with
  | MessageEntry b _ | ThinkingLevelChangeEntry b _ | ModelChangeEntry b _ _ _
  | CompactionEntry b _ _ _ _ | CustomMessageEntry b _ _ _ _
  | SessionInfoEntry b _ => b
  end.

Definition entry_id (e : SessionEntry) : string := id (base e).

(** [isinstance(e, CompactionEntry)] *)
Definition is_compaction (e : SessionEntry) : bool :=
  match e with CompactionEntry _ _ _ _ _ => true | _ => false end.

(** [isinstance(e, MessageEntry) and e.message.role == "assistant"] *)
Definition is_assistant_entry (e : SessionEntry) : bool :=
  match e with
  | MessageEntry _ m => String.eqb (role m) "assistant"
  | _ => false
  end.

(** *** One line of a session file *)

Inductive line :=
| Blank                       (* nothing left after [line.strip()] *)
| NotJson (text : string)     (* [json.loads] raises [JSONDecodeError] *)
| JsonLine (data : json).     (* [json.loads] returns [data] *)

(** [model_dump_json] of the header and of each entry class, as the value
    the written line parses to.  Fields come in declaration order, those
    of [EntryBase] first. *)
Definition header_dump (h : SessionHeader) : json :=
  JObj [("type", JStr "header"); ("version", JNum (h_version h));
        ("id", JStr (h_id h)); ("timestamp", JStr (h_timestamp h));
        ("cwd", JStr (h_cwd h))].

Definition base_dump (b : EntryBase) : list (string * json) :=
  [("id", JStr (id b)); ("parent_id", of_opt_str (parent_id b));
   ("timestamp", JStr (timestamp b))].

Definition entry_dump (e : SessionEntry) : json :=
  match e with
  | MessageEntry b m =>
      JObj (base_dump b ++
            [("type", JStr "message"); ("message", Message_to_json m)])
  | ThinkingLevelChangeEntry b l =>
      JObj (base_dump b ++
            [("type", JStr "thinking_level_change");
             ("thinking_level", JStr l)])
  | ModelChangeEntry b p m u =>
      JObj (base_dump b ++
            [("type", JStr "model_change"); ("provider", JStr p);
             ("model_id", JStr m); ("base_url", of_opt_str u)])
  | CompactionEntry b s f t d =>
      JObj (base_dump b ++
            [("type", JStr "compaction"); ("summary", JStr s);
             ("first_kept_entry_id", JStr f); ("tokens_before", JNum t);
             ("details", of_opt_dict d)])
  | CustomMessageEntry b ct c disp d =>
      JObj (base_dump b ++
            [("type", JStr "custom_message"); ("custom_type", JStr ct);
             ("content", JStr c); ("display", JBool disp);
             ("details", of_opt_dict d)])
  | SessionInfoEntry b n =>
      JObj (base_dump b ++
            [("type", JStr "session_info"); ("name", of_opt_str n)])
  end.

Definition header_line (h : SessionHeader) : line := JsonLine (header_dump h).
Definition entry_line (e : SessionEntry) : line := JsonLine (entry_dump e).

(** [model_validate] of each class on a parsed dict ([None]: the
    validation error). *)
Definition header_validate (f : list (string * json)) : option SessionHeader :=
  match (match get "version" f with
         | Some (JNum v) => Some v
         | None => Some CURRENT_VERSION
         | _ => None
         end),
        get_str "id" f, get_str "timestamp" f, get_str "cwd" f with
  | Some v, Some i, Some t, Some c => Some (mkHeader v i t c)
  | _, _, _, _ => None
  end.

Definition base_validate (f : list (string * json)) : option EntryBase :=
  match get_str "id" f, get_opt_str "parent_id" f, get_str "timestamp" f with
  | Some i, Some p, Some t => Some (mkBase i p t)
  | _, _, _ => None
  end.

Definition MessageEntry_validate f : option SessionEntry :=
  match base_validate f, get "message" f with
  | Some b, Some jm =>
      match Message_of_json jm with
      | Some m => Some (MessageEntry b m)
      | None => None
      end
  | _, _ => None
  end.

Definition ThinkingLevelChangeEntry_validate f : option SessionEntry :=
  match base_validate f, get_str "thinking_level" f with
  | Some b, Some l => Some (ThinkingLevelChangeEntry b l)
  | _, _ => None
  end.

Definition ModelChangeEntry_validate f : option SessionEntry :=
  match base_validate f, get_str "provider" f, get_str "model_id" f,
        get_opt_str_default "base_url" f with
  | Some b, Some p, Some m, Some u => Some (ModelChangeEntry b p m u)
  | _, _, _, _ => None
  end.

Definition CompactionEntry_validate f : option SessionEntry :=
  match base_validate f, get_str "summary" f,
        get_str "first_kept_entry_id" f, get_int "tokens_before" f,
        get_opt_dict_default "details" f with
  | Some b, Some s, Some k, Some t, Some d => Some (CompactionEntry b s k t d)
  | _, _, _, _, _ => None
  end.

Definition CustomMessageEntry_validate f : option SessionEntry :=
  match base_validate f, get_str "custom_type" f, get_str "content" f,
        get_bool_default "display" true f,
        get_opt_dict_default "details" f with
  | Some b, Some ct, Some c, Some disp, Some d =>
      Some (CustomMessageEntry b ct c disp d)
  | _, _, _, _, _ => None
  end.

Definition SessionInfoEntry_validate f : option SessionEntry :=
  match base_validate f, get_opt_str_default "name" f with
  | Some b, Some n => Some (SessionInfoEntry b n)
  | _, _ => None
  end.

(** *** The session object and the disk *)

Record Session := mkSession {
  _id : string;
  _cwd : string;
  _session_file : option string;
  _persist : bool;
  _header : option SessionHeader;
  _entries : list SessionEntry;
  _by_id : gmap string SessionEntry;
  _leaf_id : option string;
  _initial_provider : option string;
  _initial_model_id : option string;
  _initial_thinking_level : string;
  _flushed : bool
}.

(** The files on disk, by path, each a sequence of lines. *)
Abbreviation Disk := (gmap string (list line)).

(** What one append draws from outside: the successive results of
    [generate_id()], the full [uuid4().hex] of the fallback, and the
    clock. *)
Record Outside := mkOutside {
  generate_id : nat -> string;
  uuid4_hex : string;
  _now_iso : string
}.

Inductive exn :=
| FileNotFoundError
| ValueError_no_header
| AttributeError
| ValidationError.

Inductive result (A : Type) :=
| Ok (a : A)
| Raise (e : exn).
Arguments Ok {A} a.
Arguments Raise {A} e.

(** [Session.__init__] *)
Definition Session_init (session_id cwd : string) (session_file : option string)
    (persist : bool) (initial_provider initial_model_id : option string)
    (initial_thinking_level : string) : Session :=
  {| _id := session_id; _cwd := cwd; _session_file := session_file;
     _persist := persist; _header := None; _entries := []; _by_id := ∅;
     _leaf_id := None; _initial_provider := initial_provider;
     _initial_model_id := initial_model_id;
     _initial_thinking_level := initial_thinking_level; _flushed := false |}.

Definition leaf_id (s : Session) : option string := _leaf_id s.
Definition session_file (s : Session) : option string := _session_file s.
Definition entries (s : Session) : list SessionEntry := _entries s.
Definition get_entry (s : Session) (entry_id : string) : option SessionEntry :=
  _by_id s !! entry_id.

(** [_generate_entry_id]: up to 100 draws, the first one that is not a key
    of [_by_id]; after that the full uuid. *)
Fixpoint first_fresh (by_id : gmap string SessionEntry) (draw : nat -> string)
    (i n : nat) : option string :=
  match n with
  | O => None
  | S n' =>
      match by_id !! draw i with
      | None => Some (draw i)
      | Some _ => first_fresh by_id draw (S i) n'
      end
  end.

Definition _generate_entry_id (s : Session) (o : Outside) : string :=
  match first_fresh (_by_id s) (generate_id o) 0%nat 100%nat with
  | Some entry_id => entry_id
  | None => uuid4_hex o
  end.

(** [_write_all]: open with ["w"], the header line when there is a header,
    then every entry. *)
Definition _write_all (s : Session) (disk : Disk) : Disk :=
  match _session_file s with
  | None => disk
  | Some path =>
      <[path := match _header s with
                | Some h => [header_line h]
                | None => []
                end ++ map entry_line (_entries s)]> disk
  end.

(** [open(path, "a")] followed by one [write]. *)
Definition append_line (path : string) (l : line) (disk : Disk) : Disk :=
  <[path := default [] (disk !! path) ++ [l]]> disk.

Definition has_assistant (es : list SessionEntry) : bool :=
  existsb is_assistant_entry es.

Definition with_flushed (s : Session) (b : bool) : Session :=
  {| _id := _id s; _cwd := _cwd s; _session_file := _session_file s;
     _persist := _persist s; _header := _header s; _entries := _entries s;
     _by_id := _by_id s; _leaf_id := _leaf_id s;
     _initial_provider := _initial_provider s;
     _initial_model_id := _initial_model_id s;
     _initial_thinking_level := _initial_thinking_level s; _flushed := b |}.

Definition _persist_entry (s : Session) (entry : SessionEntry) (disk : Disk)
  : Session * Disk :=
  match _persist s, _session_file s with
  | true, Some path =>
      if negb (has_assistant (_entries s)) then (s, disk)
      else if negb (_flushed s) then (with_flushed s true, _write_all s disk)
      else (s, append_line path (entry_line entry) disk)
  | _, _ => (s, disk)
  end.

Definition _append_entry (s : Session) (entry : SessionEntry) (disk : Disk)
  : Session * Disk :=
  _persist_entry
    {| _id := _id s; _cwd := _cwd s; _session_file := _session_file s;
       _persist := _persist s; _header := _header s;
       _entries := _entries s ++ [entry];
       _by_id := <[entry_id entry := entry]> (_by_id s);
       _leaf_id := Some (entry_id entry);
       _initial_provider := _initial_provider s;
       _initial_model_id := _initial_model_id s;
       _initial_thinking_level := _initial_thinking_level s;
       _flushed := _flushed s |}
    entry disk.

(** The [EntryBase] part every [append_*] builds. *)
Definition new_base (s : Session) (o : Outside) : EntryBase :=
  mkBase (_generate_entry_id s o) (_leaf_id s) (_now_iso o).

Definition append_message (s : Session) (o : Outside) (message : Message)
    (disk : Disk) : string * (Session * Disk) :=
  let entry := MessageEntry (new_base s o) message in
  (entry_id entry, _append_entry s entry disk).

Definition append_thinking_level_change (s : Session) (o : Outside)
    (thinking_level : string) (disk : Disk) : string * (Session * Disk) :=
  let entry := ThinkingLevelChangeEntry (new_base s o) thinking_level in
  (entry_id entry, _append_entry s entry disk).

Definition append_model_change (s : Session) (o : Outside)
    (provider model_id : string) (base_url : option string) (disk : Disk)
  : string * (Session * Disk) :=
  let entry := ModelChangeEntry (new_base s o) provider model_id base_url in
  (entry_id entry, _append_entry s entry disk).

Definition append_compaction (s : Session) (o : Outside)
    (summary first_kept_entry_id : string) (tokens_before : Z)
    (details : option (list (string * json))) (disk : Disk)
  : string * (Session * Disk) :=
  let entry := CompactionEntry (new_base s o) summary first_kept_entry_id
                 tokens_before details in
  (entry_id entry, _append_entry s entry disk).

Definition append_custom_message (s : Session) (o : Outside)
    (custom_type content : string) (display : bool)
    (details : option (list (string * json))) (disk : Disk)
  : string * (Session * Disk) :=
  let entry := CustomMessageEntry (new_base s o) custom_type content display
                 details in
  (entry_id entry, _append_entry s entry disk).

Definition append_session_info (s : Session) (o : Outside) (name : string)
    (disk : Disk) : string * (Session * Disk) :=
  let entry := SessionInfoEntry (new_base s o) (Some name) in
  (entry_id entry, _append_entry s entry disk).

(** *** Views over the entries *)

Definition message_of (e : SessionEntry) : option Message :=
  match e with MessageEntry _ m => Some m | _ => None end.

(** [[e.message for e in self._entries if isinstance(e, MessageEntry)]] *)
Definition all_messages (s : Session) : list Message :=
  omap message_of (_entries s).

(** The first loop of [messages], run on [reversed(self._entries)]: the
    id and the summary of the first compaction entry met. *)
Fixpoint first_compaction (reversed_entries : list SessionEntry)
  : option (string * string) :=
  match reversed_entries with
  | [] => None
  | CompactionEntry b summary _ _ _ :: _ => Some (id b, summary)
  | _ :: rest => first_compaction rest
  end.

(** The second loop of [messages], with its flag [past_compaction]. *)
Fixpoint messages_after (last_compaction_id : string) (past_compaction : bool)
    (es : list SessionEntry) : list Message :=
  match es with
  | [] => []
  | entry :: rest =>
      if is_compaction entry && String.eqb (entry_id entry) last_compaction_id
      then messages_after last_compaction_id true rest
      else
        match entry with
        | MessageEntry _ m =>
            if past_compaction
            then m :: messages_after last_compaction_id past_compaction rest
            else messages_after last_compaction_id past_compaction rest
        | _ => messages_after last_compaction_id past_compaction rest
        end
  end.

Definition messages (s : Session) : list Message :=
  match first_compaction (rev (_entries s)) with
  | None => omap message_of (_entries s)
  | Some (last_compaction_id, summary) =>
      [UserMessage (UPlain "What did we do so far?");
       AssistantMsg (mkAssistantMessage [TextContent summary] None STOP)]
      ++ messages_after last_compaction_id false (_entries s)
  end.

(** Truth value of a [str | None]. *)
Definition truthy (o : option string) : bool :=
  match o with
  | Some s => negb (String.eqb s "")
  | None => false
  end.

Fixpoint first_thinking_level (reversed_entries : list SessionEntry)
  : option string :=
  match reversed_entries with
  | [] => None
  | ThinkingLevelChangeEntry _ l :: _ => Some l
  | _ :: rest => first_thinking_level rest
  end.

Definition thinking_level (s : Session) : string :=
  default (_initial_thinking_level s) (first_thinking_level (rev (_entries s))).

Fixpoint first_model (reversed_entries : list SessionEntry)
  : option (string * string * option string) :=
  match reversed_entries with
  | [] => None
  | ModelChangeEntry _ p m u :: _ => Some (p, m, u)
  | _ :: rest => first_model rest
  end.

Definition model (s : Session) : option (string * string * option string) :=
  match first_model (rev (_entries s)) with
  | Some t => Some t
  | None =>
      if truthy (_initial_provider s) && truthy (_initial_model_id s)
      then Some (default "" (_initial_provider s),
                 default "" (_initial_model_id s), None)
      else None
  end.

Definition opt_str_eqb (a b : option string) : bool :=
  match a, b with
  | Some x, Some y => String.eqb x y
  | None, None => true
  | _, _ => false
  end.

Definition set_model (s : Session) (o : Outside) (provider model_id : string)
    (base_url : option string) (disk : Disk) : Session * Disk :=
  match model s with
  | Some (p, m, u) =>
      if String.eqb p provider && String.eqb m model_id
         && opt_str_eqb u base_url
      then (s, disk)
      else snd (append_model_change s o provider model_id base_url disk)
  | None => snd (append_model_change s o provider model_id base_url disk)
  end.

Definition set_thinking_level (s : Session) (o : Outside)
    (level : string) (disk : Disk) : Session * Disk :=
  if String.eqb (thinking_level s) level then (s, disk)
  else snd (append_thinking_level_change s o level disk).

(** *** Creating and loading *)

(** [Session.create]: [session_id] and [timestamp] are the uuid and the
    clock reading it draws, [file_timestamp] the reformatted timestamp and
    [sessions_dir] the result of [get_sessions_dir(cwd)]. *)
Definition create (session_id timestamp file_timestamp sessions_dir : string)
    (cwd : string) (persist : bool) (provider model_id : option string)
    (thinking_level : string) : Session :=
  let session :=
    Session_init session_id cwd None persist provider model_id thinking_level in
  {| _id := _id session; _cwd := _cwd session;
     _session_file :=
       if persist
       then Some (sessions_dir +:+ "/" +:+ file_timestamp +:+ "_"
                  +:+ session_id +:+ ".jsonl")
       else None;
     _persist := _persist session;
     _header := Some (mkHeader CURRENT_VERSION session_id timestamp cwd);
     _entries := _entries session; _by_id := _by_id session;
     _leaf_id := _leaf_id session;
     _initial_provider := _initial_provider session;
     _initial_model_id := _initial_model_id session;
     _initial_thinking_level := _initial_thinking_level session;
     _flushed := _flushed session |}.

Definition in_memory (session_id timestamp file_timestamp sessions_dir : string)
    (cwd : string) (provider model_id : option string)
    (thinking_level : string) : Session :=
  create session_id timestamp file_timestamp sessions_dir cwd false provider
    model_id thinking_level.

(** [entry_type == "..."] for the result of [data.get("type")]. *)
Definition type_is (entry_type : option json) (tag : string) : bool :=
  match entry_type with
  | Some (JStr s) => String.eqb s tag
  | _ => false
  end.

(** The validator the [if]/[elif] chain of [load] selects for an entry
    type; [None] when no branch matches and the line is passed over. *)
Definition entry_validator (entry_type : option json)
  : option (list (string * json) -> option SessionEntry) :=
  if type_is entry_type "message" then Some MessageEntry_validate
  else if type_is entry_type "thinking_level_change"
  then Some ThinkingLevelChangeEntry_validate
  else if type_is entry_type "model_change" then Some ModelChangeEntry_validate
  else if type_is entry_type "compaction" then Some CompactionEntry_validate
  else if type_is entry_type "custom_message"
  then Some CustomMessageEntry_validate
  else if type_is entry_type "session_info" then Some SessionInfoEntry_validate
  else None.

(** The body of the [for line in f] loop of [load], over the remaining
    lines, with the loop variables [header] and [entries]. *)
Fixpoint load_lines (lines : list line) (header : option SessionHeader)
    (entries : list SessionEntry)
  : result (option SessionHeader * list SessionEntry) :=
  match lines with
  | [] => Ok (header, entries)
  | Blank :: rest => load_lines rest header entries
  | NotJson _ :: rest => load_lines rest header entries
  | JsonLine (JObj data) :: rest =>
      let entry_type := get "type" data in
      if type_is entry_type "header" then
        match header_validate data with
        | Some h => load_lines rest (Some h) entries
        | None => Raise ValidationError
        end
      else
        match entry_validator entry_type with
        | Some validate =>
            match validate data with
            | Some e => load_lines rest header (entries ++ [e])
            | None => Raise ValidationError
            end
        | None => load_lines rest header entries
        end
  | JsonLine _ :: _ => Raise AttributeError   (* [data.get] on a non-dict *)
  end.

Definition load (path : string) (disk : Disk) : result Session :=
  match disk !! path with
  | None => Raise FileNotFoundError
  | Some lines =>
      match load_lines lines None [] with
      | Raise e => Raise e
      | Ok (None, _) => Raise ValueError_no_header
      | Ok (Some header, entries) =>
          Ok {| _id := h_id header; _cwd := h_cwd header;
                _session_file := Some path; _persist := true;
                _header := Some header; _entries := entries;
                _by_id := foldl (fun m e => <[entry_id e := e]> m) ∅ entries;
                _leaf_id := option_map entry_id (last entries);
                _initial_provider := None; _initial_model_id := None;
                _initial_thinking_level := "medium"; _flushed := true |}
      end
  end.

(** *** Sequences of appends *)

Inductive Op :=
| OpMessage (message : Message)
| OpThinkingLevelChange (thinking_level : string)
| OpModelChange (provider model_id : string) (base_url : option string)
| OpCompaction (summary first_kept_entry_id : string) (tokens_before : Z)
    (details : option (list (string * json)))
| OpCustomMessage (custom_type content : string) (display : bool)
    (details : option (list (string * json)))
| OpSessionInfo (name : string)
| OpSetModel (provider model_id : string) (base_url : option string)
| OpSetThinkingLevel (thinking_level : string).

Definition apply_op (st : Session * Disk) (call : Outside * Op)
  : Session * Disk :=
  let '(s, disk) := st in
  let '(o, op) := call in
  match op with
  | OpMessage m => snd (append_message s o m disk)
  | OpThinkingLevelChange l => snd (append_thinking_level_change s o l disk)
  | OpModelChange p m u => snd (append_model_change s o p m u disk)
  | OpCompaction sm k t d => snd (append_compaction s o sm k t d disk)
  | OpCustomMessage ct c disp d =>
      snd (append_custom_message s o ct c disp d disk)
  | OpSessionInfo n => snd (append_session_info s o n disk)
  | OpSetModel p m u => set_model s o p m u disk
  | OpSetThinkingLevel l => set_thinking_level s o l disk
  end.

Definition run_ops (st : Session * Disk) (calls : list (Outside * Op))
  : Session * Disk :=
  foldl apply_op st calls.

(** Every entry names its predecessor: the first has no parent, each
    later one has the id of the entry before it. *)
Fixpoint chained (prev : option string) (es : list SessionEntry) : Prop :=
  match es with
  | [] => True
  | e :: rest => parent_id (base e) = prev /\ chained (Some (entry_id e)) rest
  end.

End SessionStore.
Import SessionStore.

(* ===================================================================== *)
(** ** Events ([kon/events.py]) *)
(* ===================================================================== *)

Module Events.

Inductive Event :=
| AgentStartEvent
| AgentEndEvent (stop_reason : StopReason) (total_turns : Z)
    (total_usage : option Usage)
| TurnStartEvent (turn : Z)
| TurnEndEvent (turn : Z) (assistant_message : option AssistantMessage)
    (tool_results : list ToolResultMessage) (stop_reason : StopReason)
| ThinkingStartEvent
| ThinkingDeltaEvent (delta : string)
| ThinkingEndEvent (thinking : string) (signature : option string)
| TextStartEvent
| TextDeltaEvent (delta : string)
| TextEndEvent (text : string)
| ToolStartEvent (tool_call_id tool_name : string)
| ToolArgsDeltaEvent (tool_call_id delta : string)
| ToolArgsTokenUpdateEvent (tool_call_id tool_name : string) (token_count : Z)
| ToolEndEvent (tool_call_id tool_name : string)
    (arguments : list (string * json)) (display : string)
| ToolResultEvent (tool_call_id tool_name : string)
    (result : option ToolResultMessage)
| CompactionStartEvent
| CompactionEndEvent (tokens_before : Z) (aborted : bool)
| RetryEvent (attempt total_attempts : Z) (delay : Z) (error : string)
| ErrorEvent (error : string)
| WarningEvent (warning : string)
| InterruptedEvent (message : string).

End Events.
Import Events.

(* ===================================================================== *)
(** ** The turn executor ([kon/turn.py]) *)
(* ===================================================================== *)

Module Turn.

(** *** Collaborators *)

(** An exception: its class, as far as the handlers of [turn.py] tell
    classes apart, and [str(e)]. *)
Inductive ExcClass :=
| TypeError | KeyError | ValueError | PydanticValidationError | OtherError.

Record Exception := mkException { exc_class : ExcClass; str : string }.

Inductive Try (A : Type) :=
| Return (a : A)
| Throw (e : Exception).
Arguments Return {A} a.
Arguments Throw {A} e.

(** Modelled from the spec: the tool contract of [kon/tools] (section 6):
    a parameter-construction hook, a format-call hook and [execute],
    which returns a [ToolResult] with a success flag, optional text,
    optional images and an optional display string. *)
Record ToolResult := mkToolResult {
  success : bool;
  result : option string;
  images : option (list ImageContent);
  result_display : option string
}.

Record BaseTool := mkTool {
  Params : Type;
  params : list (string * json) -> Try Params;
  format_call : Params -> Try string;
  execute : Params -> Try ToolResult
}.

(** What [asyncio.wait] reports in one iteration of the chunk loop. *)
Inductive Waited :=
| NothingDone      (* the timeout elapsed first: [done] is empty *)
| CancelDone       (* [cancel_task in done] *)
| NextDone.        (* only the fetch of the next chunk is done *)

(** The cancellation signal and the clock as one turn observes them:
    [is_set] at entry, at the top of the [i]-th iteration of the chunk
    loop and before the [i]-th tool execution, and the result of the
    [i]-th wait. *)
Record World := mkWorld {
  is_set_at_entry : bool;
  is_set_at_iteration : nat -> bool;
  waited : nat -> Waited;
  is_set_at_tool : nat -> bool
}.

Record LLMStream := mkStream {
  parts : list StreamPart;           (* what the iterator yields *)
  stream_usage : option Usage        (* [stream.usage] *)
}.

(** The provider as one turn sees it: the outcome of its [k]-th call of
    [provider.stream(messages, system_prompt=..., tools=...)], whose
    arguments do not change during the turn, and its classification of
    errors. *)
Record BaseProvider := mkProvider {
  stream : nat -> Try LLMStream;
  should_retry_for_error : Exception -> bool
}.

(** What the generator does, in order: the events it yields, and its
    calls of the provider, of [asyncio.sleep] and of tools. *)
Inductive Effect :=
| Yield (e : Event)
| CallStream (attempt_num : nat)
| Sleep (delay : Z)
| CallExecute (tool_call : ToolCall).

Definition yields (evs : list Event) : list Effect := map Yield evs.

Fixpoint events_of (tr : list Effect) : list Event :=
  match tr with
  | [] => []
  | Yield e :: rest => e :: events_of rest
  | _ :: rest => events_of rest
  end.

Fixpoint stream_calls (tr : list Effect) : nat :=
  match tr with
  | [] => O
  | CallStream _ :: rest => S (stream_calls rest)
  | _ :: rest => stream_calls rest
  end.

(** A run of the generator: its effects, and the exception that ended it
    when it did not return. *)
Record Run := mkRun { trace : list Effect; raised : option Exception }.

(** *** Constants and small helpers *)

Definition _TOOL_ARGS_TOKEN_DISPLAY_THRESHOLD : Z := 20.
Definition _TOOL_ARGS_TOKEN_CHUNK_UPDATE_INTERVAL : Z := 4.

Definition _count_tokens (text : string) : Z :=
  Z.of_nat (String.length text) / 4.

Inductive StreamState := THINK | TEXT | TOOL_CALL.

(** The dict [{"id": ..., "name": ..., "arguments": ...}] of a tool call
    being streamed. *)
Record ToolCallData := mkData {
  d_id : string;
  d_name : string;
  d_arguments : string
}.

Record PendingToolCall := mkPending {
  tool_call : ToolCall;
  tool : option BaseTool;
  p_display : string
}.

Definition _create_skipped_tool_result (tool_call : ToolCall) (reason : string)
  : ToolResultMessage :=
  {| tool_call_id := tc_id tool_call; tool_name := tc_name tool_call;
     tr_content := [PText reason]; display := None; is_error := true |}.

(** [_execute_tool]; the [CallExecute] effect is recorded by the caller. *)
Definition _execute_tool (tool_call : ToolCall) (tool : option BaseTool)
  : ToolResultMessage :=
  match tool with
  | None =>
      {| tool_call_id := tc_id tool_call; tool_name := tc_name tool_call;
         tr_content := [PText ("Unknown tool: " +:+ tc_name tool_call)];
         display := None; is_error := true |}
  | Some tool =>
      let failed (e : Exception) :=
        {| tool_call_id := tc_id tool_call; tool_name := tc_name tool_call;
           tr_content := [PText ("Error executing tool: " +:+ str e)];
           display := None; is_error := true |} in
      match params tool (arguments tool_call) with
      | Throw e => failed e
      | Return p =>
          match execute tool p with
          | Throw e => failed e
          | Return result =>
              let content := [] in
              let content :=
                if truthy (Turn.result result)
                then content ++ [PText (default "" (Turn.result result))]
                else content in
              let content :=
                match images result with
                | Some (i :: imgs) => content ++ map PImage (i :: imgs)
                | _ => content
                end in
              let content :=
                match content with
                | [] => content ++ [PText "(no output)"]
                | _ => content
                end in
              {| tool_call_id := tc_id tool_call;
                 tool_name := tc_name tool_call;
                 tr_content := content;
                 display := result_display result;
                 is_error := negb (success result) |}
          end
      end
  end.

(** [_get_tool_call_idle_timeout_seconds], on the configured
    [llm.tool_call_idle_timeout_seconds]. *)
Definition _DEFAULT_TOOL_CALL_IDLE_TIMEOUT_SECONDS : Q := 60 # 1.

Definition _get_tool_call_idle_timeout_seconds (timeout : Q) : option Q :=
  if Qle_bool timeout (0 # 1) then None
  else Some (if Qeq_bool timeout (0 # 1)
             then _DEFAULT_TOOL_CALL_IDLE_TIMEOUT_SECONDS
             else timeout).

(** *** The local variables of [run_single_turn] *)

Record State := mkState {
  content : list Content;
  think_buffer : list string;
  think_signature : option string;
  text_buffer : list string;
  pending_tool_calls : list ToolCallData;
  current_tool_call : option ToolCallData;
  _tool_arg_chunk_counter : Z;
  _tool_arg_token_count : Z;
  current_state : option StreamState;
  stop_reason : StopReason;
  interrupted : bool
}.

Definition initial_state : State :=
  {| content := []; think_buffer := []; think_signature := None;
     text_buffer := []; pending_tool_calls := []; current_tool_call := None;
     _tool_arg_chunk_counter := 0; _tool_arg_token_count := 0;
     current_state := None; stop_reason := STOP; interrupted := false |}.

Definition set_content v (st : State) : State :=
  mkState v (think_buffer st) (think_signature st) (text_buffer st)
    (pending_tool_calls st) (current_tool_call st)
    (_tool_arg_chunk_counter st) (_tool_arg_token_count st)
    (current_state st) (stop_reason st) (interrupted st).

Definition set_think_buffer v (st : State) : State :=
  mkState (content st) v (think_signature st) (text_buffer st)
    (pending_tool_calls st) (current_tool_call st)
    (_tool_arg_chunk_counter st) (_tool_arg_token_count st)
    (current_state st) (stop_reason st) (interrupted st).

Definition set_think_signature v (st : State) : State :=
  mkState (content st) (think_buffer st) v (text_buffer st)
    (pending_tool_calls st) (current_tool_call st)
    (_tool_arg_chunk_counter st) (_tool_arg_token_count st)
    (current_state st) (stop_reason st) (interrupted st).

Definition set_text_buffer v (st : State) : State :=
  mkState (content st) (think_buffer st) (think_signature st) v
    (pending_tool_calls st) (current_tool_call st)
    (_tool_arg_chunk_counter st) (_tool_arg_token_count st)
    (current_state st) (stop_reason st) (interrupted st).

Definition set_pending_tool_calls v (st : State) : State :=
  mkState (content st) (think_buffer st) (think_signature st) (text_buffer st)
    v (current_tool_call st)
    (_tool_arg_chunk_counter st) (_tool_arg_token_count st)
    (current_state st) (stop_reason st) (interrupted st).

Definition set_current_tool_call v (st : State) : State :=
  mkState (content st) (think_buffer st) (think_signature st) (text_buffer st)
    (pending_tool_calls st) v
    (_tool_arg_chunk_counter st) (_tool_arg_token_count st)
    (current_state st) (stop_reason st) (interrupted st).

Definition set_counters chunks tokens (st : State) : State :=
  mkState (content st) (think_buffer st) (think_signature st) (text_buffer st)
    (pending_tool_calls st) (current_tool_call st) chunks tokens
    (current_state st) (stop_reason st) (interrupted st).

Definition set_current_state v (st : State) : State :=
  mkState (content st) (think_buffer st) (think_signature st) (text_buffer st)
    (pending_tool_calls st) (current_tool_call st)
    (_tool_arg_chunk_counter st) (_tool_arg_token_count st)
    v (stop_reason st) (interrupted st).

Definition set_stop_reason v (st : State) : State :=
  mkState (content st) (think_buffer st) (think_signature st) (text_buffer st)
    (pending_tool_calls st) (current_tool_call st)
    (_tool_arg_chunk_counter st) (_tool_arg_token_count st)
    (current_state st) v (interrupted st).

Definition set_interrupted v (st : State) : State :=
  mkState (content st) (think_buffer st) (think_signature st) (text_buffer st)
    (pending_tool_calls st) (current_tool_call st)
    (_tool_arg_chunk_counter st) (_tool_arg_token_count st)
    (current_state st) (stop_reason st) v.

(** [current_state and current_state != other] / [current_state == s] *)
Definition state_is (s : StreamState) (c : option StreamState) : bool :=
  match c, s with
  | Some THINK, THINK | Some TEXT, TEXT | Some TOOL_CALL, TOOL_CALL => true
  | _, _ => false
  end.

Definition in_other_state (s : StreamState) (c : option StreamState) : bool :=
  match c with
  | Some _ => negb (state_is s c)
  | None => false
  end.

(** The closure [_finalize_current_state]: the new values of the
    variables it rebinds, and the events it returns. *)
Definition _finalize_current_state (include_empty : bool) (st : State)
  : State * list Event :=
  match current_state st with
  | Some THINK =>
      let full_thinking := String.concat "" (think_buffer st) in
      let '(st, events) :=
        if include_empty || negb (String.eqb full_thinking "")
        then (set_content
                (content st
                 ++ [ThinkingContent full_thinking (think_signature st)]) st,
              [ThinkingEndEvent full_thinking (think_signature st)])
        else (st, []) in
      (set_current_state None
         (set_think_signature None (set_think_buffer [] st)), events)
  | Some TEXT =>
      let full_text := String.concat "" (text_buffer st) in
      let '(st, events) :=
        if include_empty || negb (String.eqb full_text "")
        then (set_content (content st ++ [TextContent full_text]) st,
              [TextEndEvent full_text])
        else (st, []) in
      (set_current_state None (set_text_buffer [] st), events)
  | Some TOOL_CALL =>
      match current_tool_call st with
      | Some c =>
          (set_current_state None
             (set_current_tool_call None
                (set_pending_tool_calls (pending_tool_calls st ++ [c]) st)),
           [])
      | None => (set_current_state None st, [])
      end
  | None => (set_current_state None st, [])
  end.

(** [if pending_tool_calls and stop_reason == StopReason.STOP:
       stop_reason = StopReason.TOOL_USE] *)
Definition promote_stop_reason (st : State) : State :=
  match pending_tool_calls st, stop_reason st with
  | _ :: _, STOP => set_stop_reason TOOL_USE st
  | _, _ => st
  end.

(** The [match chunk] statement: one stream part. *)
Definition on_part (st : State) (chunk : StreamPart) : State * list Event :=
  match chunk with
  | ThinkPart t sig =>
      let '(st, ev1) :=
        if in_other_state THINK (current_state st)
        then _finalize_current_state true st else (st, []) in
      let ev2 :=
        if state_is THINK (current_state st) then []
        else [ThinkingStartEvent] in
      let st := set_current_state (Some THINK) st in
      let st := set_think_buffer (think_buffer st ++ [t]) st in
      let st := if truthy sig then set_think_signature sig st else st in
      (st, ev1 ++ ev2 ++ [ThinkingDeltaEvent t])
  | TextPart t =>
      let '(st, ev1) :=
        if in_other_state TEXT (current_state st)
        then _finalize_current_state true st else (st, []) in
      let ev2 :=
        if state_is TEXT (current_state st) then [] else [TextStartEvent] in
      let st := set_current_state (Some TEXT) st in
      let st := set_text_buffer (text_buffer st ++ [t]) st in
      (st, ev1 ++ ev2 ++ [TextDeltaEvent t])
  | ToolCallStart id name _ =>
      let '(st, ev1) :=
        if in_other_state TOOL_CALL (current_state st)
        then _finalize_current_state true st
        else
          match state_is TOOL_CALL (current_state st), current_tool_call st with
          | true, Some c =>
              (set_current_tool_call None
                 (set_pending_tool_calls (pending_tool_calls st ++ [c]) st),
               [])
          | _, _ => (st, [])
          end in
      let st := set_counters 0 0 st in
      let st := set_current_state (Some TOOL_CALL) st in
      let st := set_current_tool_call (Some (mkData id name "")) st in
      (st, ev1 ++ [ToolStartEvent id name])
  | ToolCallDelta _ delta =>
      match current_tool_call st with
      | Some c =>
          let c := mkData (d_id c) (d_name c) (d_arguments c +:+ delta) in
          let st := set_current_tool_call (Some c) st in
          let chunks := _tool_arg_chunk_counter st + 1 in
          let tokens := _tool_arg_token_count st + _count_tokens delta in
          let st := set_counters chunks tokens st in
          (st,
           ToolArgsDeltaEvent (d_id c) delta
           :: (if (_TOOL_ARGS_TOKEN_DISPLAY_THRESHOLD <? tokens)
                  && (chunks mod _TOOL_ARGS_TOKEN_CHUNK_UPDATE_INTERVAL =? 0)
               then [ToolArgsTokenUpdateEvent (d_id c) (d_name c) tokens]
               else []))
      | None => (st, [])
      end
  | StreamDone reason =>
      _finalize_current_state true (set_stop_reason reason st)
  | StreamError err =>
      (set_stop_reason ERROR st, [ErrorEvent err])
  end.

Section Executor.

(** [json.loads] on an accumulated argument string ([None]: it raises
    [JSONDecodeError]), the tool registry behind [get_tool], and the
    [:g] formatting of a number of seconds. *)
Variable json_loads : string -> option json.
Variable get_tool : string -> option BaseTool.
Variable format_g : Q -> string.

(** The exceptions [_finalize_tool_call_data] catches around the tool's
    hooks. *)
Definition handled (e : Exception) : bool :=
  match exc_class e with
  | TypeError | KeyError | ValueError | PydanticValidationError => true
  | OtherError => false
  end.

Definition _finalize_tool_call_data (tool_call_data : ToolCallData)
  : Try PendingToolCall :=
  let arguments :=
    match json_loads (d_arguments tool_call_data) with
    | Some j => j
    | None => JObj []
    end in
  (* [ToolCall(id=..., name=..., arguments=arguments)]: the arguments of
     a tool call are a map (section 3 of the specification), and the
     constructor of the model refuses any other value *)
  match arguments with
  | JObj arguments =>
      let tool_call :=
        mkToolCall (d_id tool_call_data) (d_name tool_call_data) arguments in
      let tool := get_tool (tc_name tool_call) in
      match tool with
      | None => Return (mkPending tool_call tool "")
      | Some t =>
          match params t arguments with
          | Return p =>
              match format_call t p with
              | Return display => Return (mkPending tool_call tool display)
              | Throw e =>
                  if handled e then Return (mkPending tool_call tool "")
                  else Throw e
              end
          | Throw e =>
              if handled e then Return (mkPending tool_call tool "")
              else Throw e
          end
      end
  | _ =>
      Throw (mkException PydanticValidationError
               "arguments: Input should be a valid dictionary")
  end.

(** How an iteration of [while True] gets its chunk. *)
Inductive Fetched :=
| Interrupt                      (* [interrupted = True], [break] *)
| TimedOut (chunk_timeout : Q)   (* the stall branch, [break] *)
| Deliver.                       (* [chunk] is the next item *)

Variable cancel_event : bool.    (* a cancellation event was passed *)
Variable w : World.
Variable llm_tool_call_idle_timeout_seconds : Q.   (* [kon_config.llm] *)

Definition tool_call_idle_timeout_seconds : option Q :=
  _get_tool_call_idle_timeout_seconds llm_tool_call_idle_timeout_seconds.

Definition chunk_timeout (st : State) : option Q :=
  match tool_call_idle_timeout_seconds with
  | Some t =>
      if state_is TOOL_CALL (current_state st)
         || match pending_tool_calls st with [] => false | _ => true end
      then Some t else None
  | None => None
  end.

(** The head of the loop body, up to the point where [chunk] is bound.
    The waiter task exists exactly when an event was passed, and is not
    done when [is_set()] was just false; [asyncio.wait] returns an empty
    set only when it was given a timeout. *)
Definition fetch (i : nat) (st : State) : Fetched :=
  if cancel_event && is_set_at_iteration w i then Interrupt
  else if cancel_event then
    match chunk_timeout st, waited w i with
    | Some t, NothingDone => TimedOut t
    | _, CancelDone => Interrupt
    | _, _ => Deliver
    end
  else
    match chunk_timeout st, waited w i with
    | Some t, NothingDone => TimedOut t
    | _, _ => Deliver
    end.

Definition stall_warning (t : Q) : Event :=
  WarningEvent ("Tool-call stream stalled for " +:+ format_g t
                +:+ "s; continuing with collected arguments.").

(** The chunk loop from its [i]-th iteration on, with [ps] what the
    stream iterator has still to yield. *)
Fixpoint chunk_loop (ps : list StreamPart) (i : nat) (st : State)
  : State * list Event :=
  match fetch i st with
  | Interrupt => (set_stop_reason INTERRUPTED (set_interrupted true st), [])
  | TimedOut t =>
      let '(st, events) := _finalize_current_state false st in
      (promote_stop_reason st, stall_warning t :: events)
  | Deliver =>
      match ps with
      | [] =>                                  (* [_STREAM_EXHAUSTED] *)
          let '(st, events) := _finalize_current_state true st in
          (promote_stop_reason st, events)
      | chunk :: rest =>
          let '(st, events) := on_part st chunk in
          let '(st, later) := chunk_loop rest (S i) st in
          (st, events ++ later)
      end
  end.

(** The first loop after the stream: one [ToolEndEvent] per queued call.
    Returns what was finalized and yielded before an exception, if any. *)
Fixpoint finalize_tools (pending : list ToolCallData)
  : list PendingToolCall * list Event * option Exception :=
  match pending with
  | [] => ([], [], None)
  | tool_data :: rest =>
      match _finalize_tool_call_data tool_data with
      | Throw e => ([], [], Some e)
      | Return p =>
          let '(ps, events, exc) := finalize_tools rest in
          (p :: ps,
           ToolEndEvent (tc_id (tool_call p)) (tc_name (tool_call p))
             (arguments (tool_call p)) (p_display p) :: events,
           exc)
      end
  end.

(** The second loop: the tools run one by one, the [i]-th and later. *)
Fixpoint execute_tools (finalized : list PendingToolCall) (i : nat)
  : list ToolResultMessage * list Effect :=
  match finalized with
  | [] => ([], [])
  | pending :: rest =>
      let '(result, effects) :=
        if cancel_event && is_set_at_tool w i
        then (_create_skipped_tool_result (tool_call pending)
                "Interrupted by user", [])
        else (_execute_tool (tool_call pending) (tool pending),
              [CallExecute (tool_call pending)]) in
      let '(results, later) := execute_tools rest (S i) in
      (result :: results,
       effects
       ++ [Yield (ToolResultEvent (tc_id (tool_call pending))
                    (tc_name (tool_call pending)) (Some result))]
       ++ later)
  end.

(** The chunk loop from iteration [i] on, followed by the cleanup
    [if interrupted: ... _finalize_current_state(include_empty=False)]. *)
Definition consume (ps : list StreamPart) (i : nat) (st : State)
  : State * list Event :=
  let '(st, loop_events) := chunk_loop ps i st in
  let '(st, cleanup) :=
    if interrupted st then _finalize_current_state false st else (st, []) in
  (st, loop_events ++ cleanup).

(** Everything from the chunk loop to the final [TurnEndEvent]. *)
Definition drive_stream (turn : Z) (stream : LLMStream) : Run :=
  let '(st, stream_events) := consume (parts stream) 0%nat initial_state in
  let '(finalized_tools, tool_ends, exc) :=
    finalize_tools (pending_tool_calls st) in
  let before := yields (stream_events ++ tool_ends) in
  match exc with
  | Some e => mkRun before (Some e)
  | None =>
      let content :=
        content st
        ++ map (fun p => ToolCallContent (tool_call p)) finalized_tools in
      let '(tool_results, tool_effects) :=
        execute_tools finalized_tools 0%nat in
      let assistant_message :=
        mkAssistantMessage content (stream_usage stream) (stop_reason st) in
      mkRun
        (before ++ tool_effects
         ++ (if interrupted st
             then [Yield (InterruptedEvent "Interrupted by user")] else [])
         ++ [Yield (TurnEndEvent turn (Some assistant_message) tool_results
                      (stop_reason st))])
        None
  end.

(** The retry loop [for attempt_num, delay in enumerate([*delays, None])],
    from [attempt_num] on. *)
Inductive Opening :=
| Opened (stream : LLMStream)    (* [break] *)
| GaveUp                         (* error and turn-end yielded, [return] *)
| NeverOpened.                   (* the loop ran out: [stream is None] *)

Fixpoint open_stream (provider : BaseProvider) (turn : Z) (total_attempts : Z)
    (attempt_num : nat) (delays : list (option Z)) : list Effect * Opening :=
  match delays with
  | [] => ([], NeverOpened)
  | delay :: rest =>
      match stream provider attempt_num with
      | Return s => ([CallStream attempt_num], Opened s)
      | Throw e =>
          let report_failure :=
            ([CallStream attempt_num; Yield (ErrorEvent (str e));
              Yield (TurnEndEvent turn None [] ERROR)], GaveUp) in
          match should_retry_for_error provider e, delay with
          | true, Some d =>
              let '(later, opening) :=
                open_stream provider turn total_attempts (S attempt_num) rest in
              ([CallStream attempt_num;
                Yield (RetryEvent (Z.of_nat attempt_num + 1) total_attempts d
                         (str e));
                Sleep d] ++ later, opening)
          | _, _ => report_failure
          end
      end
  end.

Definition default_retry_delays : list Z := [2; 4; 8].

Definition run_single_turn (provider : BaseProvider) (turn : Z)
    (retry_delays : option (list Z)) : Run :=
  if cancel_event && is_set_at_entry w then
    mkRun (yields [InterruptedEvent "Interrupted by user";
                   TurnEndEvent turn None [] INTERRUPTED]) None
  else
    let delays :=
      match retry_delays with
      | Some d => d
      | None => default_retry_delays
      end in
    match open_stream provider turn (Z.of_nat (length delays)) 0%nat
            (map Some delays ++ [None]) with
    | (opening, GaveUp) => mkRun opening None
    | (opening, NeverOpened) =>
        mkRun opening (Some (mkException OtherError "AssertionError"))
    | (opening, Opened stream) =>
        let run := drive_stream turn stream in
        mkRun (opening ++ trace run) (raised run)
    end.

End Executor.

End Turn.
Import Turn.

(* ===================================================================== *)
(** ** The compaction check of the agent loop ([kon/loop.py]) *)
(* ===================================================================== *)

Module Loop.

Record AgentConfig := mkAgentConfig {
  max_turns : option Z;
  context_window : option Z;
  max_output_tokens : option Z
}.

(** The settings of [kon_config] and of the provider that the check
    reads. *)
Record Settings := mkSettings {
  agent_default_context_window : Z;
  compaction_buffer_tokens : Z;
  compaction_on_overflow : string;
  provider_config_max_tokens : option Z
}.

(** [a or b] on an [int | None]. *)
Definition int_or (a : option Z) (b : Z) : Z :=
  match a with
  | Some v => if v =? 0 then b else v
  | None => b
  end.

(** Modelled from the spec: [is_overflow] of [kon/core/compaction.py]
    (section 4.5): overflow holds iff
    [input + output + max_output + buffer >= context_window].  The check
    below takes the function as a parameter; this is the instance used
    in the examples. *)
Definition is_overflow_by_spec (last_usage : Usage)
    (context_window max_output buffer_tokens : Z) : bool :=
  context_window <=? input_tokens last_usage + output_tokens last_usage
                     + max_output + buffer_tokens.

(** The scan of [reversed(self.session.entries)] for the last assistant
    message: its [usage] field. *)
Fixpoint last_assistant_usage (reversed_entries : list SessionEntry)
  : option (option Usage) :=
  match reversed_entries with
  | [] => None
  | MessageEntry _ (AssistantMsg a) :: _ => Some (usage a)
  | _ :: rest => last_assistant_usage rest
  end.

Definition continue_message : Message :=
  UserMessage (UPlain
    ("Continue if you have next steps, or stop and ask for clarification if you"
     +:+ " are unsure how to proceed. If there is nothing to do don't add a large"
     +:+ " preamble, just summarise everything so far in 2-3 lines and be done.")).

Section Agent.

(** The two functions of [kon/core/compaction.py]:
    [is_overflow(last_usage, context_window, max_output, buffer_tokens)],
    and [generate_summary(all_messages, provider, system_prompt)], a
    call of the provider that returns the summary or raises. *)
Variable is_overflow : Usage -> Z -> Z -> Z -> bool.
Variable generate_summary : list Message -> string -> Try string.
Variable config : AgentConfig.
Variable kon_config : Settings.

(** [Agent._check_compaction].  [cancelled] is
    [cancel_event and cancel_event.is_set()] at the time of the check;
    [o1] and [o2] are what the two appends draw from outside. *)
Definition _check_compaction (session : Session) (disk : Disk)
    (stop_reason : StopReason) (system_prompt : string) (cancelled : bool)
    (o1 o2 : Outside) : list Event * (Session * Disk) :=
  if StopReason_eqb stop_reason ERROR then ([], (session, disk))
  else
    match last_assistant_usage (rev (entries session)) with
    | None | Some None => ([], (session, disk))
    | Some (Some last_usage) =>
        let context_window :=
          int_or (context_window config)
            (agent_default_context_window kon_config) in
        let max_output :=
          int_or (max_output_tokens config)
            (int_or (provider_config_max_tokens kon_config) 0) in
        let buffer_tokens := compaction_buffer_tokens kon_config in
        if negb (is_overflow last_usage context_window max_output
                   buffer_tokens)
        then ([], (session, disk))
        else if cancelled then ([], (session, disk))
        else
          let tokens_before :=
            input_tokens last_usage + output_tokens last_usage
            + cache_read_tokens last_usage + cache_write_tokens last_usage in
          match generate_summary (all_messages session) system_prompt with
          | Throw _ =>
              ([CompactionStartEvent; CompactionEndEvent tokens_before true],
               (session, disk))
          | Return summary =>
              let first_kept_id := default "" (leaf_id session) in
              let '(session, disk) :=
                snd (append_compaction session o1 summary first_kept_id
                       tokens_before None disk) in
              let '(session, disk) :=
                if String.eqb (compaction_on_overflow kon_config) "continue"
                then snd (append_message session o2 continue_message disk)
                else (session, disk) in
              ([CompactionStartEvent; CompactionEndEvent tokens_before false],
               (session, disk))
          end
    end.

End Agent.

End Loop.
Import Loop.

(* ===================================================================== *)
(** * Vocabulary of the statements *)
(* ===================================================================== *)

(** The state of a persisting session made by [Session.create] and
    extended by appends, with [path] its file, [h] its header and [disk0]
    the disk at creation: nothing is written before the first flush, and
    from then on the file holds the header line and one line per entry. *)
Definition created_inv (path : string) (h : SessionHeader) (disk0 : Disk)
    (s : Session) (disk : Disk) : Prop :=
  _session_file s = Some path
  /\ _persist s = true
  /\ _header s = Some h
  /\ _leaf_id s = option_map entry_id (last (_entries s))
  /\ chained None (_entries s)
  /\ if _flushed s
     then has_assistant (_entries s) = true
          /\ disk !! path = Some (header_line h :: map entry_line (_entries s))
     else has_assistant (_entries s) = false /\ disk = disk0.

(** The state of a session resumed by [Session.load] from [path] and
    extended by appends, when it contains an assistant message: the file
    still loads to the entries of the session. *)
Definition resumed_inv (path : string) (s : Session) (disk : Disk) : Prop :=
  _session_file s = Some path
  /\ _persist s = true
  /\ _flushed s = true
  /\ has_assistant (_entries s) = true
  /\ _leaf_id s = option_map entry_id (last (_entries s))
  /\ exists lines h,
      disk !! path = Some lines
      /\ load_lines lines None [] = Ok (Some h, _entries s).

(** Sample data for the concrete instances below. *)
Definition sample_outside (k : string) : Outside :=
  mkOutside (fun _ => k) "0123456789abcdef0123456789abcdef"
    "2026-01-01T00:00:00+00:00".

Definition sample_user : Message := UserMessage (UPlain "Hello").

Definition sample_assistant : Message :=
  AssistantMsg
    (mkAssistantMessage [TextContent "Hi"] (Some (mkUsage 10 5 2 0)) STOP).

Definition sample_session : Session :=
  create "5f0c" "2026-01-01T00:00:00+00:00" "2026-01-01T00-00-00"
    "/home/u/.kon/sessions/proj" "/proj" true None None "medium".

Definition sample_path : string :=
  "/home/u/.kon/sessions/proj/2026-01-01T00-00-00_5f0c.jsonl".

Definition sample_calls : list (Outside * Op) :=
  [(sample_outside "aaaaaaaa", OpMessage sample_user);
   (sample_outside "bbbbbbbb", OpThinkingLevelChange "high");
   (sample_outside "cccccccc", OpMessage sample_assistant);
   (sample_outside "dddddddd",
    OpCompaction "summary" "cccccccc" 17 (Some [("removed", JNum 5)]))].

(** The compacted view in the words of the specification: when the log
    has a compaction entry, the synthetic question, the synthetic answer
    whose sole text part is the summary of the most recent compaction,
    then the messages of the message entries after that compaction;
    otherwise the messages of all message entries. *)
Fixpoint most_recent_compaction (es : list SessionEntry)
  : option (string * list SessionEntry) :=
  match es with
  | [] => None
  | e :: rest =>
      match most_recent_compaction rest with
      | Some found => Some found
      | None =>
          match e with
          | CompactionEntry _ summary _ _ _ => Some (summary, rest)
          | _ => None
          end
      end
  end.

Definition compacted_view (es : list SessionEntry) : list Message :=
  match most_recent_compaction es with
  | Some (summary, after) =>
      UserMessage (UPlain "What did we do so far?")
      :: AssistantMsg (mkAssistantMessage [TextContent summary] None STOP)
      :: omap message_of after
  | None => omap message_of es
  end.

(** The lines a session file can be made of by this writer, by a crash
    or by hand: blank lines, lines that are not JSON, header lines and
    entry lines, in any order. *)
Inductive Item :=
| IBlank
| IGarbage (text : string)
| IHeader (h : SessionHeader)
| IEntry (e : SessionEntry).

Definition item_line (i : Item) : line :=
  match i with
  | IBlank => Blank
  | IGarbage text => NotJson text
  | IHeader h => header_line h
  | IEntry e => entry_line e
  end.

Fixpoint last_header (prev : option SessionHeader) (items : list Item)
  : option SessionHeader :=
  match items with
  | [] => prev
  | IHeader h :: rest => last_header (Some h) rest
  | _ :: rest => last_header prev rest
  end.

Fixpoint entries_of (items : list Item) : list SessionEntry :=
  match items with
  | [] => []
  | IEntry e :: rest => e :: entries_of rest
  | _ :: rest => entries_of rest
  end.

(** The first line of a file that is neither blank nor unparseable. *)
Fixpoint first_valid (items : list Item) : option Item :=
  match items with
  | [] => None
  | IBlank :: rest | IGarbage _ :: rest => first_valid rest
  | i :: _ => Some i
  end.

Definition sample_entry : SessionEntry :=
  MessageEntry (mkBase "aaaaaaaa" None "2026-01-01T00:00:00+00:00") sample_user.

Definition sample_header : SessionHeader :=
  mkHeader CURRENT_VERSION "5f0c" "2026-01-01T00:00:00+00:00" "/proj".

(** The retry events of a turn whose attempts [attempt_num],
    [attempt_num + 1], ... fail with the errors [errors], one per delay
    of the schedule. *)
Fixpoint retry_events (errors : nat -> Exception) (total_attempts : Z)
    (attempt_num : nat) (delays : list Z) : list Event :=
  match delays with
  | [] => []
  | d :: rest =>
      RetryEvent (Z.of_nat attempt_num + 1) total_attempts d
        (str (errors attempt_num))
      :: retry_events errors total_attempts (S attempt_num) rest
  end.

(** A world in which the chunk loop is never cut: the signal is not set
    at the top of an iteration and every wait ends with the next chunk. *)
Definition undisturbed (w : World) : Prop :=
  (forall i, is_set_at_iteration w i = false)
  /\ (forall i, waited w i = NextDone).

(** Sample collaborators, after the mock provider and the tests. *)
Definition quiet : World :=
  mkWorld false (fun _ => false) (fun _ => NextDone) (fun _ => false).

Definition cancelled_at_entry : World :=
  mkWorld true (fun _ => true) (fun _ => CancelDone) (fun _ => true).

(** The signal fires while the chunk loop waits in iteration [k]. *)
Definition cancelled_in_iteration (k : nat) : World :=
  mkWorld false (fun _ => false)
    (fun i => if Nat.eqb i k then CancelDone else NextDone)
    (fun _ => true).

Definition sample_json_loads (s : string) : option json :=
  if String.eqb s "{}" then Some (JObj [])
  else if String.eqb s "[]" then Some (JArr [])
  else if String.eqb s "7" then Some (JNum 7)
  else None.

Definition read_tool : BaseTool :=
  mkTool unit (fun _ => Return tt) (fun _ => Return "Read file")
    (fun _ => Return (mkToolResult true (Some "contents") None None)).

Definition silent_tool : BaseTool :=
  mkTool unit (fun _ => Return tt) (fun _ => Return "Run")
    (fun _ => Return (mkToolResult false None (Some []) (Some "nothing"))).

(** A tool whose format hook raises an exception that
    [_finalize_tool_call_data] does not catch. *)
Definition crashing_tool : BaseTool :=
  mkTool unit (fun _ => Return tt)
    (fun _ => Throw (mkException OtherError "format hook failed"))
    (fun _ => Return (mkToolResult true None None None)).

Definition sample_get_tool (name : string) : option BaseTool :=
  if String.eqb name "read" then Some read_tool
  else if String.eqb name "bash" then Some silent_tool
  else if String.eqb name "crash" then Some crashing_tool
  else None.

Definition sample_format_g (q : Q) : string := "60".

Definition mock_usage : option Usage := Some (mkUsage 10 5 2 0).

Definition always_fails : BaseProvider :=
  mkProvider (fun _ => Throw (mkException OtherError "Always fails"))
    (fun _ => true).

Definition non_retryable : BaseProvider :=
  mkProvider (fun _ => Throw (mkException ValueError "Invalid input"))
    (fun _ => false).

Definition streaming (ps : list StreamPart) : BaseProvider :=
  mkProvider (fun _ => Return (mkStream ps mock_usage)) (fun _ => false).

Definition sample_run (cancel_event : bool) (w : World) (provider : BaseProvider)
    (retry_delays : option (list Z)) : Run :=
  run_single_turn sample_json_loads sample_get_tool sample_format_g
    cancel_event w (60 # 1) provider 1 retry_delays.

(** *** Blocks of events

    The blocks that are open after a sequence of events: a thinking
    block and a text block are opened by their start event and closed by
    their end event, a tool block is opened by the tool-start of a call
    id and closed by a tool-end of that id.  [track] refuses an event
    that is out of place: a start of a block that is open, a delta or an
    end of a block that is not. *)
Record Blocks := mkBlocks {
  thinking_open : bool;
  text_open : bool;
  tools_open : list string
}.

Definition no_blocks : Blocks := mkBlocks false false [].

Fixpoint remove_first (id : string) (l : list string) : option (list string) :=
  match l with
  | [] => None
  | x :: rest =>
      if String.eqb x id then Some rest
      else option_map (cons x) (remove_first id rest)
  end.

Definition track (b : Blocks) (e : Event) : option Blocks :=
  match e with
  | ThinkingStartEvent =>
      if thinking_open b then None
      else Some (mkBlocks true (text_open b) (tools_open b))
  | ThinkingDeltaEvent _ => if thinking_open b then Some b else None
  | ThinkingEndEvent _ _ =>
      if thinking_open b
      then Some (mkBlocks false (text_open b) (tools_open b)) else None
  | TextStartEvent =>
      if text_open b then None
      else Some (mkBlocks (thinking_open b) true (tools_open b))
  | TextDeltaEvent _ => if text_open b then Some b else None
  | TextEndEvent _ =>
      if text_open b
      then Some (mkBlocks (thinking_open b) false (tools_open b)) else None
  | ToolStartEvent id _ =>
      Some (mkBlocks (thinking_open b) (text_open b) (tools_open b ++ [id]))
  | ToolArgsDeltaEvent id _ =>
      if existsb (String.eqb id) (tools_open b) then Some b else None
  | ToolEndEvent id _ _ _ =>
      match remove_first id (tools_open b) with
      | Some rest => Some (mkBlocks (thinking_open b) (text_open b) rest)
      | None => None
      end
  | _ => Some b
  end.

Fixpoint well_nested (b : Blocks) (evs : list Event) : option Blocks :=
  match evs with
  | [] => Some b
  | e :: rest =>
      match track b e with
      | Some b' => well_nested b' rest
      | None => None
      end
  end.

(** Events that neither open nor close a block nor belong to one. *)
Definition neutral (e : Event) : bool :=
  match e with
  | ThinkingStartEvent | ThinkingDeltaEvent _ | ThinkingEndEvent _ _
  | TextStartEvent | TextDeltaEvent _ | TextEndEvent _
  | ToolStartEvent _ _ | ToolArgsDeltaEvent _ _ | ToolEndEvent _ _ _ _ => false
  | _ => true
  end.

Fixpoint count (kind : Event -> bool) (evs : list Event) : nat :=
  match evs with
  | [] => O
  | e :: rest => ((if kind e then 1 else 0) + count kind rest)%nat
  end.

Definition is_thinking_start e :=
  match e with ThinkingStartEvent => true | _ => false end.
Definition is_thinking_end e :=
  match e with ThinkingEndEvent _ _ => true | _ => false end.
Definition is_text_start e :=
  match e with TextStartEvent => true | _ => false end.
Definition is_text_end e :=
  match e with TextEndEvent _ => true | _ => false end.
Definition is_tool_start e :=
  match e with ToolStartEvent _ _ => true | _ => false end.
Definition is_tool_end e :=
  match e with ToolEndEvent _ _ _ _ => true | _ => false end.

(** A thinking or text part that carries a non-empty string. *)
Definition nonempty_part (p : StreamPart) : bool :=
  match p with
  | ThinkPart t _ | TextPart t => negb (String.eqb t "")
  | _ => true
  end.

(** The open blocks [b] are those of the state of the chunk loop: the
    current thinking or text block, the queued tool calls and the tool
    call being streamed. *)
Definition tracks (st : State) (b : Blocks) : Prop :=
  thinking_open b = state_is THINK (current_state st)
  /\ text_open b = state_is TEXT (current_state st)
  /\ tools_open b
     = map d_id (pending_tool_calls st)
       ++ match current_tool_call st with
          | Some c => [d_id c]
          | None => []
          end
  /\ (current_tool_call st <> None -> current_state st = Some TOOL_CALL).

(** After finalization: no current block in the state, and the open tool
    blocks are the queued calls. *)
Definition settled (st : State) (b : Blocks) : Prop :=
  current_state st = None
  /\ current_tool_call st = None
  /\ tools_open b = map d_id (pending_tool_calls st).

Definition closed (b : Blocks) : Prop :=
  thinking_open b = false /\ text_open b = false.

(** The buffer of the current thinking or text block is not empty. *)
Definition filled (st : State) : Prop :=
  match current_state st with
  | Some THINK => String.eqb (String.concat "" (think_buffer st)) "" = false
  | Some TEXT => String.eqb (String.concat "" (text_buffer st)) "" = false
  | _ => True
  end.

(** Sample settings for the compaction check: a small context window,
    the default buffer, continue mode. *)
Definition sample_settings : Settings := mkSettings 200000 20000 "continue" None.
Definition sample_agent_config : AgentConfig :=
  mkAgentConfig None (Some 1000) None.
Definition sample_flushed : Session * Disk :=
  run_ops (sample_session, ∅)
    [(sample_outside "aaaaaaaa", OpMessage sample_user);
     (sample_outside "bbbbbbbb", OpMessage sample_assistant)].
Definition summary_fails (ms : list Message) (prompt : string) : Try string :=
  Throw (mkException OtherError "provider down").
Definition summary_works (ms : list Message) (prompt : string) : Try string :=
  Return "what happened so far".


(* ===================================================================== *)
(** * More of the session store ([kon/session.py]) *)
(* ===================================================================== *)

Module SessionViews.

(** The [name] property: the scan of [reversed(self._entries)] for a
    session-info entry whose name is not empty. *)
Fixpoint first_name (reversed_entries : list SessionEntry) : option string :=
  match reversed_entries with
  | [] => None
  | SessionInfoEntry _ n :: rest =>
      if truthy n then n else first_name rest
  | _ :: rest => first_name rest
  end.

Definition name (s : Session) : option string :=
  first_name (rev (_entries s)).

(** [part.text for part in message.content if isinstance(part, TextContent)] *)
Fixpoint text_parts (cs : list Content) : list string :=
  match cs with
  | [] => []
  | TextContent t :: rest => t :: text_parts rest
  | _ :: rest => text_parts rest
  end.

Section LastText.

(** [str.strip()], which removes the white space of Unicode at both
    ends. *)
Variable str_strip : string -> string.

(** The loop of [get_last_assistant_text] over [reversed(self.messages)]. *)
Fixpoint last_assistant_text (reversed_messages : list Message)
  : option string :=
  match reversed_messages with
  | [] => None
  | AssistantMsg a :: rest =>
      if StopReason_eqb (am_stop_reason a) INTERRUPTED
         && match am_content a with [] => true | _ => false end
      then last_assistant_text rest
      else
        let text := str_strip (String.concat "" (text_parts (am_content a))) in
        if String.eqb text "" then None else Some text
  | _ :: rest => last_assistant_text rest
  end.

Definition get_last_assistant_text (s : Session) : option string :=
  last_assistant_text (rev (messages s)).

End LastText.

End SessionViews.
Import SessionViews.

Module SessionDirectory.

(** *** [get_sessions_dir] *)

(** [s.replace(old, new)] for single characters. *)
Fixpoint replace_char (old new : ascii) (s : string) : string :=
  match s with
  | EmptyString => EmptyString
  | String c rest =>
      String (if Ascii.eqb c old then new else c) (replace_char old new rest)
  end.

(** [s.lstrip(c)], [s.rstrip(c)] and [s.strip(c)] for a single
    character. *)
Fixpoint lstrip_char (c : ascii) (s : string) : string :=
  match s with
  | EmptyString => EmptyString
  | String x rest => if Ascii.eqb x c then lstrip_char c rest else s
  end.

Fixpoint rstrip_char (c : ascii) (s : string) : string :=
  match s with
  | EmptyString => EmptyString
  | String x rest =>
      match rstrip_char c rest with
      | EmptyString => if Ascii.eqb x c then EmptyString else String x EmptyString
      | kept => String x kept
      end
  end.

Definition strip_char (c : ascii) (s : string) : string :=
  rstrip_char c (lstrip_char c s).

(** [cwd.replace("/", "-").replace("\\", "-").strip("-")] *)
Definition safe_cwd (cwd : string) : string :=
  strip_char "-"%char
    (replace_char "\"%char "-"%char (replace_char "/"%char "-"%char cwd)).

(** The directory [home / CONFIG_DIR_NAME / "sessions" / safe_cwd], as
    the components that follow [home]: joining an empty name or a single
    dot adds no component. *)
Definition get_sessions_dir (CONFIG_DIR_NAME cwd : string) : list string :=
  [CONFIG_DIR_NAME; "sessions"]
  ++ (if String.eqb (safe_cwd cwd) "" || String.eqb (safe_cwd cwd) "."
      then [] else [safe_cwd cwd]).

(** *** [build_session_info] and [list] *)

(** The exceptions that leave [build_session_info], by what the handler
    of [list] does with them. *)
Inductive BuildError :=
| Caught        (* [ValueError] (a validation error, a bad timestamp) *)
| NotCaught.    (* [AttributeError], [TypeError] *)

Inductive Built (A : Type) :=
| Done (a : A)
| Fails (e : BuildError).
Arguments Done {A} a.
Arguments Fails {A} e.

(** [content[:100]] *)
Definition first_100 (s : string) : string := String.substring 0 100 s.

(** The variable [first_message]: a string, or the non-empty list that
    slicing a list-valued [text] leaves there. *)
Inductive FirstMessage :=
| FText (s : string)
| FList.

(** [not first_message] *)
Definition unset (first_message : FirstMessage) : bool :=
  match first_message with
  | FText s => String.eqb s ""
  | FList => false
  end.

(** A file of the sessions directory: its path, its lines and its
    modification time. *)
Record File := mkFile { f_path : string; f_lines : list line; f_mtime : Z }.

Inductive Resolved :=
| LoadPath (path : string)            (* [return cls.load(path)] *)
| EmptyId                             (* [ValueError]: the id is empty *)
| Ambiguous                           (* [ValueError]: ambiguous prefix *)
| NotFound                            (* [FileNotFoundError] *)
| ListingFailed.                      (* [cls.list] raised *)

Section Listing.

(** [datetime.fromisoformat] ([None]: it raises [ValueError]). *)
Variable datetime : Type.
Variable fromisoformat : string -> option datetime.

Record SessionInfo := mkInfo {
  si_id : string;
  si_path : string;
  si_cwd : string;
  si_name : option string;
  si_created : datetime;
  si_modified : Z;              (* [st_mtime], as a number *)
  si_message_count : Z;
  si_first_message : string
}.

(** What slicing a dict raises: [TypeError] or [KeyError], depending on
    the version of Python. *)
Variable slice_of_dict : BuildError.

(** The part of the loop body that handles the [message] field of a
    line: the new value of [first_message], which is only looked for in
    the message of a user while [first_message] is still empty. *)
Definition digest_message (data : list (string * json))
    (first_message : FirstMessage) : Built FirstMessage :=
  match (match get "message" data with Some msg => msg | None => JObj [] end) with
  | JObj msg =>
      if type_is (get "role" msg) "user" && unset first_message then
        match (match get "content" msg with Some c => c | None => JStr "" end) with
        | JStr content => Done (FText (first_100 content))
        | JArr (JObj first_item :: _) =>
            if type_is (get "type" first_item) "text" then
              match get "text" first_item with
              | Some (JStr t) => Done (FText (first_100 t))
              | None => Done (FText (first_100 ""))
              | Some (JArr []) => Done (FText "")
              | Some (JArr (_ :: _)) => Done FList
              | Some (JObj _) => Fails slice_of_dict
              | Some _ => Fails NotCaught          (* not subscriptable *)
              end
            else Done first_message
        | _ => Done first_message
        end
      else Done first_message
  | _ => Fails NotCaught                            (* [msg.get] *)
  end.

(** The loop of [build_session_info], with its variables [header],
    [message_count] and [first_message]. *)
Fixpoint scan_lines (lines : list line) (header : option SessionHeader)
    (message_count : Z) (first_message : FirstMessage)
  : Built (option SessionHeader * Z * FirstMessage) :=
  match lines with
  | [] => Done (header, message_count, first_message)
  | Blank :: rest => scan_lines rest header message_count first_message
  | NotJson _ :: rest => scan_lines rest header message_count first_message
  | JsonLine (JObj data) :: rest =>
      if type_is (get "type" data) "header" then
        match header_validate data with
        | Some h => scan_lines rest (Some h) message_count first_message
        | None => Fails Caught
        end
      else if type_is (get "type" data) "message" then
        match digest_message data first_message with
        | Done first_message =>
            scan_lines rest header (message_count + 1) first_message
        | Fails e => Fails e
        end
      else scan_lines rest header message_count first_message
  | JsonLine _ :: _ => Fails NotCaught                (* [data.get] *)
  end.

Definition build_session_info (path : string) (lines : list line) (mtime : Z)
  : Built (option SessionInfo) :=
  match scan_lines lines None 0 (FText "") with
  | Fails e => Fails e
  | Done (None, _, _) => Done None
  | Done (Some header, message_count, first_message) =>
      match fromisoformat (h_timestamp header), first_message with
      | Some created, FText first_message =>
          Done (Some
            {| si_id := h_id header; si_path := path; si_cwd := h_cwd header;
               si_name := None; si_created := created; si_modified := mtime;
               si_message_count := message_count;
               si_first_message :=
                 if String.eqb first_message "" then "(no messages)"
                 else first_message |})
      | _, _ => Fails Caught   (* a bad timestamp, or a list as first message *)
      end
  end.

(** The loop of [list] over the files that [glob("*.jsonl")] yields. *)
Fixpoint collect (files : list File) : Built (list SessionInfo) :=
  match files with
  | [] => Done []
  | f :: rest =>
      match build_session_info (f_path f) (f_lines f) (f_mtime f) with
      | Fails NotCaught => Fails NotCaught
      | Fails Caught | Done None => collect rest
      | Done (Some info) =>
          match collect rest with
          | Done infos => Done (info :: infos)
          | Fails e => Fails e
          end
      end
  end.

(** [sessions.sort(key=lambda s: s.modified, reverse=True)]: a stable
    sort, latest first. *)
Fixpoint insert_by_modified (x : SessionInfo) (sorted : list SessionInfo)
  : list SessionInfo :=
  match sorted with
  | [] => [x]
  | y :: rest =>
      if si_modified x <? si_modified y then y :: insert_by_modified x rest
      else x :: sorted
  end.

Fixpoint sort_by_modified (l : list SessionInfo) : list SessionInfo :=
  match l with
  | [] => []
  | x :: rest => insert_by_modified x (sort_by_modified rest)
  end.

Definition list_sessions (files : list File) : Built (list SessionInfo) :=
  match collect files with
  | Done sessions => Done (sort_by_modified sessions)
  | Fails e => Fails e
  end.

(** *** [continue_by_id] *)

Variable str_strip : string -> string.
Variable str_lower : string -> string.

Definition continue_by_id (files : list File) (session_id : string)
  : Resolved :=
  let normalized_id := str_lower (str_strip session_id) in
  if String.eqb normalized_id "" then EmptyId
  else
    match list_sessions files with
    | Fails _ => ListingFailed
    | Done sessions =>
        match List.filter
                (fun s => String.eqb (str_lower (si_id s)) normalized_id)
                sessions with
        | [s] => LoadPath (si_path s)
        | _ =>
            match List.filter
                    (fun s => String.prefix normalized_id (str_lower (si_id s)))
                    sessions with
            | [s] => LoadPath (si_path s)
            | _ :: _ :: _ => Ambiguous
            | [] => NotFound
            end
        end
    end.

(** *** [continue_recent] *)

(** [max(jsonl_files, key=lambda p: p.stat().st_mtime)]: the first file
    with the greatest modification time. *)
Fixpoint most_recent (best : File) (files : list File) : File :=
  match files with
  | [] => best
  | f :: rest =>
      if f_mtime best <? f_mtime f then most_recent f rest
      else most_recent best rest
  end.

Inductive Resumed :=
| CreateNew                           (* [return cls.create(cwd)] *)
| LoadFile (path : string).           (* [return cls.load(most_recent)] *)

Definition continue_recent (files : list File) : Resumed :=
  match files with
  | [] => CreateNew
  | f :: rest => LoadFile (f_path (most_recent f rest))
  end.

End Listing.

Arguments si_id {datetime} s.
Arguments si_path {datetime} s.
Arguments si_cwd {datetime} s.
Arguments si_name {datetime} s.
Arguments si_created {datetime} s.
Arguments si_modified {datetime} s.
Arguments si_message_count {datetime} s.
Arguments si_first_message {datetime} s.

End SessionDirectory.
Import SessionDirectory.

(* ===================================================================== *)
(** * More vocabulary *)
(* ===================================================================== *)

(** The index [_by_id] is the one built from the entries: each id maps
    to the last entry that carries it. *)
Definition indexed (s : Session) : Prop :=
  _by_id s = foldl (fun m e => <[entry_id e := e]> m) ∅ (_entries s).

(** The value of the flag [past_compaction] of [messages] after the
    entries [es]. *)
Fixpoint past_after (last_compaction_id : string) (past : bool)
    (es : list SessionEntry) : bool :=
  match es with
  | [] => past
  | e :: rest =>
      past_after last_compaction_id
        (past || (is_compaction e && String.eqb (entry_id e) last_compaction_id))
        rest
  end.

(** What [build_session_info] takes from one message for its
    [first_message]: the text of a plain user message, or the text of
    the first part of a user message in parts when that part is a text;
    nothing from any other message. *)
Definition digest_of (m : Message) : string :=
  match m with
  | UserMessage (UPlain c) => String.substring 0 100 c
  | UserMessage (UParts (PText t :: _)) => String.substring 0 100 t
  | _ => ""
  end.

(** The first digest that is not empty. *)
Fixpoint first_digest (ms : list Message) : string :=
  match ms with
  | [] => ""
  | m :: rest =>
      if String.eqb (digest_of m) "" then first_digest rest else digest_of m
  end.

Definition sample_fromisoformat (s : string) : option string :=
  if String.eqb s "" then None else Some s.

(** *** What a turn does

    The delays the generator slept, the tool calls of an assistant
    message, the results carried by the tool-result events, and the
    kinds of events the statements count. *)
Fixpoint sleeps_of (tr : list Effect) : list Z :=
  match tr with
  | [] => []
  | Sleep d :: rest => d :: sleeps_of rest
  | _ :: rest => sleeps_of rest
  end.

Fixpoint tool_calls_of (content : list Content) : list ToolCall :=
  match content with
  | [] => []
  | ToolCallContent tc :: rest => tc :: tool_calls_of rest
  | _ :: rest => tool_calls_of rest
  end.

Fixpoint results_of (evs : list Event) : list ToolResultMessage :=
  match evs with
  | [] => []
  | ToolResultEvent _ _ (Some r) :: rest => r :: results_of rest
  | _ :: rest => results_of rest
  end.

Definition is_retry e :=
  match e with RetryEvent _ _ _ _ => true | _ => false end.
Definition is_turn_end e :=
  match e with TurnEndEvent _ _ _ _ => true | _ => false end.
Definition is_interrupted e :=
  match e with InterruptedEvent _ => true | _ => false end.
Definition is_warning e :=
  match e with WarningEvent _ => true | _ => false end.
Definition is_token_update e :=
  match e with ToolArgsTokenUpdateEvent _ _ _ => true | _ => false end.
Definition is_args_delta e :=
  match e with ToolArgsDeltaEvent _ _ => true | _ => false end.
Definition is_tool_result e :=
  match e with ToolResultEvent _ _ _ => true | _ => false end.

Definition is_tool_call_start (p : StreamPart) : bool :=
  match p with ToolCallStart _ _ _ => true | _ => false end.

(** The events the chunk loop can yield. *)
Definition streamed (e : Event) : bool :=
  match e with
  | ThinkingStartEvent | ThinkingDeltaEvent _ | ThinkingEndEvent _ _
  | TextStartEvent | TextDeltaEvent _ | TextEndEvent _
  | ToolStartEvent _ _ | ToolArgsDeltaEvent _ _
  | ToolArgsTokenUpdateEvent _ _ _ | ErrorEvent _ | WarningEvent _ => true
  | _ => false
  end.

(** A tool-result message answers a tool call: it carries the id and
    the name of the call, and some content. *)
Definition answers (tc : ToolCall) (r : ToolResultMessage) : Prop :=
  tool_call_id r = tc_id tc /\ tool_name r = tc_name tc /\ tr_content r <> [].

(** The chunk loop is in the tool-call path: a tool call is being
    streamed or one is queued. *)
Definition in_tool_call_path (st : State) : bool :=
  state_is TOOL_CALL (current_state st)
  || match pending_tool_calls st with [] => false | _ => true end.

(** More sample collaborators: a provider that fails [k] times with a
    retryable error before it opens the stream [s] (the scenario
    "retries" of the mock provider), and a world in which the stream
    stalls in iteration [k] of the chunk loop (its scenario
    "tool_hang"). *)
Definition fails_then (k : nat) (s : LLMStream) : BaseProvider :=
  mkProvider
    (fun j => if Nat.ltb j k
              then Throw (mkException OtherError "Rate limit")
              else Return s)
    (fun _ => true).

Definition stalls_in_iteration (k : nat) : World :=
  mkWorld false (fun _ => false)
    (fun i => if Nat.eqb i k then NothingDone else NextDone)
    (fun _ => false).

(** Where the chunk loop leaves the variables of the turn: it yields
    only streaming events, it puts no tool call into the content, and it
    ends either interrupted, with stop reason INTERRUPTED, or with a
    stop reason that is not STOP when tool calls are queued. *)
Definition loop_post (st0 st : State) (evs : list Event) : Prop :=
  forallb streamed evs = true
  /\ tool_calls_of (content st) = tool_calls_of (content st0)
  /\ (interrupted st = true -> stop_reason st = INTERRUPTED)
  /\ (interrupted st = false ->
      stop_reason st = STOP -> pending_tool_calls st = []).

(** A token update reports more tokens than the display threshold. *)
Definition over_threshold (e : Event) : Prop :=
  match e with
  | ToolArgsTokenUpdateEvent _ _ token_count =>
      _TOOL_ARGS_TOKEN_DISPLAY_THRESHOLD < token_count
  | _ => True
  end.

(** Whether the chunk loop warns, and why. *)
Definition warns (format_g : Q -> string) (idle : Q) (st : State)
    (ps : list StreamPart) (evs : list Event) : Prop :=
  count is_warning evs = 0%nat
  \/ (count is_warning evs = 1%nat
      /\ (forall e, In e evs -> is_warning e = true ->
                    e = stall_warning format_g idle)
      /\ Qle_bool idle (0 # 1) = false
      /\ (in_tool_call_path st = true
          \/ existsb is_tool_call_start ps = true)).

(** The events that only the chunk loop yields. *)
Definition outside_stream (e : Event) : bool :=
  match e with
  | WarningEvent _ | ToolArgsTokenUpdateEvent _ _ _ | ToolArgsDeltaEvent _ _ =>
      false
  | _ => true
  end.

(* ===================================================================== *)
(** * The agent loop ([Agent.run] of [kon/loop.py]) *)
(* ===================================================================== *)

Module AgentRun.

(** Modelled from the spec: [Usage()] of [kon/core/types.py], whose four
    counters default to zero (section 3). *)
Definition Usage_zero : Usage := mkUsage 0 0 0 0.

(** [Agent._add_usage], on [self._run_usage]. *)
Definition _add_usage (run_usage : Usage) (usage : option Usage) : Usage :=
  match usage with
  | Some u =>
      mkUsage (input_tokens run_usage + input_tokens u)
        (output_tokens run_usage + output_tokens u)
        (cache_read_tokens run_usage + cache_read_tokens u)
        (cache_write_tokens run_usage + cache_write_tokens u)
  | None => run_usage
  end.

(** What [run] keeps between two statements: the session of the agent
    and its file, [self._run_usage], the locals [turn], [stop_reason]
    and [was_interrupted], and how many entries the run has appended so
    far (the rank of the next draw of an id and a timestamp). *)
Record Locals := mkLocals {
  l_session : Session;
  l_disk : Disk;
  l_run_usage : Usage;
  l_turn : nat;
  l_stop_reason : StopReason;
  was_interrupted : bool;
  l_appends : nat
}.

Definition is_compaction_end (e : Event) : bool :=
  match e with CompactionEndEvent _ _ => true | _ => false end.

Section Run.

(** The collaborators of a turn and of the compaction check. *)
Variable json_loads : string -> option json.
Variable get_tool : string -> option BaseTool.
Variable format_g : Q -> string.
Variable llm_tool_call_idle_timeout_seconds : Q.
Variable is_overflow : Usage -> Z -> Z -> Z -> bool.
Variable generate_summary : list Message -> string -> Try string.

(** The agent: its configuration, [kon_config] (with
    [kon_config.agent.max_turns] apart) and its system prompt. *)
Variable config : AgentConfig.
Variable kon_config : Settings.
Variable agent_max_turns : Z.
Variable system_prompt : string.

(** The outside of a run: whether a cancellation event was passed; what
    the provider does in the turn of a given number when called with
    given messages; what that turn observes of the signal and of the
    clock; whether the signal is set at the top of the loop after a
    given number of turns, and in the compaction check after a turn;
    and the id source and clock of the [k]-th append. *)
Variable cancel_event : bool.
Variable provider : nat -> list Message -> BaseProvider.
Variable world : nat -> World.
Variable is_set_at_top : nat -> bool.
Variable is_set_at_check : nat -> bool.
Variable outside : nat -> Outside.

(** [self.session.append_message(message)] *)
Definition append (l : Locals) (message : Message) : Locals :=
  let '(session, disk) :=
    snd (append_message (l_session l) (outside (l_appends l)) message
           (l_disk l)) in
  mkLocals session disk (l_run_usage l) (l_turn l) (l_stop_reason l)
    (was_interrupted l) (S (l_appends l)).

(** The body of [async for event in run_single_turn(...)], after the
    event was yielded. *)
Definition on_event (l : Locals) (event : Event) : Locals :=
  match event with
  | TurnEndEvent _ assistant_message tool_results stop_reason =>
      let l :=
        match assistant_message with
        | Some m =>
            append
              (mkLocals (l_session l) (l_disk l)
                 (_add_usage (l_run_usage l) (usage m)) (l_turn l)
                 (l_stop_reason l) (was_interrupted l) (l_appends l))
              (AssistantMsg m)
        | None => l
        end in
      let l :=
        mkLocals (l_session l) (l_disk l) (l_run_usage l) (l_turn l)
          stop_reason (was_interrupted l) (l_appends l) in
      fold_left (fun l result => append l (ToolResultMsg result))
        tool_results l
  | InterruptedEvent _ =>
      mkLocals (l_session l) (l_disk l) (l_run_usage l) (l_turn l)
        (l_stop_reason l) true (l_appends l)
  | _ => l
  end.

(** The [while turn < max_turns] loop.  [fuel] is the number of
    iterations the condition still allows, [max_turns - turn]; the
    result is what was yielded, the variables when the loop was left,
    and the exception that left it, if any. *)
Fixpoint turns (fuel : nat) (l : Locals)
  : list Event * Locals * option Exception :=
  match fuel with
  | O => ([], l, None)
  | S fuel =>
      if cancel_event && is_set_at_top (l_turn l) then
        ([InterruptedEvent "Interrupted by user"],
         mkLocals (l_session l) (l_disk l) (l_run_usage l) (l_turn l)
           INTERRUPTED true (l_appends l),
         None)
      else
        let turn := S (l_turn l) in
        let l :=
          mkLocals (l_session l) (l_disk l) (l_run_usage l) turn
            (l_stop_reason l) (was_interrupted l) (l_appends l) in
        let messages := messages (l_session l) in
        let r :=
          run_single_turn json_loads get_tool format_g cancel_event
            (world turn) llm_tool_call_idle_timeout_seconds
            (provider turn messages) (Z.of_nat turn) None in
        let events := events_of (trace r) in
        let l := fold_left on_event events l in
        match raised r with
        | Some e => (TurnStartEvent (Z.of_nat turn) :: events, l, Some e)
        | None =>
            if was_interrupted l
               || StopReason_eqb (l_stop_reason l) INTERRUPTED
            then
              (TurnStartEvent (Z.of_nat turn) :: events,
               mkLocals (l_session l) (l_disk l) (l_run_usage l) (l_turn l)
                 INTERRUPTED (was_interrupted l) (l_appends l),
               None)
            else
              let '(compaction_events, (session, disk)) :=
                _check_compaction is_overflow generate_summary config
                  kon_config (l_session l) (l_disk l) (l_stop_reason l)
                  system_prompt (cancel_event && is_set_at_check turn)
                  (outside (l_appends l)) (outside (S (l_appends l))) in
              let l :=
                mkLocals session disk (l_run_usage l) (l_turn l)
                  (l_stop_reason l) (was_interrupted l)
                  (S (S (l_appends l))) in
              let did_compact :=
                existsb is_compaction_end compaction_events in
              if did_compact
                 && String.eqb (compaction_on_overflow kon_config) "pause"
              then
                (TurnStartEvent (Z.of_nat turn) :: events ++ compaction_events,
                 l, None)
              else if negb did_compact
                      && negb (StopReason_eqb (l_stop_reason l) TOOL_USE)
              then
                (TurnStartEvent (Z.of_nat turn) :: events ++ compaction_events,
                 l, None)
              else
                let '(later, l, exc) := turns fuel l in
                (TurnStartEvent (Z.of_nat turn) :: events
                 ++ compaction_events ++ later, l, exc)
        end
  end.

(** [Agent.run(query, images, cancel_event)] on the session [session]
    with its file on [disk]: the events it yields, and the session and
    the disk when it is done. *)
Definition run (session : Session) (disk : Disk) (query : string)
    (images : option (list ImageContent))
  : list Event * (Session * Disk) :=
  let user_message :=
    match images with
    | Some (i :: rest) =>
        UserMessage (UParts (PText query :: map PImage (i :: rest)))
    | _ => UserMessage (UPlain query)
    end in
  let l :=
    append (mkLocals session disk Usage_zero 0 STOP false 0) user_message in
  let max_turns :=
    match max_turns config with
    | Some m => m
    | None => agent_max_turns
    end in
  let '(events, l, exc) := turns (Z.to_nat max_turns) l in
  let '(last_events, stop_reason) :=
    match exc with
    | Some e => ([ErrorEvent (str e)], ERROR)
    | None =>
        ([],
         if (max_turns <=? Z.of_nat (l_turn l)) && negb (was_interrupted l)
         then LENGTH else l_stop_reason l)
    end in
  (AgentStartEvent :: events ++ last_events
   ++ [AgentEndEvent stop_reason (Z.of_nat (l_turn l)) (Some (l_run_usage l))],
   (l_session l, l_disk l)).

End Run.

End AgentRun.

(** *** What the events of a run tell

    The numbers of the turn-start events; the stop reason, the usage
    and the messages that the turn-end events (and the compaction-end
    events, in continue mode) of a sequence of events leave behind. *)
Fixpoint turn_starts_of (evs : list Event) : list Z :=
  match evs with
  | [] => []
  | TurnStartEvent turn :: rest => turn :: turn_starts_of rest
  | _ :: rest => turn_starts_of rest
  end.

Definition is_agent_frame (e : Event) : bool :=
  match e with AgentStartEvent | AgentEndEvent _ _ _ => true | _ => false end.

Definition stop_after (stop_reason : StopReason) (evs : list Event)
  : StopReason :=
  fold_left (fun sr e => match e with
                         | TurnEndEvent _ _ _ sr' => sr'
                         | _ => sr
                         end) evs stop_reason.

Definition usage_after (run_usage : Usage) (evs : list Event) : Usage :=
  fold_left (fun u e => match e with
                        | TurnEndEvent _ (Some m) _ _ =>
                            AgentRun._add_usage u (usage m)
                        | _ => u
                        end) evs run_usage.

Definition logged_by (on_overflow : string) (e : Event) : list Message :=
  match e with
  | TurnEndEvent _ assistant_message tool_results _ =>
      match assistant_message with
      | Some m => [AssistantMsg m]
      | None => []
      end ++ map ToolResultMsg tool_results
  | CompactionEndEvent _ false =>
      if String.eqb on_overflow "continue" then [continue_message] else []
  | _ => []
  end.

Definition logged (on_overflow : string) (evs : list Event) : list Message :=
  flat_map (logged_by on_overflow) evs.

(** The events of a turn: neither agent nor turn-start nor compaction
    events. *)
Definition turn_event (e : Event) : bool :=
  match e with
  | AgentStartEvent | AgentEndEvent _ _ _ | TurnStartEvent _
  | CompactionStartEvent | CompactionEndEvent _ _ => false
  | _ => true
  end.

(** Whether the run ended in its exception handler: its last event
    before the agent-end event is then the error event of the handler. *)
Definition crashed (middle : list Event) : bool :=
  match last middle with
  | Some (ErrorEvent _) => true
  | _ => false
  end.

(** The stop reason of the agent in terms of what it yielded. *)
Definition agent_stop_reason (max_turns : Z) (total_turns : nat)
    (middle : list Event) : StopReason :=
  if crashed middle then ERROR
  else if existsb is_interrupted middle then INTERRUPTED
  else if max_turns <=? Z.of_nat total_turns then LENGTH
  else stop_after STOP middle.

(** What the loop keeps of a list of events: [kept l0 evs l] says that
    the variables [l] are those of [l0] after the events [evs] were
    yielded and handled. *)
Definition kept (on_overflow : string) (l0 : AgentRun.Locals)
    (evs : list Event) (l : AgentRun.Locals) : Prop :=
  AgentRun.l_run_usage l = usage_after (AgentRun.l_run_usage l0) evs
  /\ all_messages (AgentRun.l_session l)
     = all_messages (AgentRun.l_session l0) ++ logged on_overflow evs.

(** The session and the disk of the variables of a run, and the appends
    a run makes: messages and compactions. *)
Definition store_of (l : AgentRun.Locals) : Session * Disk :=
  (AgentRun.l_session l, AgentRun.l_disk l).

Definition run_call (call : Outside * Op) : Prop :=
  match snd call with
  | OpMessage _ | OpCompaction _ _ _ None => True
  | _ => False
  end.

(** The ids and timestamps of the successive appends of a sample run. *)
Definition sample_draws (k : nat) : Outside :=
  sample_outside (String (ascii_of_nat (97 + k)) "").

(** The first [n] parts of what the stream has still to yield reach the
    executor: none of the iterations [i], [i + 1], ... of the chunk loop
    that fetch them is cut by cancellation or idle timeout. *)
Fixpoint delivered (cancel_event : bool) (w : World) (idle : Q)
    (ps : list StreamPart) (i : nat) (st : State) (n : nat) : Prop :=
  match n with
  | O => True
  | S n =>
      fetch cancel_event w idle i st = Deliver
      /\ match ps with
         | [] => True
         | p :: rest =>
             delivered cancel_event w idle rest (S i) (fst (on_part st p)) n
         end
  end.

(** The retry loop of a turn opens the stream [s]. *)
Definition opens (provider : BaseProvider) (turn : Z)
    (retry_delays : option (list Z)) (s : LLMStream) : Prop :=
  let delays :=
    match retry_delays with
    | Some d => d
    | None => default_retry_delays
    end in
  snd (open_stream provider turn (Z.of_nat (length delays)) 0%nat
         (map Some delays ++ [None])) = Opened s.

(** The signal is set from the top of iteration [k] of the chunk loop
    on. *)
Definition cancelled_from_iteration (k : nat) : World :=
  mkWorld false (fun i => Nat.leb k i) (fun _ => NextDone) (fun _ => true).

(** What [load] makes of one line of a file, whatever the line: it
    passes over it (a blank line, a line that is not JSON, an object
    whose type is none of those it knows), takes it as the header, takes
    it as an entry, or fails on it, with [AttributeError] when the line
    is JSON but not an object and with the validation error when the
    header or the entry does not validate. *)
Inductive LineKind :=
| Skipped
| IsHeader (h : SessionHeader)
| IsEntry (e : SessionEntry)
| Rejected (error : exn).

Definition kind_of (l : line) : LineKind :=
  match l with
  | Blank | NotJson _ => Skipped
  | JsonLine (JObj data) =>
      if type_is (get "type" data) "header" then
        match header_validate data with
        | Some h => IsHeader h
        | None => Rejected ValidationError
        end
      else
        match entry_validator (get "type" data) with
        | Some validate =>
            match validate data with
            | Some e => IsEntry e
            | None => Rejected ValidationError
            end
        | None => Skipped
        end
  | JsonLine _ => Rejected AttributeError
  end.

(** The error of the first line of a file that [load] fails on, the
    last header line of a file, and its entries in order. *)
Fixpoint first_rejected (lines : list line) : option exn :=
  match lines with
  | [] => None
  | l :: rest =>
      match kind_of l with
      | Rejected error => Some error
      | _ => first_rejected rest
      end
  end.

Fixpoint header_after (prev : option SessionHeader) (lines : list line)
  : option SessionHeader :=
  match lines with
  | [] => prev
  | l :: rest =>
      match kind_of l with
      | IsHeader h => header_after (Some h) rest
      | _ => header_after prev rest
      end
  end.

Definition last_header_of (lines : list line) : option SessionHeader :=
  header_after None lines.

Fixpoint entries_in (lines : list line) : list SessionEntry :=
  match lines with
  | [] => []
  | l :: rest =>
      match kind_of l with
      | IsEntry e => e :: entries_in rest
      | _ => entries_in rest
      end
  end.

(** The digests of the files of a directory, in the order of the files:
    one for each file on which [build_session_info] returns a digest,
    none for a file on which it returns [None] or raises. *)
Definition digests_of (datetime : Type)
    (fromisoformat : string -> option datetime) (slice_of_dict : BuildError)
    (files : list File) : list (SessionInfo datetime) :=
  flat_map
    (fun f =>
       match build_session_info datetime fromisoformat slice_of_dict
               (f_path f) (f_lines f) (f_mtime f) with
       | Done (Some info) => [info]
       | _ => []
       end)
    files.

(* ===================================================================== *)
(** * Properties *)
(* ===================================================================== *)

(** ** Reading back what was dumped *)

Lemma traverse_map {A} (f : json -> option A) (g : A -> json) (l : list A) :
  (forall a, f (g a) = Some a) -> traverse f (map g l) = Some l.
Proof.
  intros Hfg. induction l as [|a l IH]; simpl.
  - reflexivity.
  - now rewrite Hfg, IH.
Qed.

Lemma StopReason_roundtrip r : StopReason_of_json (StopReason_to_json r) = Some r.
Proof. now destruct r. Qed.

Lemma Usage_roundtrip u : Usage_of_json (Usage_to_json u) = Some u.
Proof. now destruct u. Qed.

Lemma Part_roundtrip p : Part_of_json (Part_to_json p) = Some p.
Proof. destruct p as [t|[d m]]; reflexivity. Qed.

Lemma Content_roundtrip c : Content_of_json (Content_to_json c) = Some c.
Proof. destruct c as [t|t [s|]|[i n a]]; reflexivity. Qed.

Lemma Message_roundtrip m : Message_of_json (Message_to_json m) = Some m.
Proof.
  destruct m as [[s|ps]|[cs u sr]|[i n ps d e]]; cbn.
  - reflexivity.
  - now rewrite (traverse_map _ _ ps Part_roundtrip).
  - rewrite (traverse_map _ _ cs Content_roundtrip).
    destruct u as [[a b c d]|], sr; reflexivity.
  - rewrite (traverse_map _ _ ps Part_roundtrip).
    destruct d; reflexivity.
Qed.

(** A dumped entry is never taken for a header, is dispatched to the
    validator of its own class, and validates to itself. *)
Lemma entry_dump_dispatch e :
  exists data validate,
    entry_dump e = JObj data
    /\ type_is (get "type" data) "header" = false
    /\ entry_validator (get "type" data) = Some validate
    /\ validate data = Some e.
Proof.
  destruct e as [[i p t] m|[i p t] l|[i p t] pr mi u|[i p t] s k tb d
                |[i p t] ct c disp d|[i p t] n];
    eexists; eexists; (split; [reflexivity|]);
    (split; [reflexivity|]); (split; [reflexivity|]).
  - unfold MessageEntry_validate; cbn.
    destruct p; cbn; now rewrite Message_roundtrip.
  - destruct p; reflexivity.
  - destruct p, u; reflexivity.
  - destruct p, d; reflexivity.
  - destruct p, d; reflexivity.
  - destruct p, n; reflexivity.
Qed.

Lemma header_dump_validate h : header_validate
  [("type", JStr "header"); ("version", JNum (h_version h));
   ("id", JStr (h_id h)); ("timestamp", JStr (h_timestamp h));
   ("cwd", JStr (h_cwd h))] = Some h.
Proof. now destruct h. Qed.

Lemma load_lines_entries es : forall header acc,
  load_lines (map entry_line es) header acc = Ok (header, acc ++ es).
Proof.
  induction es as [|e es IH]; intros header acc; simpl.
  - now rewrite app_nil_r.
  - destruct (entry_dump_dispatch e) as (data & validate & -> & Hh & Hv & He).
    rewrite Hh, Hv, He, IH. now rewrite <- app_assoc.
Qed.

Lemma load_lines_written h es :
  load_lines (header_line h :: map entry_line es) None [] = Ok (Some h, es).
Proof.
  unfold header_line, header_dump. cbn [load_lines].
  change (type_is _ "header") with true. cbn iota.
  rewrite header_dump_validate. apply load_lines_entries.
Qed.

(** ** Sessions made by [create] and extended by appends *)

Lemma has_assistant_snoc es e :
  has_assistant (es ++ [e]) = has_assistant es || is_assistant_entry e.
Proof.
  unfold has_assistant. rewrite existsb_app. simpl. now rewrite orb_false_r.
Qed.

Lemma chained_snoc es : forall prev e,
  chained prev es ->
  parent_id (base e) = match last es with
                       | Some x => Some (entry_id x)
                       | None => prev
                       end ->
  chained prev (es ++ [e]).
Proof.
  induction es as [|x es IH]; intros prev e Hc Hp; simpl in *.
  - auto.
  - destruct Hc as [Hx Hc]. split; [exact Hx|].
    apply IH; [exact Hc|].
    destruct es as [|y es]; [exact Hp|].
    change (last (x :: y :: es)) with (last (y :: es)) in Hp.
    destruct (last (y :: es)) eqn:El; [exact Hp|].
    apply last_None in El. discriminate.
Qed.

(** Every operation either leaves the session alone or appends one entry
    whose parent is the leaf. *)
Lemma apply_op_cases s disk call :
  apply_op (s, disk) call = (s, disk)
  \/ exists e, parent_id (base e) = _leaf_id s
               /\ apply_op (s, disk) call = _append_entry s e disk.
Proof.
  destruct call as [o op]. unfold apply_op.
  destruct op; try (right; eexists; split; [|reflexivity]; reflexivity).
  - unfold set_model. destruct (model s) as [[[p m] u]|].
    + destruct (_ && _); [now left|].
      right; eexists; split; [|reflexivity]; reflexivity.
    + right; eexists; split; [|reflexivity]; reflexivity.
  - unfold set_thinking_level. destruct (String.eqb _ _); [now left|].
    right; eexists; split; [|reflexivity]; reflexivity.
Qed.

(** What one [_append_entry] does to a created session and its file. *)
Lemma append_entry_created path h disk0 s disk e :
  created_inv path h disk0 s disk ->
  parent_id (base e) = _leaf_id s ->
  let s' := fst (_append_entry s e disk) in
  let disk' := snd (_append_entry s e disk) in
  created_inv path h disk0 s' disk'
  /\ _entries s' = _entries s ++ [e]
  /\ (has_assistant (_entries s') = false -> disk' = disk)
  /\ (has_assistant (_entries s) = false ->
      has_assistant (_entries s') = true ->
      disk' = <[path := header_line h :: map entry_line (_entries s')]> disk)
  /\ (has_assistant (_entries s) = true ->
      exists written, disk !! path = Some written
        /\ disk' = <[path := written ++ [entry_line e]]> disk).
Proof.
  intros (Hf & Hp & Hh & Hl & Hc & Hfl) Hpar.
  assert (Hc' : chained None (_entries s ++ [e])).
  { apply chained_snoc; [exact Hc|]. rewrite Hpar, Hl.
    now destruct (last (_entries s)). }
  unfold _append_entry, _persist_entry; cbn [_persist _session_file _entries
    _flushed _header _leaf_id].
  rewrite Hp, Hf, has_assistant_snoc.
  destruct (_flushed s) eqn:Efl.
  - destruct Hfl as [Ha Hd]. rewrite Ha.
    cbn -[has_assistant last append_line].
    unfold created_inv; cbn -[has_assistant last append_line].
    rewrite has_assistant_snoc, Ha, last_snoc.
    unfold append_line. rewrite Hd. cbn [default].
    repeat split; auto.
    + rewrite lookup_insert_eq, map_app. reflexivity.
    + discriminate.
    + discriminate.
    + intros _. eexists; split; reflexivity.
  - destruct Hfl as [Ha ->]. rewrite Ha. cbn [orb].
    destruct (is_assistant_entry e) eqn:Ee;
      cbn -[has_assistant last _write_all].
    + unfold created_inv, _write_all; cbn -[has_assistant last].
      rewrite Hh, has_assistant_snoc, Ha, Ee, last_snoc. cbn [orb app].
      repeat split; auto; try discriminate.
      apply lookup_insert_eq.
    + unfold created_inv; cbn -[has_assistant last].
      rewrite has_assistant_snoc, Ha, Ee, last_snoc.
      repeat split; auto; try discriminate.
Qed.

Lemma apply_op_created path h disk0 s disk call :
  created_inv path h disk0 s disk ->
  created_inv path h disk0 (fst (apply_op (s, disk) call))
    (snd (apply_op (s, disk) call)).
Proof.
  intros Hinv.
  destruct (apply_op_cases s disk call) as [->|(e & Hpar & ->)]; [exact Hinv|].
  apply (append_entry_created path h disk0 s disk e Hinv Hpar).
Qed.

Lemma run_ops_created path h disk0 calls : forall s disk,
  created_inv path h disk0 s disk ->
  created_inv path h disk0 (fst (run_ops (s, disk) calls))
    (snd (run_ops (s, disk) calls)).
Proof.
  induction calls as [|call calls IH]; intros s disk Hinv; [exact Hinv|].
  unfold run_ops in *. cbn [foldl].
  pose proof (apply_op_created path h disk0 s disk call Hinv) as Hstep.
  destruct (apply_op (s, disk) call) as [s1 disk1]. now apply IH.
Qed.

Lemma create_created sid ts fts dir cwd prov mid tl disk0 :
  created_inv (dir +:+ "/" +:+ fts +:+ "_" +:+ sid +:+ ".jsonl")
    (mkHeader CURRENT_VERSION sid ts cwd) disk0
    (create sid ts fts dir cwd true prov mid tl) disk0.
Proof. unfold created_inv; cbn. repeat split. Qed.

(** ** Claims about the session file *)





(** ** Sessions resumed by [load] *)

Lemma load_lines_app l1 : forall l2 header acc,
  load_lines (l1 ++ l2) header acc
  = match load_lines l1 header acc with
    | Ok (header', acc') => load_lines l2 header' acc'
    | Raise e => Raise e
    end.
Proof.
  induction l1 as [|l l1 IH]; intros l2 header acc; [reflexivity|].
  destruct l as [| text | data]; cbn [app load_lines]; try apply IH.
  destruct data; try reflexivity.
  destruct (type_is _ "header").
  - destruct (header_validate fields); [apply IH|reflexivity].
  - destruct (entry_validator _) as [validate|]; [|apply IH].
    destruct (validate fields); [apply IH|reflexivity].
Qed.

Lemma load_resumed path disk s :
  load path disk = Ok s -> has_assistant (entries s) = true ->
  resumed_inv path s disk.
Proof.
  unfold load, resumed_inv, entries.
  destruct (disk !! path) as [lines|] eqn:E; [|discriminate].
  destruct (load_lines lines None []) as [[[h|] es]|e] eqn:L; try discriminate.
  intros [= <-] Ha. cbn. repeat split; auto. now exists lines, h.
Qed.

Lemma append_entry_resumed path s disk e :
  resumed_inv path s disk ->
  resumed_inv path (fst (_append_entry s e disk)) (snd (_append_entry s e disk)).
Proof.
  intros (Hf & Hp & Hfl & Ha & Hl & lines & h & Hd & Hload).
  unfold _append_entry, _persist_entry.
  cbn [_persist _session_file _entries _flushed].
  rewrite Hp, Hf, Hfl, has_assistant_snoc, Ha. cbn [orb negb fst snd].
  unfold resumed_inv. cbn -[has_assistant last append_line].
  rewrite has_assistant_snoc, Ha, last_snoc.
  repeat split; auto.
  exists (lines ++ [entry_line e]), h. unfold append_line. rewrite Hd.
  split; [apply lookup_insert_eq|].
  rewrite load_lines_app, Hload.
  apply (load_lines_entries [e] (Some h) (_entries s)).
Qed.

(** A session resumed from a file that holds an assistant message, and
    extended by any sequence of appends, loads back with the same
    entries and the same leaf id. *)
Lemma resumed_roundtrip path disk0 s0 calls :
  load path disk0 = Ok s0 ->
  has_assistant (entries s0) = true ->
  exists s',
    load path (snd (run_ops (s0, disk0) calls)) = Ok s'
    /\ entries s' = entries (fst (run_ops (s0, disk0) calls))
    /\ leaf_id s' = leaf_id (fst (run_ops (s0, disk0) calls)).
Proof.
  intros Hload Ha.
  assert (Hinv : resumed_inv path (fst (run_ops (s0, disk0) calls))
                   (snd (run_ops (s0, disk0) calls))).
  { pose proof (load_resumed path disk0 s0 Hload Ha) as H0.
    clear Hload Ha. revert s0 disk0 H0.
    induction calls as [|call calls IH]; intros s disk H0; [exact H0|].
    unfold run_ops in *. cbn [foldl].
    assert (H1 : resumed_inv path (fst (apply_op (s, disk) call))
                   (snd (apply_op (s, disk) call))).
    { destruct (apply_op_cases s disk call) as [->|(e & _ & ->)];
        [exact H0|now apply append_entry_resumed]. }
    destruct (apply_op (s, disk) call) as [s1 d1]. now apply IH. }
  destruct (run_ops (s0, disk0) calls) as [s disk]. cbn [fst snd] in *.
  destruct Hinv as (_ & _ & _ & _ & Hl & lines & h & Hd & Hlines).
  eexists. unfold load. rewrite Hd, Hlines.
  split; [reflexivity|]. split; [reflexivity|].
  unfold leaf_id. cbn [_leaf_id]. now rewrite Hl.
Qed.

(** ** The compacted view *)

Lemma first_compaction_skip l : forall l',
  Forall (fun e => is_compaction e = false) l ->
  first_compaction (l ++ l') = first_compaction l'.
Proof.
  induction l as [|e l IH]; intros l' Hall; [reflexivity|].
  inversion Hall as [|? ? He Hl]; subst.
  destruct e; try discriminate; simpl; now apply IH.
Qed.

Lemma messages_after_skip cid l : forall l',
  Forall (fun e => is_compaction e && String.eqb (entry_id e) cid = false) l ->
  messages_after cid false (l ++ l') = messages_after cid false l'.
Proof.
  induction l as [|e l IH]; intros l' Hall; [reflexivity|].
  inversion Hall as [|? ? He Hl]; subst.
  cbn [app messages_after]. rewrite He.
  destruct e; now apply IH.
Qed.

Lemma messages_after_past cid l :
  Forall (fun e => is_compaction e = false) l ->
  messages_after cid true l = omap message_of l.
Proof.
  induction l as [|e l IH]; intros Hall; [reflexivity|].
  inversion Hall as [|? ? He Hl]; subst.
  cbn [messages_after]. rewrite He. cbn [andb].
  destruct e; try discriminate; cbn; rewrite IH by assumption; reflexivity.
Qed.

Lemma most_recent_compaction_none es :
  most_recent_compaction es = None ->
  Forall (fun e => is_compaction e = false) es.
Proof.
  induction es as [|e es IH]; intros H; [constructor|].
  cbn in H. destruct (most_recent_compaction es); [discriminate|].
  constructor; [|now apply IH]. now destruct e.
Qed.

Lemma most_recent_compaction_some es : forall summary after,
  most_recent_compaction es = Some (summary, after) ->
  exists before b k t d,
    es = before ++ CompactionEntry b summary k t d :: after
    /\ Forall (fun e => is_compaction e = false) after.
Proof.
  induction es as [|e es IH]; intros summary after H; [discriminate|].
  cbn in H. destruct (most_recent_compaction es) as [[s a]|] eqn:E.
  - injection H as -> ->.
    destruct (IH _ _ eq_refl) as (before & b & k & t & d & -> & Hall).
    exists (e :: before), b, k, t, d. now split.
  - destruct e; try discriminate. injection H as -> ->.
    exists [], b, first_kept_entry_id, tokens_before, details.
    split; [reflexivity|]. now apply most_recent_compaction_none.
Qed.

(** The view computed by [messages] when the last compaction entry is
    known, provided no earlier compaction entry carries its id. *)
Lemma messages_split s before b summary k t d after :
  entries s = before ++ CompactionEntry b summary k t d :: after ->
  Forall (fun e => is_compaction e = false) after ->
  Forall (fun e => is_compaction e && String.eqb (entry_id e) (id b) = false)
    before ->
  messages s =
    UserMessage (UPlain "What did we do so far?")
    :: AssistantMsg (mkAssistantMessage [TextContent summary] None STOP)
    :: omap message_of after.
Proof.
  unfold entries, messages. intros -> Hafter Hbefore.
  rewrite rev_app_distr. cbn [rev]. rewrite <- app_assoc.
  rewrite first_compaction_skip by now apply Forall_rev.
  cbn [app first_compaction].
  rewrite messages_after_skip by assumption.
  cbn [messages_after is_compaction andb entry_id base].
  rewrite String.eqb_refl.
  now rewrite messages_after_past.
Qed.

(** C3. For every session whose entry ids are distinct (the invariant of
    the data model), the [messages] property is the compacted view of
    the specification. *)
Theorem messages_compacted_view s :
  NoDup (map entry_id (entries s)) ->
  messages s = compacted_view (entries s).
Proof.
  intros Hnd. unfold compacted_view.
  destruct (most_recent_compaction (entries s)) as [[summary after]|] eqn:E.
  - destruct (most_recent_compaction_some _ _ _ E)
      as (before & b & k & t & d & Hes & Hafter).
    apply (messages_split s before b summary k t d after Hes Hafter).
    rewrite Hes, map_app in Hnd. cbn [map] in Hnd.
    apply NoDup_app in Hnd as (_ & Hdisj & _).
    apply Forall_forall. intros e He.
    destruct (String.eqb_spec (entry_id e) (id b)) as [Heq|_];
      [|apply andb_false_r].
    exfalso. apply (Hdisj (entry_id e)).
    + apply list_elem_of_In, in_map, list_elem_of_In, He.
    + rewrite Heq. apply list_elem_of_here.
  - apply most_recent_compaction_none in E.
    unfold messages, entries in *.
    replace (first_compaction (rev (_entries s))) with (@None (string * string));
      [reflexivity|].
    symmetry. rewrite <- (app_nil_r (rev (_entries s))).
    rewrite first_compaction_skip by now apply Forall_rev.
    reflexivity.
Qed.

Lemma messages_compacted_view_witness :
  let s := fst (run_ops (sample_session, ∅)
                  (sample_calls
                   ++ [(sample_outside "eeeeeeee", OpMessage sample_user)])) in
  NoDup (map entry_id (entries s))
  /\ messages s = compacted_view (entries s)
  /\ compacted_view (entries s) =
       [UserMessage (UPlain "What did we do so far?");
        AssistantMsg (mkAssistantMessage [TextContent "summary"] None STOP);
        sample_user].
Proof.
  intros s.
  assert (Hnd : NoDup (map entry_id (entries s))).
  { apply (bool_decide_unpack _). vm_compute. exact I. }
  split; [exact Hnd|]. split; [|reflexivity].
  exact (messages_compacted_view s Hnd).
Defined.

(** ** Loading arbitrary files *)

Lemma kind_of_header_line h : kind_of (header_line h) = IsHeader h.
Proof.
  unfold header_line, header_dump, kind_of.
  change (type_is _ "header") with true. cbn iota.
  now rewrite header_dump_validate.
Qed.

Lemma kind_of_entry_line e : kind_of (entry_line e) = IsEntry e.
Proof.
  unfold entry_line.
  destruct (entry_dump_dispatch e) as (data & validate & Hd & Hh & Hv & He).
  rewrite Hd. unfold kind_of. now rewrite Hh, Hv, He.
Qed.

Lemma load_lines_kinds lines : forall header acc,
  load_lines lines header acc
  = match first_rejected lines with
    | Some error => Raise error
    | None => Ok (header_after header lines, acc ++ entries_in lines)
    end.
Proof.
  induction lines as [|l lines IH]; intros header acc.
  - cbn. now rewrite app_nil_r.
  - destruct l as [|text|j]; cbn [load_lines first_rejected header_after
                                  entries_in kind_of]; try apply IH.
    destruct j as [| | | | |data]; try reflexivity.
    destruct (type_is (get "type" data) "header").
    + destruct (header_validate data) as [h|]; [apply IH|reflexivity].
    + destruct (entry_validator (get "type" data)) as [validate|];
        [|apply IH].
      destruct (validate data) as [e|]; [|reflexivity].
      rewrite IH. destruct (first_rejected lines); [reflexivity|].
      now rewrite <- app_assoc.
Qed.

Lemma first_rejected_error lines error :
  first_rejected lines = Some error ->
  error = ValidationError \/ error = AttributeError.
Proof.
  induction lines as [|l lines IH]; [discriminate|].
  cbn [first_rejected].
  destruct (kind_of l) as [|h|e|x] eqn:K; try exact IH.
  intros [= <-]. unfold kind_of in K.
  destruct l as [|text|j]; try discriminate.
  destruct j as [| | | | |data]; try (injection K as <-; now right).
  destruct (type_is (get "type" data) "header").
  - destruct (header_validate data); [discriminate|].
    injection K as <-. now left.
  - destruct (entry_validator (get "type" data)) as [validate|];
      [|discriminate].
    destruct (validate data); [discriminate|]. injection K as <-. now left.
Qed.

Lemma header_after_none lines : forall prev,
  header_after prev lines = None
  <-> prev = None /\ forall l h, In l lines -> kind_of l <> IsHeader h.
Proof.
  induction lines as [|l lines IH]; intros prev; cbn [header_after].
  - split; [intros ->; split; [reflexivity|intros l h []]|now intros [-> _]].
  - destruct (kind_of l) as [|h0|e|x] eqn:K; rewrite IH; cbn [In].
    2: { split; [intros [Hp _]; discriminate|].
         intros [_ Hn]. exfalso. now apply (Hn l h0); [left|]. }
    all: split; intros [Hp Hn]; (split; [exact Hp|]);
      [intros l0 h [<-|Hin]; [rewrite K; discriminate|now apply Hn]
      |intros l0 h Hin; apply Hn; now right].
Qed.

(** C5, as the code has it.  For every file, [load] passes over the
    blank lines, the lines that are not JSON and the objects of a type
    it does not know, and rebuilds every entry from its [type].  It
    fails at the first line that is JSON but not an object, or whose
    header or entry does not validate, with the error of that line.
    It fails with the no-header error exactly when it fails on no line
    and no line of the file is a header.  A header line is accepted
    wherever it stands, also after entry lines, and the last header
    line is the one kept.  The lines that a session writes are taken as
    the header and the entries they were written from. *)
Theorem load_tolerant path disk lines :
  let file := <[path := lines]> disk in
  (forall error, first_rejected lines = Some error ->
                 load path file = Raise error)
  /\ (load path file = Raise ValueError_no_header
      <-> first_rejected lines = None
          /\ forall l h, In l lines -> kind_of l <> IsHeader h)
  /\ (forall h,
        first_rejected lines = None ->
        last_header_of lines = Some h ->
        exists s',
          load path file = Ok s'
          /\ _header s' = Some h
          /\ entries s' = entries_in lines
          /\ leaf_id s' = option_map entry_id (last (entries_in lines)))
  /\ (forall h, kind_of (header_line h) = IsHeader h)
  /\ (forall e, kind_of (entry_line e) = IsEntry e).
Proof.
  intros file. unfold load, file, last_header_of.
  rewrite lookup_insert_eq, load_lines_kinds. cbn [app].
  split; [|split; [|split; [|split]]].
  - now intros error ->.
  - destruct (first_rejected lines) as [error|] eqn:R.
    + split; [|now intros [? _]].
      intros [= ->]. now destruct (first_rejected_error _ _ R).
    + destruct (header_after None lines) as [h|] eqn:E.
      * split; [discriminate|]. intros [_ Hn].
        assert (header_after None lines = None) as Hc
          by (apply header_after_none; auto).
        congruence.
      * apply header_after_none in E as [_ Hn]. split; auto.
  - intros h -> ->. eexists. split; [reflexivity|]. cbn. auto.
  - apply kind_of_header_line.
  - apply kind_of_entry_line.
Qed.

(** C5 as stated fails: the first valid line of this file is an entry,
    not a header, a header line follows, and [load] accepts the file. *)
Lemma load_header_later_counterexample :
  let items := [IBlank; IEntry sample_entry; IHeader sample_header] in
  first_valid items = Some (IEntry sample_entry)
  /\ load sample_path (<[sample_path := map item_line items]> ∅)
     <> Raise ValueError_no_header
  /\ exists s',
      load sample_path (<[sample_path := map item_line items]> ∅) = Ok s'
      /\ entries s' = [sample_entry].
Proof.
  cbn zeta. split; [reflexivity|]. split.
  - vm_compute. discriminate.
  - eexists. split; reflexivity.
Qed.

(** Two more behaviours of [load] on lines that are valid JSON: an
    object of an unknown type is passed over, and a value that is not an
    object makes [data.get] fail. *)
Example load_skips_unknown_type :
  exists s',
    load sample_path
      (<[sample_path := [header_line sample_header;
                         JsonLine (JObj [("type", JStr "bookmark")]);
                         entry_line sample_entry]]> ∅) = Ok s'
    /\ entries s' = [sample_entry].
Proof. eexists. split; reflexivity. Qed.

Example load_fails_on_non_object :
  load sample_path
    (<[sample_path := [header_line sample_header; JsonLine (JNum 42)]]> ∅)
  = Raise AttributeError.
Proof. reflexivity. Qed.

(** ** The turn executor *)

(** The model on the scenarios of the mock provider, with the events the
    tests expect. *)
Example scenario_simple_text :
  events_of (trace (sample_run false quiet
                      (streaming [TextPart "Hello, world!"; StreamDone STOP])
                      None))
  = [TextStartEvent; TextDeltaEvent "Hello, world!";
     TextEndEvent "Hello, world!";
     TurnEndEvent 1
       (Some (mkAssistantMessage [TextContent "Hello, world!"] mock_usage STOP))
       [] STOP].
Proof. reflexivity. Qed.

Example scenario_default :
  events_of (trace (sample_run false quiet
     (streaming [ThinkPart "Let me think about this..." None;
                 TextPart "I'll help you with that.";
                 ToolCallStart "call-1" "read" 0; ToolCallDelta 0 "{}";
                 ToolCallStart "call-2" "bash" 1; ToolCallDelta 1 "{}";
                 StreamDone TOOL_USE]) None))
  = [ThinkingStartEvent; ThinkingDeltaEvent "Let me think about this...";
     ThinkingEndEvent "Let me think about this..." None;
     TextStartEvent; TextDeltaEvent "I'll help you with that.";
     TextEndEvent "I'll help you with that.";
     ToolStartEvent "call-1" "read"; ToolArgsDeltaEvent "call-1" "{}";
     ToolStartEvent "call-2" "bash"; ToolArgsDeltaEvent "call-2" "{}";
     ToolEndEvent "call-1" "read" [] "Read file";
     ToolEndEvent "call-2" "bash" [] "Run";
     ToolResultEvent "call-1" "read"
       (Some (mkToolResultMessage "call-1" "read" [PText "contents"] None false));
     ToolResultEvent "call-2" "bash"
       (Some (mkToolResultMessage "call-2" "bash" [PText "(no output)"]
                (Some "nothing") true));
     TurnEndEvent 1
       (Some (mkAssistantMessage
                [ThinkingContent "Let me think about this..." None;
                 TextContent "I'll help you with that.";
                 ToolCallContent (mkToolCall "call-1" "read" []);
                 ToolCallContent (mkToolCall "call-2" "bash" [])]
                mock_usage TOOL_USE))
       [mkToolResultMessage "call-1" "read" [PText "contents"] None false;
        mkToolResultMessage "call-2" "bash" [PText "(no output)"]
          (Some "nothing") true]
       TOOL_USE].
Proof. reflexivity. Qed.

Example scenario_tool_hang :
  events_of (trace (sample_run false
     (mkWorld false (fun _ => false)
        (fun i => if Nat.eqb i 2 then NothingDone else NextDone)
        (fun _ => false))
     (streaming [ToolCallStart "call-1" "read" 0; ToolCallDelta 0 "{}"]) None))
  = [ToolStartEvent "call-1" "read"; ToolArgsDeltaEvent "call-1" "{}";
     WarningEvent
       "Tool-call stream stalled for 60s; continuing with collected arguments.";
     ToolEndEvent "call-1" "read" [] "Read file";
     ToolResultEvent "call-1" "read"
       (Some (mkToolResultMessage "call-1" "read" [PText "contents"] None false));
     TurnEndEvent 1
       (Some (mkAssistantMessage
                [ToolCallContent (mkToolCall "call-1" "read" [])]
                mock_usage TOOL_USE))
       [mkToolResultMessage "call-1" "read" [PText "contents"] None false]
       TOOL_USE].
Proof. reflexivity. Qed.

Lemma events_of_app a b : events_of (a ++ b) = events_of a ++ events_of b.
Proof.
  induction a as [|x a IH]; [reflexivity|].
  destruct x; cbn; now rewrite IH.
Qed.

Lemma events_of_yields evs : events_of (yields evs) = evs.
Proof.
  unfold yields. induction evs as [|e evs IH]; cbn; [|rewrite IH]; reflexivity.
Qed.

Lemma stream_calls_app a b :
  stream_calls (a ++ b) = (stream_calls a + stream_calls b)%nat.
Proof.
  induction a as [|x a IH]; [reflexivity|].
  destruct x; cbn; now rewrite IH.
Qed.

(** C10. When the tool is known, its parameters are accepted and its
    execution returns a result with no text and no images, the
    tool-result message has the single text part "(no output)" and is an
    error exactly when the result is not a success. *)
Theorem no_output_tool_result tool_call (t : BaseTool) (p : Params t)
    (r : ToolResult) :
  params t (arguments tool_call) = Return p ->
  execute t p = Return r ->
  truthy (result r) = false ->
  images r = None \/ images r = Some [] ->
  tr_content (_execute_tool tool_call (Some t)) = [PText "(no output)"]
  /\ is_error (_execute_tool tool_call (Some t)) = negb (success r).
Proof.
  intros Hp He Hr Hi. unfold _execute_tool. rewrite Hp, He, Hr.
  destruct Hi as [-> | ->]; split; reflexivity.
Qed.

Lemma no_output_tool_result_witness :
  tr_content (_execute_tool (mkToolCall "call-2" "bash" []) (Some silent_tool))
  = [PText "(no output)"]
  /\ is_error (_execute_tool (mkToolCall "call-2" "bash" []) (Some silent_tool))
     = negb false.
Proof.
  apply (no_output_tool_result (mkToolCall "call-2" "bash" []) silent_tool tt
           (mkToolResult false None (Some []) (Some "nothing")));
    [reflexivity | reflexivity | reflexivity | right; reflexivity].
Defined.

Section TurnProperties.

Variable json_loads : string -> option json.
Variable get_tool : string -> option BaseTool.
Variable format_g : Q -> string.
Variable cancel_event : bool.
Variable w : World.
Variable idle : Q.

Let run := run_single_turn json_loads get_tool format_g cancel_event w idle.

(** C7. When the cancellation signal is already set at entry, the turn
    yields exactly the interrupted event and a turn-end with stop reason
    INTERRUPTED, no assistant message and no tool results, returns, and
    never calls the provider. *)
Theorem pre_cancelled provider turn retry_delays :
  cancel_event = true ->
  is_set_at_entry w = true ->
  events_of (trace (run provider turn retry_delays))
  = [InterruptedEvent "Interrupted by user";
     TurnEndEvent turn None [] INTERRUPTED]
  /\ stream_calls (trace (run provider turn retry_delays)) = 0%nat
  /\ raised (run provider turn retry_delays) = None.
Proof.
  intros Hc Hs. unfold run, run_single_turn. rewrite Hc, Hs. cbn.
  repeat split.
Qed.

(** The retry loop when every attempt from [k] on fails with an error
    the provider classifies as retryable. *)
Lemma open_stream_exhausted provider turn total errors delays : forall k,
  (forall j, (j <= k + length delays)%nat ->
             stream provider j = Throw (errors j)
             /\ should_retry_for_error provider (errors j) = true) ->
  events_of (fst (open_stream provider turn total k (map Some delays ++ [None])))
  = retry_events errors total k delays
    ++ [ErrorEvent (str (errors (k + length delays)%nat));
        TurnEndEvent turn None [] ERROR]
  /\ snd (open_stream provider turn total k (map Some delays ++ [None]))
     = GaveUp.
Proof.
  induction delays as [|d delays IH]; intros k Hall.
  - cbn [map app open_stream length].
    destruct (Hall k) as [-> ->]; [lia|].
    rewrite Nat.add_0_r. cbn. split; reflexivity.
  - cbn [map app open_stream length].
    destruct (Hall k) as [-> ->]; [lia|].
    specialize (IH (S k)).
    destruct (open_stream provider turn total (S k) (map Some delays ++ [None]))
      as [later opening].
    cbn [fst snd] in *. cbn [app events_of retry_events].
    destruct IH as [-> ->].
    + intros j Hj. apply Hall. cbn [length]. lia.
    + split; [|reflexivity].
      now replace (k + S (length delays))%nat with (S k + length delays)%nat
        by lia.
Qed.

(** C6. With the signal not set at entry and a delay schedule [delays]
    of length n: if every attempt fails with a retryable error, the turn
    yields the n retry events (attempts 1..n, total n, each with its
    delay and error text), then the error event of the last failure and
    a turn-end with stop reason ERROR and no assistant message; if the
    first failure is not retryable, it yields the error event and the
    turn-end with no retry event before them; and without a schedule of
    its own the turn uses the delays 2, 4 and 8. *)
Theorem retry_schedule provider turn delays errors :
  cancel_event && is_set_at_entry w = false ->
  ((forall k, (k <= length delays)%nat ->
              stream provider k = Throw (errors k)
              /\ should_retry_for_error provider (errors k) = true) ->
   events_of (trace (run provider turn (Some delays)))
   = retry_events errors (Z.of_nat (length delays)) 0 delays
     ++ [ErrorEvent (str (errors (length delays)));
         TurnEndEvent turn None [] ERROR]
   /\ raised (run provider turn (Some delays)) = None)
  /\ (forall e, stream provider 0%nat = Throw e ->
                should_retry_for_error provider e = false ->
      events_of (trace (run provider turn (Some delays)))
      = [ErrorEvent (str e); TurnEndEvent turn None [] ERROR])
  /\ run provider turn None = run provider turn (Some [2; 4; 8]).
Proof.
  intros Hc. unfold run, run_single_turn. rewrite Hc. repeat split.
  - pose proof (open_stream_exhausted provider turn
                  (Z.of_nat (length delays)) errors delays 0%nat H) as [He Hs].
    destruct (open_stream _ _ _ _ _) as [opening o].
    cbn [fst snd] in *. subst o. exact He.
  - pose proof (open_stream_exhausted provider turn
                  (Z.of_nat (length delays)) errors delays 0%nat H) as [He Hs].
    destruct (open_stream _ _ _ _ _) as [opening o].
    cbn [fst snd] in *. subst o. reflexivity.
  - intros e He Hr.
    destruct delays as [|d ds]; cbn [map app open_stream];
      rewrite He, Hr; reflexivity.
Qed.

End TurnProperties.

Lemma pre_cancelled_witness :
  events_of (trace (sample_run true cancelled_at_entry always_fails None))
  = [InterruptedEvent "Interrupted by user";
     TurnEndEvent 1 None [] INTERRUPTED]
  /\ stream_calls (trace (sample_run true cancelled_at_entry always_fails None))
     = 0%nat
  /\ raised (sample_run true cancelled_at_entry always_fails None) = None.
Proof.
  apply (pre_cancelled sample_json_loads sample_get_tool sample_format_g
           true cancelled_at_entry (60 # 1) always_fails 1 None);
    reflexivity.
Defined.

Lemma retry_schedule_witness :
  (events_of (trace (sample_run false quiet always_fails (Some [0; 0; 0])))
   = [RetryEvent 1 3 0 "Always fails"; RetryEvent 2 3 0 "Always fails";
      RetryEvent 3 3 0 "Always fails"; ErrorEvent "Always fails";
      TurnEndEvent 1 None [] ERROR]
   /\ raised (sample_run false quiet always_fails (Some [0; 0; 0])) = None)
  /\ events_of (trace (sample_run false quiet non_retryable (Some [0; 0; 0])))
     = [ErrorEvent "Invalid input"; TurnEndEvent 1 None [] ERROR]
  /\ sample_run false quiet always_fails None
     = sample_run false quiet always_fails (Some [2; 4; 8]).
Proof.
  split; [|split].
  - apply (proj1 (retry_schedule sample_json_loads sample_get_tool
                    sample_format_g false quiet (60 # 1) always_fails 1
                    [0; 0; 0] (fun _ => mkException OtherError "Always fails")
                    eq_refl)).
    intros k _. split; reflexivity.
  - apply (proj1 (proj2 (retry_schedule sample_json_loads sample_get_tool
                           sample_format_g false quiet (60 # 1) non_retryable 1
                           [0; 0; 0]
                           (fun _ => mkException ValueError "Invalid input")
                           eq_refl))
             (mkException ValueError "Invalid input"));
      reflexivity.
  - apply (proj2 (proj2 (retry_schedule sample_json_loads sample_get_tool
                           sample_format_g false quiet (60 # 1) always_fails 1
                           [0; 0; 0]
                           (fun _ => mkException OtherError "Always fails")
                           eq_refl))).
Defined.

(** ** Blocks of events *)

Lemma well_nested_app evs1 : forall b evs2,
  well_nested b (evs1 ++ evs2)
  = match well_nested b evs1 with
    | Some b1 => well_nested b1 evs2
    | None => None
    end.
Proof.
  induction evs1 as [|e evs1 IH]; intros b evs2; [reflexivity|].
  cbn. destruct (track b e); [apply IH|reflexivity].
Qed.

Lemma track_neutral b e : neutral e = true -> track b e = Some b.
Proof. destruct e; cbn; congruence. Qed.

Lemma well_nested_neutral evs : forall b,
  forallb neutral evs = true -> well_nested b evs = Some b.
Proof.
  induction evs as [|e evs IH]; intros b H; [reflexivity|].
  cbn in H. apply andb_true_iff in H as [He Hr].
  cbn. rewrite (track_neutral b e He). now apply IH.
Qed.

Lemma remove_first_length id l : forall rest,
  remove_first id l = Some rest -> length l = S (length rest).
Proof.
  induction l as [|x l IH]; intros rest H; [discriminate|].
  cbn in H. destruct (String.eqb x id).
  - now injection H as ->.
  - destruct (remove_first id l) as [r|]; [|discriminate].
    injection H as <-. cbn. f_equal. now apply IH.
Qed.

(** Starts and ends are balanced up to the blocks that are open. *)
Lemma well_nested_counts evs : forall b b',
  well_nested b evs = Some b' ->
  (count is_thinking_start evs + Nat.b2n (thinking_open b)
   = count is_thinking_end evs + Nat.b2n (thinking_open b'))%nat
  /\ (count is_text_start evs + Nat.b2n (text_open b)
      = count is_text_end evs + Nat.b2n (text_open b'))%nat
  /\ (count is_tool_start evs + length (tools_open b)
      = count is_tool_end evs + length (tools_open b'))%nat.
Proof.
  induction evs as [|e evs IH]; intros b b' H.
  - injection H as ->. auto.
  - cbn [well_nested] in H. destruct (track b e) as [b1|] eqn:E; [|discriminate].
    destruct (IH _ _ H) as (H1 & H2 & H3). clear IH H.
    destruct e; cbn in E;
      repeat match type of E with
             | (if ?c then _ else _) = _ => destruct c eqn:?; try discriminate
             | match ?c with _ => _ end = _ => destruct c eqn:?; try discriminate
             end;
      injection E as <-; cbn [count is_thinking_start is_thinking_end
        is_text_start is_text_end is_tool_start is_tool_end thinking_open
        text_open tools_open Nat.b2n] in *;
      rewrite ?length_app in *; cbn [length] in *;
      try (match goal with
           | H : remove_first _ _ = Some _ |- _ =>
               apply remove_first_length in H
           end);
      repeat match goal with
             | H : ?x = true |- _ => rewrite H in *
             | H : ?x = false |- _ => rewrite H in *
             end; cbn [Nat.b2n] in *;
      repeat split; lia.
Qed.

(** ** The state machine keeps the blocks well nested *)

Lemma existsb_snoc_self id l :
  existsb (String.eqb id) (l ++ [id]) = true.
Proof.
  rewrite existsb_app. cbn. rewrite String.eqb_refl. apply orb_true_r.
Qed.

Lemma append_nonempty s1 s2 :
  String.eqb s2 "" = false -> String.eqb (s1 +:+ s2) "" = false.
Proof.
  intros H. destruct s1; [exact H|reflexivity].
Qed.

Lemma concat_snoc_nonempty buf t :
  String.eqb t "" = false ->
  String.eqb (String.concat "" (buf ++ [t])) "" = false.
Proof.
  intros Ht. induction buf as [|h buf IH]; [exact Ht|].
  cbn [app String.concat].
  destruct (buf ++ [t]) as [|x r] eqn:E.
  - destruct buf; discriminate.
  - apply append_nonempty. exact IH.
Qed.

Ltac no_stray_tool_call H :=
  try (exfalso; assert (Some THINK = Some TOOL_CALL) by (apply H; discriminate);
       discriminate);
  try (exfalso; assert (Some TEXT = Some TOOL_CALL) by (apply H; discriminate);
       discriminate);
  try (exfalso; assert (@None StreamState = Some TOOL_CALL)
         by (apply H; discriminate);
       discriminate).

Lemma finalize_settles include_empty st b :
  tracks st b ->
  exists b',
    well_nested b (snd (_finalize_current_state include_empty st)) = Some b'
    /\ settled (fst (_finalize_current_state include_empty st)) b'
    /\ (include_empty = true \/ filled st -> closed b')
    /\ interrupted (fst (_finalize_current_state include_empty st))
       = interrupted st
    /\ stop_reason (fst (_finalize_current_state include_empty st))
       = stop_reason st.
Proof.
  destruct st as [ct tb ts xb pend cur cc tc cs sr intr].
  destruct b as [ko xo to].
  unfold tracks, settled, closed, filled, _finalize_current_state.
  cbn [current_state current_tool_call pending_tool_calls think_buffer
       text_buffer think_signature thinking_open text_open tools_open content].
  intros (-> & -> & -> & Hcur).
  destruct cs as [[| |]|]; destruct cur as [c|]; no_stray_tool_call Hcur;
    cbn [state_is].
  all: destruct include_empty; cbn [orb];
    try destruct (String.eqb (String.concat "" tb) "") eqn:Etb;
    try destruct (String.eqb (String.concat "" xb) "") eqn:Exb;
    cbn [negb];
    (eexists; split; [reflexivity|]);
    cbn; rewrite ?app_nil_r, ?map_app;
    repeat split; auto;
    try (intros [H|H]; congruence);
    try match goal with H : _ \/ _ |- _ => destruct H; congruence end.
Qed.

Lemma on_part_tracks st b p :
  tracks st b ->
  exists b',
    well_nested b (snd (on_part st p)) = Some b'
    /\ tracks (fst (on_part st p)) b'
    /\ interrupted (fst (on_part st p)) = interrupted st
    /\ (nonempty_part p = true -> filled st -> filled (fst (on_part st p))).
Proof.
  destruct st as [ct tb ts xb pend cur cc tc cs sr intr].
  destruct b as [ko xo to].
  unfold tracks, filled.
  cbn [current_state current_tool_call pending_tool_calls think_buffer
       text_buffer think_signature thinking_open text_open tools_open content].
  intros (-> & -> & -> & Hcur).
  destruct p as [t sig|t|i n ix|ix delta|reason|err];
    destruct cs as [[| |]|]; destruct cur as [c|]; no_stray_tool_call Hcur;
    cbn -[String.concat String.eqb Z.add Z.modulo Z.ltb Z.eqb _count_tokens];
    try destruct (truthy sig);
    try destruct (_ && _);
    cbn -[String.concat String.eqb Z.add Z.modulo Z.ltb Z.eqb _count_tokens];
    rewrite ?existsb_snoc_self;
    (eexists; split; [reflexivity|]);
    cbn -[String.concat String.eqb];
    rewrite ?app_nil_r, ?map_app;
    repeat split; auto; try discriminate;
    try (intros Ht _; apply concat_snoc_nonempty;
         now apply negb_true_iff in Ht);
    try (intros Hn; now contradiction Hn).
Qed.

Lemma tracks_flags st b r x :
  tracks st b -> tracks (set_stop_reason r (set_interrupted x st)) b.
Proof. destruct st; exact (fun H => H). Qed.

Lemma filled_flags st r x :
  filled st -> filled (set_stop_reason r (set_interrupted x st)).
Proof. destruct st; exact (fun H => H). Qed.

Lemma settled_promote st b : settled st b -> settled (promote_stop_reason st) b.
Proof.
  unfold promote_stop_reason.
  destruct (pending_tool_calls st), (stop_reason st); auto;
    destruct st; exact (fun H => H).
Qed.

Lemma interrupted_promote st :
  interrupted (promote_stop_reason st) = interrupted st.
Proof.
  unfold promote_stop_reason.
  destruct (pending_tool_calls st), (stop_reason st); auto; now destruct st.
Qed.

Section NestedRuns.

Variable json_loads : string -> option json.
Variable get_tool : string -> option BaseTool.
Variable format_g : Q -> string.
Variable cancel_event : bool.
Variable w : World.
Variable idle : Q.

Lemma fetch_undisturbed i st :
  undisturbed w -> fetch cancel_event w idle i st = Deliver.
Proof.
  intros [Hs Hw]. unfold fetch. rewrite Hs, Hw, andb_false_r.
  destruct cancel_event, (chunk_timeout idle st); reflexivity.
Qed.

Lemma consume_cons p ps i st :
  fetch cancel_event w idle i st = Deliver ->
  consume format_g cancel_event w idle (p :: ps) i st
  = (fst (consume format_g cancel_event w idle ps (S i) (fst (on_part st p))),
     snd (on_part st p)
     ++ snd (consume format_g cancel_event w idle ps (S i)
               (fst (on_part st p)))).
Proof.
  intros F. unfold consume. cbn [chunk_loop]. rewrite F.
  destruct (on_part st p) as [st1 ev1]. cbn [fst snd].
  destruct (chunk_loop format_g cancel_event w idle ps (S i) st1)
    as [st2 later].
  destruct (if interrupted st2 then _ else _) as [st3 cleanup].
  cbn [fst snd]. now rewrite app_assoc.
Qed.

(** The events of the chunk loop and of the cleanup are well nested, and
    leave open only the queued tool calls and, possibly, the thinking or
    text block that the cleanup dropped because it was empty. *)
Lemma consume_nested ps : forall i st b,
  tracks st b ->
  interrupted st = false ->
  exists b',
    well_nested b (snd (consume format_g cancel_event w idle ps i st))
    = Some b'
    /\ settled (fst (consume format_g cancel_event w idle ps i st)) b'
    /\ (undisturbed w \/ (forallb nonempty_part ps = true /\ filled st) ->
        closed b').
Proof.
  assert (Hcut : forall ps i st b,
    tracks st b -> interrupted st = false ->
    fetch cancel_event w idle i st <> Deliver ->
    exists b',
      well_nested b (snd (consume format_g cancel_event w idle ps i st))
      = Some b'
      /\ settled (fst (consume format_g cancel_event w idle ps i st)) b'
      /\ (undisturbed w \/ (forallb nonempty_part ps = true /\ filled st) ->
          closed b')).
  { intros ps0 i st b Ht Hi F. unfold consume.
    assert (Hchunk : chunk_loop format_g cancel_event w idle ps0 i st
      = match fetch cancel_event w idle i st with
        | Interrupt =>
            (set_stop_reason INTERRUPTED (set_interrupted true st), [])
        | TimedOut t =>
            let '(st, events) := _finalize_current_state false st in
            (promote_stop_reason st, stall_warning format_g t :: events)
        | Deliver => chunk_loop format_g cancel_event w idle ps0 i st
        end).
    { destruct ps0; cbn [chunk_loop];
        destruct (fetch cancel_event w idle i st); reflexivity. }
    rewrite Hchunk. clear Hchunk.
    destruct (fetch cancel_event w idle i st) as [|t|] eqn:E;
      [| |contradiction].
    - replace (interrupted (set_stop_reason INTERRUPTED
                              (set_interrupted true st))) with true
        by now destruct st.
      destruct (finalize_settles false _ b
                  (tracks_flags st b INTERRUPTED true Ht))
        as (b' & Hn & Hs & Hc & _).
      destruct (_finalize_current_state false _) as [st1 ev1].
      cbn [fst snd app] in *. exists b'.
      split; [exact Hn|]. split; [exact Hs|].
      intros [Hu|[_ Hf]].
      + rewrite (fetch_undisturbed i st Hu) in E. discriminate.
      + apply Hc. right. now apply filled_flags.
    - destruct (finalize_settles false st b Ht) as (b' & Hn & Hs & Hc & Hi' & _).
      destruct (_finalize_current_state false st) as [st1 ev1].
      cbn [fst snd] in *.
      rewrite interrupted_promote, Hi', Hi. cbn [fst snd].
      rewrite app_nil_r. exists b'. cbn [well_nested stall_warning track].
      split; [exact Hn|]. split; [now apply settled_promote|].
      intros [Hu|[_ Hf]].
      + rewrite (fetch_undisturbed i st Hu) in E. discriminate.
      + apply Hc. now right. }
  induction ps as [|p ps IH]; intros i st b Ht Hi.
  - destruct (fetch cancel_event w idle i st) eqn:F;
      try (apply Hcut; auto; rewrite F; discriminate).
    unfold consume. cbn [chunk_loop]. rewrite F.
    destruct (finalize_settles true st b Ht) as (b' & Hn & Hs & Hc & Hi' & _).
    destruct (_finalize_current_state true st) as [st1 ev1].
    cbn [fst snd] in *.
    rewrite interrupted_promote, Hi', Hi. cbn [fst snd].
    rewrite app_nil_r. exists b'.
    split; [exact Hn|]. split; [now apply settled_promote|].
    intros _. apply Hc. now left.
  - destruct (fetch cancel_event w idle i st) eqn:F;
      try (apply Hcut; auto; rewrite F; discriminate).
    rewrite (consume_cons p ps i st F). cbn [fst snd].
    destruct (on_part_tracks st b p Ht) as (b1 & Hn1 & Ht1 & Hi1 & Hf1).
    destruct (IH (S i) (fst (on_part st p)) b1 Ht1) as (b' & Hn & Hs & Hc).
    { now rewrite Hi1. }
    exists b'. rewrite well_nested_app, Hn1. split; [exact Hn|].
    split; [exact Hs|].
    intros [Hu|[Hall Hf]]; apply Hc; [now left|right].
    cbn [forallb] in Hall. apply andb_true_iff in Hall as [Hp Hps].
    split; [exact Hps|]. now apply Hf1.
Qed.

Lemma finalize_data_id d p :
  _finalize_tool_call_data json_loads get_tool d = Return p ->
  tc_id (tool_call p) = d_id d.
Proof.
  unfold _finalize_tool_call_data.
  destruct (match json_loads (d_arguments d) with
            | Some j => j
            | None => JObj []
            end); try discriminate.
  cbn [tc_name].
  destruct (get_tool (d_name d)) as [t|].
  - destruct (params t fields) as [q|e].
    + destruct (format_call t q) as [s|e].
      * now intros [= <-].
      * destruct (handled e); [now intros [= <-]|discriminate].
    + destruct (handled e); [now intros [= <-]|discriminate].
  - now intros [= <-].
Qed.

(** The tool-end events close the queued tool calls, in order. *)
Lemma finalize_tools_nested pending : forall b,
  tools_open b = map d_id pending ->
  exists b',
    well_nested b (snd (fst (finalize_tools json_loads get_tool pending)))
    = Some b'
    /\ thinking_open b' = thinking_open b
    /\ text_open b' = text_open b
    /\ (snd (finalize_tools json_loads get_tool pending) = None ->
        tools_open b' = []).
Proof.
  induction pending as [|d pending IH]; intros b Hb.
  - exists b. cbn. auto.
  - cbn [finalize_tools].
    destruct (_finalize_tool_call_data json_loads get_tool d) as [p|e] eqn:E.
    + apply finalize_data_id in E.
      destruct (IH (mkBlocks (thinking_open b) (text_open b)
                      (map d_id pending)) eq_refl)
        as (b' & Hn & Hk & Hx & Ht).
      destruct (finalize_tools json_loads get_tool pending)
        as [[fin evs] exc].
      cbn [fst snd well_nested track] in *.
      rewrite Hb, E. cbn [map remove_first]. rewrite String.eqb_refl.
      exists b'. auto.
    + exists b. cbn. repeat split; auto. discriminate.
Qed.

Lemma execute_tools_neutral fin : forall i,
  forallb neutral (events_of (snd (execute_tools cancel_event w fin i))) = true.
Proof.
  induction fin as [|p fin IH]; intros i; [reflexivity|].
  cbn [execute_tools]. specialize (IH (S i)).
  destruct (execute_tools cancel_event w fin (S i)) as [results later].
  destruct (cancel_event && is_set_at_tool w i); cbn in *; exact IH.
Qed.

Lemma open_stream_neutral provider turn total delays : forall k,
  forallb neutral (events_of (fst (open_stream provider turn total k delays)))
  = true.
Proof.
  induction delays as [|d delays IH]; intros k; [reflexivity|].
  cbn [open_stream]. destruct (stream provider k) as [s|e]; [reflexivity|].
  destruct (should_retry_for_error provider e), d as [d|]; try reflexivity.
  specialize (IH (S k)).
  destruct (open_stream provider turn total (S k) delays) as [later o].
  exact IH.
Qed.

Lemma open_stream_opened provider turn total delays : forall k s,
  snd (open_stream provider turn total k delays) = Opened s ->
  exists j, stream provider j = Return s.
Proof.
  induction delays as [|d delays IH]; intros k s; [discriminate|].
  cbn [open_stream]. destruct (stream provider k) as [s'|e] eqn:E.
  - intros [= <-]. now exists k.
  - destruct (should_retry_for_error provider e), d as [d|]; try discriminate.
    specialize (IH (S k) s).
    destruct (open_stream provider turn total (S k) delays) as [later o].
    exact IH.
Qed.

Lemma drive_stream_nested turn s :
  exists b,
    well_nested no_blocks
      (events_of (trace (drive_stream json_loads get_tool format_g
                           cancel_event w idle turn s))) = Some b
    /\ (raised (drive_stream json_loads get_tool format_g cancel_event w idle
                  turn s) = None -> tools_open b = [])
    /\ (undisturbed w \/ forallb nonempty_part (parts s) = true -> closed b).
Proof.
  unfold drive_stream.
  destruct (consume_nested (parts s) 0%nat initial_state no_blocks)
    as (b1 & Hn1 & (_ & _ & Hs1) & Hc1).
  { repeat split. intros H; now contradiction H. }
  { reflexivity. }
  destruct (consume format_g cancel_event w idle (parts s) 0 initial_state)
    as [st evs1].
  cbn [fst snd] in *.
  destruct (finalize_tools_nested (pending_tool_calls st) b1 Hs1)
    as (b2 & Hn2 & Hk & Hx & Ht).
  destruct (finalize_tools json_loads get_tool (pending_tool_calls st))
    as [[fin tool_ends] exc].
  cbn [fst snd] in *.
  assert (Hclosed : undisturbed w \/ forallb nonempty_part (parts s) = true ->
                    closed b2).
  { intros H. unfold closed. rewrite Hk, Hx. apply Hc1.
    destruct H as [H|H]; [now left|right]. split; [exact H|exact I]. }
  destruct exc as [e|].
  - exists b2. cbn [trace raised].
    rewrite events_of_yields, well_nested_app, Hn1.
    split; [exact Hn2|]. split; [discriminate|exact Hclosed].
  - pose proof (execute_tools_neutral fin 0%nat) as Hexec.
    destruct (execute_tools cancel_event w fin 0) as [results effects].
    cbn [fst snd] in *. exists b2. cbn [trace raised].
    rewrite !events_of_app, events_of_yields, !well_nested_app, Hn1, Hn2.
    split; [|split; [intros _; now apply Ht|exact Hclosed]].
    rewrite well_nested_app, (well_nested_neutral _ b2 Hexec).
    destruct (interrupted st); reflexivity.
Qed.

(** C8, as the code has it.  In every run of the turn executor, whatever
    the stream parts, the cancellation and the idle timeout: the events
    are well nested (no start of a block that is open, no delta and no
    end outside a block of its kind and, for tools, of its call id), so
    that the starts of each kind are the ends plus the blocks left open;
    when the run returns, no tool block is left open (as many tool-end
    as tool-start events); and no thinking or text block is left open
    (as many end as start events) when the chunk loop is not cut by
    cancellation or idle timeout, or when no thinking or text part of
    the stream is empty.  A thinking or text block that is empty when
    cancellation or the idle timeout cuts the loop gets no end event. *)
Theorem events_well_nested provider turn retry_delays :
  let r := run_single_turn json_loads get_tool format_g cancel_event w idle
             provider turn retry_delays in
  let evs := events_of (trace r) in
  exists b,
    well_nested no_blocks evs = Some b
    /\ count is_thinking_start evs
       = (count is_thinking_end evs + Nat.b2n (thinking_open b))%nat
    /\ count is_text_start evs
       = (count is_text_end evs + Nat.b2n (text_open b))%nat
    /\ count is_tool_start evs
       = (count is_tool_end evs + length (tools_open b))%nat
    /\ (raised r = None -> tools_open b = [])
    /\ (undisturbed w
        \/ (forall k s, stream provider k = Return s ->
                        forallb nonempty_part (parts s) = true) ->
        thinking_open b = false /\ text_open b = false).
Proof.
  intros r evs.
  assert (H : exists b,
    well_nested no_blocks evs = Some b
    /\ (raised r = None -> tools_open b = [])
    /\ (undisturbed w
        \/ (forall k s, stream provider k = Return s ->
                        forallb nonempty_part (parts s) = true) ->
        closed b)).
  { subst evs r. unfold run_single_turn.
    destruct (cancel_event && is_set_at_entry w).
    { exists no_blocks. repeat split. }
    set (delays := match retry_delays with
                   | Some d => d
                   | None => default_retry_delays
                   end).
    pose proof (open_stream_neutral provider turn
                  (Z.of_nat (length delays)) (map Some delays ++ [None]) 0%nat)
      as Hopen.
    pose proof (open_stream_opened provider turn
                  (Z.of_nat (length delays)) (map Some delays ++ [None]) 0%nat)
      as Hstream.
    destruct (open_stream provider turn (Z.of_nat (length delays)) 0
                (map Some delays ++ [None])) as [opening [s| |]].
    - cbn [fst snd trace raised] in *.
      destruct (Hstream s eq_refl) as [j Hj].
      destruct (drive_stream_nested turn s) as (b & Hn & Ht & Hc).
      exists b. rewrite events_of_app, well_nested_app.
      rewrite (well_nested_neutral _ no_blocks Hopen).
      split; [exact Hn|]. split; [exact Ht|].
      intros [Hu|Hall]; apply Hc; [now left|right]. exact (Hall j s Hj).
    - exists no_blocks. cbn [fst snd trace raised] in *.
      rewrite (well_nested_neutral _ no_blocks Hopen). repeat split.
    - exists no_blocks. cbn [fst snd trace raised] in *.
      rewrite (well_nested_neutral _ no_blocks Hopen).
      split; [reflexivity|]. split; [discriminate|]. repeat split. }
  destruct H as (b & Hn & Ht & Hc). exists b.
  destruct (well_nested_counts evs no_blocks b Hn) as (H1 & H2 & H3).
  cbn [no_blocks thinking_open text_open tools_open Nat.b2n length] in *.
  repeat split; try lia; auto; now apply Hc.
Qed.

End NestedRuns.

(** C8 as stated fails: the stream opens a text block with an empty
    delta, cancellation fires during the next wait, and the cleanup
    drops the empty block without a text-end event.  And a run that an
    exception ends while the queued tool calls are finalized (here the
    format hook of the tool raises one that is not caught) has yielded
    the tool-start of a call but not its tool-end. *)
Lemma text_end_missing_counterexample :
  let evs :=
    events_of (trace (sample_run true (cancelled_in_iteration 1)
                        (streaming [TextPart ""; TextPart "never read"])
                        None)) in
  let crashed :=
    sample_run false quiet
      (streaming [ToolCallStart "call-1" "crash" 0; ToolCallDelta 0 "{}";
                  StreamDone TOOL_USE]) None in
  (evs = [TextStartEvent; TextDeltaEvent "";
          InterruptedEvent "Interrupted by user";
          TurnEndEvent 1 (Some (mkAssistantMessage [] mock_usage INTERRUPTED))
            [] INTERRUPTED]
   /\ count is_text_start evs = 1%nat
   /\ count is_text_end evs = 0%nat)
  /\ (events_of (trace crashed)
      = [ToolStartEvent "call-1" "crash"; ToolArgsDeltaEvent "call-1" "{}"]
      /\ raised crashed = Some (mkException OtherError "format hook failed")).
Proof. cbn zeta. repeat split. Qed.

(** ** A stream error does not end the chunk loop *)

Lemma finalize_flags include_empty st :
  stop_reason (fst (_finalize_current_state include_empty st)) = stop_reason st
  /\ interrupted (fst (_finalize_current_state include_empty st))
     = interrupted st.
Proof.
  destruct st as [ct tb ts xb pend cur cc tc cs sr intr].
  unfold _finalize_current_state.
  cbn [current_state current_tool_call think_buffer text_buffer].
  destruct cs as [[| |]|]; destruct cur; destruct include_empty; cbn [orb];
    try destruct (negb _); split; reflexivity.
Qed.

Lemma on_part_interrupted st p :
  interrupted (fst (on_part st p)) = interrupted st.
Proof.
  destruct st as [ct tb ts xb pend cur cc tc cs sr intr].
  destruct p as [t sig|t|i n ix|ix delta|reason|err];
    destruct cs as [[| |]|]; destruct cur as [c|];
    cbn -[String.concat String.eqb Z.add Z.modulo Z.ltb Z.eqb _count_tokens];
    try destruct (truthy sig); reflexivity.
Qed.

Lemma promote_keeps_error st :
  stop_reason st = ERROR -> promote_stop_reason st = st.
Proof.
  unfold promote_stop_reason. intros ->. now destruct (pending_tool_calls st).
Qed.

Section StreamErrors.

Variable json_loads : string -> option json.
Variable get_tool : string -> option BaseTool.
Variable format_g : Q -> string.
Variable cancel_event : bool.
Variable w : World.
Variable idle : Q.

Let loop := chunk_loop format_g cancel_event w idle.

Lemma fetch_interrupt i st :
  cancel_event = true ->
  is_set_at_iteration w i = true \/ waited w i = CancelDone ->
  fetch cancel_event w idle i st = Interrupt.
Proof.
  intros Hc H. unfold fetch. rewrite Hc. cbn [andb].
  destruct (is_set_at_iteration w i); [reflexivity|].
  destruct H as [H|H]; [discriminate|]. rewrite H.
  now destruct (chunk_timeout idle st).
Qed.

Lemma fetch_no_interrupt i st :
  cancel_event = false
  \/ (is_set_at_iteration w i = false /\ waited w i <> CancelDone) ->
  fetch cancel_event w idle i st <> Interrupt.
Proof.
  unfold fetch. intros [Hc | [Hs Hw]].
  - rewrite Hc. cbn [andb].
    destruct (chunk_timeout idle st), (waited w i); discriminate.
  - rewrite Hs, andb_false_r.
    destruct cancel_event, (chunk_timeout idle st), (waited w i);
      try discriminate; now contradiction Hw.
Qed.

Lemma chunk_loop_error_step err rest i st :
  fetch cancel_event w idle i st = Deliver ->
  loop (StreamError err :: rest) i st
  = (fst (loop rest (S i) (set_stop_reason ERROR st)),
     ErrorEvent err :: snd (loop rest (S i) (set_stop_reason ERROR st))).
Proof.
  intros F. unfold loop. cbn [chunk_loop on_part]. rewrite F.
  now destruct (chunk_loop _ _ _ _ rest (S i) (set_stop_reason ERROR st)).
Qed.

(** The chunk loop over a stream that ends with a stream-error part,
    when the parts up to that one reach it: what the iteration after
    the error part makes of the stop reason. *)
Lemma chunk_loop_error_then err pre : forall i st,
  delivered cancel_event w idle (pre ++ [StreamError err]) i st
    (S (length pre)) ->
  In (ErrorEvent err) (snd (loop (pre ++ [StreamError err]) i st))
  /\ (cancel_event = false
      \/ (is_set_at_iteration w (i + S (length pre)) = false
          /\ waited w (i + S (length pre)) <> CancelDone) ->
      stop_reason (fst (loop (pre ++ [StreamError err]) i st)) = ERROR
      /\ interrupted (fst (loop (pre ++ [StreamError err]) i st))
         = interrupted st)
  /\ (cancel_event = true ->
      is_set_at_iteration w (i + S (length pre)) = true
      \/ waited w (i + S (length pre)) = CancelDone ->
      stop_reason (fst (loop (pre ++ [StreamError err]) i st)) = INTERRUPTED
      /\ interrupted (fst (loop (pre ++ [StreamError err]) i st)) = true).
Proof.
  unfold loop. induction pre as [|p pre IH]; intros i st Hd.
  - destruct Hd as [Hf _].
    cbn [app chunk_loop on_part length]. rewrite Hf.
    replace (i + 1)%nat with (S i) by lia.
    destruct (fetch cancel_event w idle (S i) (set_stop_reason ERROR st))
      as [|t|] eqn:F.
    + cbn [fst snd]. split; [now left|]. split.
      * intros H.
        now apply fetch_no_interrupt with (st := set_stop_reason ERROR st)
          in H.
      * intros _ _. now destruct st.
    + destruct (finalize_flags false (set_stop_reason ERROR st)) as [Hsr Hi].
      destruct (_finalize_current_state false (set_stop_reason ERROR st))
        as [st1 ev1].
      cbn [fst snd] in *.
      assert (Hs1 : stop_reason st1 = ERROR) by (rewrite Hsr; now destruct st).
      rewrite (promote_keeps_error st1 Hs1).
      split; [now left|]. split.
      * intros _. split; [exact Hs1|rewrite Hi; now destruct st].
      * intros Hc H. rewrite (fetch_interrupt _ _ Hc H) in F. discriminate.
    + destruct (finalize_flags true (set_stop_reason ERROR st)) as [Hsr Hi].
      destruct (_finalize_current_state true (set_stop_reason ERROR st))
        as [st1 ev1].
      cbn [fst snd] in *.
      assert (Hs1 : stop_reason st1 = ERROR) by (rewrite Hsr; now destruct st).
      rewrite (promote_keeps_error st1 Hs1).
      split; [now left|]. split.
      * intros _. split; [exact Hs1|rewrite Hi; now destruct st].
      * intros Hc H. rewrite (fetch_interrupt _ _ Hc H) in F. discriminate.
  - cbn [app length delivered] in Hd. destruct Hd as [Hf Hd].
    cbn [app chunk_loop length]. rewrite Hf.
    pose proof (on_part_interrupted st p) as Hp.
    destruct (on_part st p) as [st1 ev1]. cbn [fst] in Hp, Hd.
    destruct (IH (S i) st1 Hd) as (Hin & Herr & Hint).
    replace (i + S (S (length pre)))%nat with (S i + S (length pre))%nat
      by lia.
    destruct (chunk_loop format_g cancel_event w idle
                (pre ++ [StreamError err]) (S i) st1) as [st2 later].
    cbn [fst snd] in *.
    split; [apply in_or_app; now right|]. split.
    + intros H. destruct (Herr H) as [H1 H2]. split; congruence.
    + exact Hint.
Qed.

(** The events of a turn that opens a stream hold those of the chunk
    loop and its cleanup, and a turn that returns ends as the
    variables [interrupted] and [stop_reason] tell. *)
Lemma opened_turn_ends provider turn retry_delays s :
  cancel_event && is_set_at_entry w = false ->
  opens provider turn retry_delays s ->
  let r := run_single_turn json_loads get_tool format_g cancel_event w idle
             provider turn retry_delays in
  let eaten := consume format_g cancel_event w idle (parts s) 0%nat
                 initial_state in
  (exists opening rest, events_of (trace r) = opening ++ snd eaten ++ rest)
  /\ (raised r = None ->
      exists before msg results,
        events_of (trace r)
        = before
          ++ (if interrupted (fst eaten)
              then [InterruptedEvent "Interrupted by user"] else [])
          ++ [TurnEndEvent turn (Some msg) results (stop_reason (fst eaten))]
        /\ am_stop_reason msg = stop_reason (fst eaten)).
Proof.
  intros Hc Ho. cbn zeta. unfold run_single_turn. rewrite Hc.
  unfold opens in Ho. cbn zeta in Ho.
  destruct (open_stream provider turn _ 0 _) as [opening o].
  cbn [snd] in Ho. subst o. cbn [trace raised].
  unfold drive_stream.
  destruct (consume format_g cancel_event w idle (parts s) 0 initial_state)
    as [st evs].
  cbn [fst snd].
  destruct (finalize_tools json_loads get_tool (pending_tool_calls st))
    as [[fin tool_ends] [e|]].
  - cbn [trace raised]. rewrite events_of_app, events_of_yields.
    split; [|discriminate].
    exists (events_of opening), tool_ends. reflexivity.
  - destruct (execute_tools cancel_event w fin 0) as [results effects].
    cbn [trace raised].
    rewrite !events_of_app, events_of_yields. split.
    + exists (events_of opening). eexists.
      rewrite <- app_assoc. reflexivity.
    + intros _.
      exists (events_of opening ++ (evs ++ tool_ends) ++ events_of effects).
      eexists. eexists. split.
      * rewrite <- !app_assoc. do 4 f_equal.
        destruct (interrupted st); reflexivity.
      * reflexivity.
Qed.

(** C4, as the code has it.  When a stream-error part reaches the turn
    executor, it yields an error event and sets the stop reason to
    ERROR, and the chunk loop goes into its next iteration instead of
    breaking.  With a stream that ends after the error part, no further
    part is processed.  When no cancellation is observed in that
    iteration, the stop reason stays ERROR and the turn, when it
    returns, ends with a turn-end whose stop reason and whose assistant
    message's stop reason are ERROR.  When a cancellation is observed in
    that iteration, the turn is interrupted: when it returns, it ends
    with an interrupted event and a turn-end whose stop reason is
    INTERRUPTED, not ERROR. *)
Theorem stream_error_continues provider turn retry_delays s pre err :
  let r := run_single_turn json_loads get_tool format_g cancel_event w idle
             provider turn retry_delays in
  let next := S (length pre) in
  (forall i st,
     fetch cancel_event w idle i st = Deliver ->
     loop [StreamError err] i st
     = (fst (loop [] (S i) (set_stop_reason ERROR st)),
        ErrorEvent err :: snd (loop [] (S i) (set_stop_reason ERROR st))))
  /\ (cancel_event && is_set_at_entry w = false ->
      opens provider turn retry_delays s ->
      parts s = pre ++ [StreamError err] ->
      delivered cancel_event w idle (parts s) 0 initial_state next ->
      In (ErrorEvent err) (events_of (trace r))
      /\ (cancel_event = false
          \/ (is_set_at_iteration w next = false
              /\ waited w next <> CancelDone) ->
          raised r = None ->
          exists msg results,
            last (events_of (trace r))
            = Some (TurnEndEvent turn (Some msg) results ERROR)
            /\ am_stop_reason msg = ERROR)
      /\ (cancel_event = true ->
          is_set_at_iteration w next = true \/ waited w next = CancelDone ->
          raised r = None ->
          exists before msg results,
            events_of (trace r)
            = before ++ [InterruptedEvent "Interrupted by user";
                         TurnEndEvent turn (Some msg) results INTERRUPTED]
            /\ am_stop_reason msg = INTERRUPTED)).
Proof.
  intros r next. split.
  { intros i st F. now apply chunk_loop_error_step. }
  intros Hc Ho Hp Hd.
  destruct (opened_turn_ends provider turn retry_delays s Hc Ho)
    as [(opening & rest & Hev) Hend].
  fold r in Hev, Hend.
  rewrite Hp in Hd.
  destruct (chunk_loop_error_then err pre 0%nat initial_state Hd)
    as (Hin & Herr & Hint).
  cbn [Nat.add] in Herr, Hint. fold next in Herr, Hint.
  unfold consume in Hev, Hend. rewrite Hp in Hev, Hend. unfold loop in *.
  destruct (chunk_loop format_g cancel_event w idle
              (pre ++ [StreamError err]) 0 initial_state) as [st evs].
  cbn [fst snd] in *. split; [|split].
  - rewrite Hev. apply in_or_app. right. apply in_or_app. left.
    destruct (if interrupted st then _ else _) as [st' cleanup].
    cbn [snd]. apply in_or_app. now left.
  - intros Hno Hr. destruct (Herr Hno) as [Hstop Hi].
    cbn [interrupted initial_state] in Hi. rewrite Hi in Hend.
    cbn [fst] in Hend. rewrite Hi, Hstop in Hend.
    destruct (Hend Hr) as (before & msg & results & Hl & Hm).
    exists msg, results. split; [|exact Hm].
    rewrite Hl. cbn [app]. apply last_snoc.
  - intros Hce Hcut Hr. destruct (Hint Hce Hcut) as [Hstop Hi].
    rewrite Hi in Hend.
    destruct (finalize_flags false st) as [Fs Fi].
    destruct (_finalize_current_state false st) as [st' cleanup].
    cbn [fst snd] in *. rewrite Fi, Fs, Hi, Hstop in Hend.
    destruct (Hend Hr) as (before & msg & results & Hl & Hm).
    now exists before, msg, results.
Qed.

End StreamErrors.

Lemma stream_error_continues_witness :
  let r := sample_run true (cancelled_from_iteration 2)
             (streaming [TextPart "Before error";
                         StreamError "Something went wrong"]) None in
  In (ErrorEvent "Something went wrong") (events_of (trace r))
  /\ (true = false
      \/ (is_set_at_iteration (cancelled_from_iteration 2) 2 = false
          /\ waited (cancelled_from_iteration 2) 2 <> CancelDone) ->
      raised r = None ->
      exists msg results,
        last (events_of (trace r))
        = Some (TurnEndEvent 1 (Some msg) results ERROR)
        /\ am_stop_reason msg = ERROR)
  /\ (true = true ->
      is_set_at_iteration (cancelled_from_iteration 2) 2 = true
      \/ waited (cancelled_from_iteration 2) 2 = CancelDone ->
      raised r = None ->
      exists before msg results,
        events_of (trace r)
        = before ++ [InterruptedEvent "Interrupted by user";
                     TurnEndEvent 1 (Some msg) results INTERRUPTED]
        /\ am_stop_reason msg = INTERRUPTED).
Proof.
  apply (proj2 (stream_error_continues sample_json_loads sample_get_tool
                  sample_format_g true (cancelled_from_iteration 2) (60 # 1)
                  (streaming [TextPart "Before error";
                              StreamError "Something went wrong"]) 1 None
                  (mkStream [TextPart "Before error";
                             StreamError "Something went wrong"] mock_usage)
                  [TextPart "Before error"] "Something went wrong"));
    [reflexivity | reflexivity | reflexivity | repeat split].
Defined.

(** C4 as stated fails, also on a stream that ends with its stream-error
    part: the chunk loop does not break, and the signal that is set
    when its next iteration starts makes the turn end with stop reason
    INTERRUPTED and an interrupted event, where a turn that had broken
    out of the loop would end with stop reason ERROR. *)
Lemma stream_error_interrupted_counterexample :
  events_of (trace (sample_run true (cancelled_from_iteration 2)
     (streaming [TextPart "Before error"; StreamError "Something went wrong"])
     None))
  = [TextStartEvent; TextDeltaEvent "Before error";
     ErrorEvent "Something went wrong";
     TextEndEvent "Before error";
     InterruptedEvent "Interrupted by user";
     TurnEndEvent 1
       (Some (mkAssistantMessage [TextContent "Before error"]
                mock_usage INTERRUPTED))
       [] INTERRUPTED].
Proof. reflexivity. Qed.

(** ** The compaction check *)

Lemma append_entry_entries s e disk :
  entries (fst (_append_entry s e disk)) = entries s ++ [e]
  /\ leaf_id (fst (_append_entry s e disk)) = Some (entry_id e).
Proof.
  unfold _append_entry, _persist_entry, entries, leaf_id.
  cbn [_persist _session_file _entries _flushed].
  destruct (_persist s), (_session_file s); try (split; reflexivity).
  destruct (negb (has_assistant _)); [split; reflexivity|].
  destruct (negb (_flushed s)); split; reflexivity.
Qed.

(** C9. When the turn did not end in error, [is_overflow] holds of the
    usage of the last assistant message and cancellation is not set: if
    summary generation raises, the check yields
    compaction-start and compaction-end with the tokens of that usage
    and [aborted = true], and leaves the session and the disk as they
    were; if it returns a summary, the check appends a compaction entry
    with that summary, the former leaf id and those tokens (followed, in
    continue mode, by the synthetic user message), and yields
    compaction-start and compaction-end with [aborted = false]. *)
Theorem compaction_check is_overflow generate_summary config kon_config
    session disk stop_reason system_prompt o1 o2 last_usage :
  StopReason_eqb stop_reason ERROR = false ->
  last_assistant_usage (rev (entries session)) = Some (Some last_usage) ->
  is_overflow last_usage
    (int_or (context_window config) (agent_default_context_window kon_config))
    (int_or (max_output_tokens config)
       (int_or (provider_config_max_tokens kon_config) 0))
    (compaction_buffer_tokens kon_config) = true ->
  let tokens_before :=
    input_tokens last_usage + output_tokens last_usage
    + cache_read_tokens last_usage + cache_write_tokens last_usage in
  let r := _check_compaction is_overflow generate_summary config kon_config
             session disk stop_reason system_prompt false o1 o2 in
  (forall e,
     generate_summary (all_messages session) system_prompt = Throw e ->
     r = ([CompactionStartEvent; CompactionEndEvent tokens_before true],
          (session, disk)))
  /\ (forall summary,
      generate_summary (all_messages session) system_prompt = Return summary ->
      fst r = [CompactionStartEvent; CompactionEndEvent tokens_before false]
      /\ exists b b',
          entries (fst (snd r))
          = entries session
            ++ CompactionEntry b summary (default "" (leaf_id session))
                 tokens_before None
               :: (if String.eqb (compaction_on_overflow kon_config) "continue"
                   then [MessageEntry b' continue_message]
                   else [])
          /\ parent_id b = leaf_id session
          /\ parent_id b' = Some (id b)).
Proof.
  intros Hs Hu Ho tokens_before r. subst r tokens_before.
  unfold _check_compaction.
  rewrite Hs, Hu, Ho. cbn [negb]. split.
  - intros e ->. reflexivity.
  - intros summary ->. unfold append_compaction, append_message. cbn [snd].
    match goal with
    | |- context [_append_entry session ?c disk] =>
        destruct (append_entry_entries session c disk) as [He Hl];
        destruct (_append_entry session c disk) as [s1 d1]
    end.
    cbn [fst snd] in *.
    destruct (String.eqb (compaction_on_overflow kon_config) "continue").
    + match goal with
      | |- context [_append_entry s1 ?m d1] =>
          destruct (append_entry_entries s1 m d1) as [He' _];
          destruct (_append_entry s1 m d1) as [s2 d2]
      end.
      cbn [fst snd] in *. split; [reflexivity|].
      exists (new_base session o1), (new_base s1 o2).
      split; [now rewrite He', He, <- app_assoc|].
      split; [reflexivity|exact Hl].
    + split; [reflexivity|].
      exists (new_base session o1), (new_base s1 o2).
      split; [exact He|]. split; [reflexivity|exact Hl].
Qed.

Lemma compaction_check_witness :
  _check_compaction is_overflow_by_spec summary_fails sample_agent_config
    sample_settings
    (fst sample_flushed) (snd sample_flushed) STOP "prompt" false
    (sample_outside "cccccccc") (sample_outside "dddddddd")
  = ([CompactionStartEvent; CompactionEndEvent 17 true],
     (fst sample_flushed, snd sample_flushed))
  /\ fst (_check_compaction is_overflow_by_spec summary_works
            sample_agent_config sample_settings
            (fst sample_flushed) (snd sample_flushed) STOP "prompt" false
            (sample_outside "cccccccc") (sample_outside "dddddddd"))
     = [CompactionStartEvent; CompactionEndEvent 17 false].
Proof.
  split.
  - apply (proj1 (compaction_check is_overflow_by_spec summary_fails
                    sample_agent_config sample_settings
                    (fst sample_flushed) (snd sample_flushed)
                    STOP "prompt" (sample_outside "cccccccc")
                    (sample_outside "dddddddd") (mkUsage 10 5 2 0)
                    eq_refl eq_refl eq_refl)
             (mkException OtherError "provider down")).
    reflexivity.
  - apply (proj2 (compaction_check is_overflow_by_spec summary_works
                    sample_agent_config sample_settings
                    (fst sample_flushed) (snd sample_flushed)
                    STOP "prompt" (sample_outside "cccccccc")
                    (sample_outside "dddddddd") (mkUsage 10 5 2 0)
                    eq_refl eq_refl eq_refl)
             "what happened so far").
    reflexivity.
Defined.

(* ===================================================================== *)
(** * More properties of the session store *)
(* ===================================================================== *)

(** ** Sessions that do not persist *)

Lemma append_entry_no_file s e disk :
  _session_file s = None ->
  _session_file (fst (_append_entry s e disk)) = None
  /\ snd (_append_entry s e disk) = disk.
Proof.
  intros Hf. unfold _append_entry, _persist_entry.
  cbn [_persist _session_file]. rewrite Hf.
  destruct (_persist s); split; cbn; auto.
Qed.

(** X1. A session made without persistence has no file, and no sequence
    of appends writes anything: the disk stays as it was. *)
Theorem in_memory_never_writes sid ts fts dir cwd prov mid tl disk calls :
  let st := run_ops (in_memory sid ts fts dir cwd prov mid tl, disk) calls in
  session_file (fst st) = None /\ snd st = disk.
Proof.
  cbn zeta.
  assert (H0 : _session_file (in_memory sid ts fts dir cwd prov mid tl) = None)
    by reflexivity.
  revert H0. generalize (in_memory sid ts fts dir cwd prov mid tl) as s.
  induction calls as [|call calls IH]; intros s Hs; [now split|].
  unfold run_ops in *. cbn [foldl].
  destruct (apply_op_cases s disk call) as [->|(e & _ & ->)]; [now apply IH|].
  destruct (append_entry_no_file s e disk Hs) as [Hf Hd].
  destruct (_append_entry s e disk) as [s1 d1]. cbn [fst snd] in *. subst d1.
  now apply IH.
Qed.

(** ** Entry ids *)

Lemma apply_op_cases_id s disk o op :
  apply_op (s, disk) (o, op) = (s, disk)
  \/ exists e, entry_id e = _generate_entry_id s o
               /\ apply_op (s, disk) (o, op) = _append_entry s e disk.
Proof.
  unfold apply_op.
  destruct op; try (right; eexists; split; [|reflexivity]; reflexivity).
  - unfold set_model. destruct (model s) as [[[p m] u]|].
    + destruct (_ && _); [now left|].
      right; eexists; split; [|reflexivity]; reflexivity.
    + right; eexists; split; [|reflexivity]; reflexivity.
  - unfold set_thinking_level. destruct (String.eqb _ _); [now left|].
    right; eexists; split; [|reflexivity]; reflexivity.
Qed.

Lemma append_entry_fields s e disk :
  _entries (fst (_append_entry s e disk)) = _entries s ++ [e]
  /\ _by_id (fst (_append_entry s e disk)) = <[entry_id e := e]> (_by_id s)
  /\ _leaf_id (fst (_append_entry s e disk)) = Some (entry_id e).
Proof.
  unfold _append_entry, _persist_entry.
  cbn [_persist _session_file _entries _flushed].
  destruct (_persist s), (_session_file s); try (repeat split; reflexivity).
  destruct (negb (has_assistant _)); [repeat split; reflexivity|].
  destruct (negb (_flushed s)); repeat split; reflexivity.
Qed.

(** When its first draw is not yet a key of the index,
    [_generate_entry_id] returns that draw. *)
Lemma generate_entry_id_first s o :
  _by_id s !! generate_id o 0%nat = None ->
  _generate_entry_id s o = generate_id o 0%nat.
Proof. unfold _generate_entry_id. cbn [first_fresh]. now intros ->. Qed.

Lemma run_ops_unique_ids calls : forall s disk,
  (forall i, is_Some (_by_id s !! i) <-> In i (map entry_id (_entries s))) ->
  NoDup (map entry_id (_entries s)
         ++ map (fun c => generate_id (fst c) 0%nat) calls) ->
  NoDup (map entry_id (_entries (fst (run_ops (s, disk) calls)))).
Proof.
  induction calls as [|[o op] calls IH]; intros s disk Hdom Hnd.
  - cbn in *. now rewrite app_nil_r in Hnd.
  - unfold run_ops in *. cbn [foldl].
    destruct (apply_op_cases_id s disk o op) as [->|(e & He & ->)].
    + apply IH; [exact Hdom|].
      cbn [map fst] in Hnd. apply NoDup_app in Hnd as (H1 & H2 & H3).
      apply NoDup_app. apply NoDup_cons in H3 as [_ H3]. repeat split; auto.
      intros x Hx Hx'. apply (H2 x Hx). now right.
    + destruct (append_entry_fields s e disk) as (Hes & Hby & _).
      destruct (_append_entry s e disk) as [s1 d1]. cbn [fst snd] in *.
      cbn [map fst] in Hnd.
      assert (Hfresh : _by_id s !! generate_id o 0%nat = None).
      { destruct (_by_id s !! generate_id o 0%nat) eqn:E; [|reflexivity].
        exfalso. apply NoDup_app in Hnd as (_ & H2 & _).
        apply (H2 (generate_id o 0%nat)).
        - apply list_elem_of_In, Hdom. eauto.
        - left. }
      rewrite (generate_entry_id_first s o Hfresh) in He.
      apply IH.
      * intros i. rewrite Hby, Hes, map_app, in_app_iff. cbn [map In].
        destruct (decide (entry_id e = i)) as [<-|Hne].
        -- rewrite lookup_insert_eq. split; eauto.
        -- rewrite lookup_insert_ne by exact Hne. rewrite Hdom. tauto.
      * rewrite Hes, map_app, <- app_assoc. cbn [map app]. now rewrite He.
Qed.

(** X2. In a session made by [Session.create], when the first ids drawn
    by the successive appends are pairwise distinct, every append takes
    its first draw and the ids of the entries are pairwise distinct. *)
Theorem entry_ids_distinct sid ts fts dir cwd persist prov mid tl disk calls :
  NoDup (map (fun c => generate_id (fst c) 0%nat) calls) ->
  NoDup (map entry_id
           (entries (fst (run_ops (create sid ts fts dir cwd persist prov mid tl,
                                   disk) calls)))).
Proof.
  intros Hnd. apply run_ops_unique_ids; [|exact Hnd].
  intros i. cbn. rewrite lookup_empty. split; [intros [x Hx]; discriminate|tauto].
Qed.

Lemma entry_ids_distinct_witness :
  NoDup (map entry_id (entries (fst (run_ops (sample_session, ∅) sample_calls)))).
Proof.
  apply (entry_ids_distinct "5f0c" "2026-01-01T00:00:00+00:00"
           "2026-01-01T00-00-00" "/home/u/.kon/sessions/proj" "/proj" true
           None None "medium" ∅ sample_calls).
  apply (bool_decide_unpack _). vm_compute. exact I.
Defined.

(** ** The index of entries *)

Lemma index_lookup es : forall i,
  foldl (fun m e => <[entry_id e := e]> m) (∅ : gmap string SessionEntry) es !! i
  = List.find (fun e => String.eqb (entry_id e) i) (rev es).
Proof.
  induction es as [|e es IH] using rev_ind; intros i; [apply lookup_empty|].
  rewrite foldl_app, rev_app_distr. cbn [foldl rev app List.find].
  destruct (String.eqb_spec (entry_id e) i) as [<-|Hne].
  - apply lookup_insert_eq.
  - rewrite lookup_insert_ne by exact Hne. apply IH.
Qed.

Lemma apply_op_indexed s disk call :
  indexed s -> indexed (fst (apply_op (s, disk) call)).
Proof.
  intros Hi.
  destruct (apply_op_cases s disk call) as [->|(e & _ & ->)]; [exact Hi|].
  destruct (append_entry_fields s e disk) as (Hes & Hby & _).
  unfold indexed in *. rewrite Hby, Hes, foldl_app, Hi. reflexivity.
Qed.

(** X3. In a session made by [Session.create] or returned by
    [Session.load], after any sequence of appends, [get_entry] returns
    the most recent entry that carries the id, and nothing when no entry
    carries it. *)
Theorem get_entry_most_recent s0 disk0 calls i :
  (exists sid ts fts dir cwd persist prov mid tl,
     s0 = create sid ts fts dir cwd persist prov mid tl)
  \/ (exists path disk, load path disk = Ok s0) ->
  get_entry (fst (run_ops (s0, disk0) calls)) i
  = List.find (fun e => String.eqb (entry_id e) i)
      (rev (entries (fst (run_ops (s0, disk0) calls)))).
Proof.
  intros Hroot.
  assert (H0 : indexed s0).
  { destruct Hroot as [(sid & ts & fts & dir & cwd & persist & prov & mid & tl
                        & ->)|(path & disk & Hl)]; [reflexivity|].
    unfold load in Hl. destruct (disk !! path); [|discriminate].
    destruct (load_lines _ _ _) as [[[h|] es]|]; try discriminate.
    now injection Hl as <-. }
  assert (Hi : indexed (fst (run_ops (s0, disk0) calls))).
  { clear Hroot. revert s0 disk0 H0.
    induction calls as [|call calls IH]; intros s disk H0; [exact H0|].
    unfold run_ops in *. cbn [foldl].
    pose proof (apply_op_indexed s disk call H0) as H1.
    destruct (apply_op (s, disk) call) as [s1 d1]. now apply IH. }
  unfold get_entry, entries. rewrite Hi. apply index_lookup.
Qed.

Lemma get_entry_most_recent_witness :
  get_entry (fst (run_ops (sample_session, ∅) sample_calls)) "cccccccc"
  = List.find (fun e => String.eqb (entry_id e) "cccccccc")
      (rev (entries (fst (run_ops (sample_session, ∅) sample_calls)))).
Proof.
  apply (get_entry_most_recent sample_session ∅ sample_calls "cccccccc").
  left. now exists "5f0c", "2026-01-01T00:00:00+00:00", "2026-01-01T00-00-00",
    "/home/u/.kon/sessions/proj", "/proj", true, None, None, "medium".
Defined.

(** ** Thinking level, model and name *)

Lemma first_thinking_level_snoc es b l :
  first_thinking_level (rev (es ++ [ThinkingLevelChangeEntry b l])) = Some l.
Proof. now rewrite rev_app_distr. Qed.

(** X4. After [set_thinking_level] the thinking level of the session is
    the requested one; the call changes nothing when the level was
    already the requested one, so a second call with the same level
    changes nothing. *)
Theorem set_thinking_level_sets s o o' level disk :
  let st := set_thinking_level s o level disk in
  thinking_level (fst st) = level
  /\ (thinking_level s = level -> st = (s, disk))
  /\ set_thinking_level (fst st) o' level (snd st) = st.
Proof.
  cbn zeta.
  assert (H : thinking_level (fst (set_thinking_level s o level disk)) = level).
  { unfold set_thinking_level.
    destruct (String.eqb_spec (thinking_level s) level) as [E|E]; [exact E|].
    unfold append_thinking_level_change. cbn [snd].
    destruct (append_entry_fields s
                (ThinkingLevelChangeEntry (new_base s o) level) disk)
      as (Hes & _ & _).
    unfold thinking_level. rewrite Hes, first_thinking_level_snoc.
    reflexivity. }
  split; [exact H|]. split.
  - intros E. unfold set_thinking_level. now rewrite E, String.eqb_refl.
  - destruct (set_thinking_level s o level disk) as [s1 d1].
    cbn [fst snd] in *. unfold set_thinking_level at 1.
    now rewrite H, String.eqb_refl.
Qed.

Lemma opt_str_eqb_eq a b : opt_str_eqb a b = true -> a = b.
Proof.
  destruct a, b; cbn; try discriminate; auto.
  intros H. apply String.eqb_eq in H. now subst.
Qed.

Lemma opt_str_eqb_refl a : opt_str_eqb a a = true.
Proof. destruct a; cbn; [apply String.eqb_refl|reflexivity]. Qed.

(** X5. After [set_model] the model of the session is the requested
    provider, model id and base url; the call changes nothing when the
    session already had that model, so a second call with the same
    arguments changes nothing. *)
Theorem set_model_sets s o o' provider model_id base_url disk :
  let st := set_model s o provider model_id base_url disk in
  model (fst st) = Some (provider, model_id, base_url)
  /\ (model s = Some (provider, model_id, base_url) -> st = (s, disk))
  /\ set_model (fst st) o' provider model_id base_url (snd st) = st.
Proof.
  cbn zeta.
  assert (Hsame : forall s0 o0 d0,
    model s0 = Some (provider, model_id, base_url) ->
    set_model s0 o0 provider model_id base_url d0 = (s0, d0)).
  { intros s0 o0 d0 E. unfold set_model. rewrite E.
    now rewrite !String.eqb_refl, opt_str_eqb_refl. }
  assert (Happ : forall e,
    e = ModelChangeEntry (new_base s o) provider model_id base_url ->
    model (fst (_append_entry s e disk)) = Some (provider, model_id, base_url)).
  { intros e ->.
    destruct (append_entry_fields s
                (ModelChangeEntry (new_base s o) provider model_id base_url)
                disk) as (Hes & _ & _).
    unfold model. rewrite Hes, rev_app_distr. reflexivity. }
  assert (H : model (fst (set_model s o provider model_id base_url disk))
              = Some (provider, model_id, base_url)).
  { unfold set_model. destruct (model s) as [[[p m] u]|] eqn:E.
    - destruct (String.eqb_spec p provider) as [->|Hp]; cbn [andb];
        [|now apply Happ].
      destruct (String.eqb_spec m model_id) as [->|Hm]; cbn [andb];
        [|now apply Happ].
      destruct (opt_str_eqb u base_url) eqn:Eu; [|now apply Happ].
      apply opt_str_eqb_eq in Eu. subst u. exact E.
    - now apply Happ. }
  split; [exact H|]. split; [apply Hsame|].
  destruct (set_model s o provider model_id base_url disk) as [s1 d1].
  cbn [fst snd] in *. now apply Hsame.
Qed.

(** X6. After [append_session_info] with a name that is not empty, the
    name of the session is that name; an empty name leaves the name of
    the session as it was. *)
Theorem append_session_info_names s o n disk :
  name (fst (snd (append_session_info s o n disk)))
  = if String.eqb n "" then name s else Some n.
Proof.
  unfold append_session_info. cbn [snd].
  destruct (append_entry_fields s (SessionInfoEntry (new_base s o) (Some n))
              disk) as (Hes & _ & _).
  unfold name. rewrite Hes, rev_app_distr. cbn [rev app first_name truthy].
  now destruct (String.eqb n "").
Qed.

(** ** What reaches the provider *)

Lemma first_compaction_snoc es e :
  is_compaction e = false ->
  first_compaction (rev (es ++ [e])) = first_compaction (rev es).
Proof. intros H. rewrite rev_app_distr. cbn. now destruct e. Qed.

Lemma messages_after_app cid es : forall past es',
  messages_after cid past (es ++ es')
  = messages_after cid past es
    ++ messages_after cid (past_after cid past es) es'.
Proof.
  induction es as [|e es IH]; intros past es'; [reflexivity|].
  cbn [app messages_after past_after].
  destruct (is_compaction e && String.eqb (entry_id e) cid) eqn:E.
  - rewrite orb_true_r. apply IH.
  - rewrite orb_false_r. destruct e; try apply IH.
    destruct past; [cbn; f_equal|]; apply IH.
Qed.

Lemma past_after_true cid es : past_after cid true es = true.
Proof. induction es as [|e es IH]; [reflexivity|exact IH]. Qed.

Lemma first_compaction_past es : forall cid summary past,
  first_compaction (rev es) = Some (cid, summary) ->
  past_after cid past es = true.
Proof.
  induction es as [|e es IH] using rev_ind; intros cid summary past;
    [discriminate|].
  rewrite rev_app_distr. cbn [rev app].
  assert (Happ : forall p l1 l2,
    past_after cid p (l1 ++ l2) = past_after cid (past_after cid p l1) l2).
  { intros p l1. revert p. induction l1 as [|x l1 IH1]; intros p l2;
      [reflexivity|apply IH1]. }
  rewrite Happ. cbn [past_after].
  destruct e; cbn [first_compaction is_compaction andb orb];
    try (rewrite orb_false_r; now apply IH).
  intros [= <- <-]. cbn [entry_id base]. rewrite String.eqb_refl.
  apply orb_true_r.
Qed.

(** X7. The view sent to the provider grows by exactly the message that
    [append_message] adds, whether or not the session was compacted; and
    thinking-level changes, model changes, custom messages and
    session-info entries leave it as it was. *)
Theorem messages_follow_appends s o op disk :
  let s' := fst (apply_op (s, disk) (o, op)) in
  match op with
  | OpMessage m => messages s' = messages s ++ [m]
  | OpCompaction _ _ _ _ => True
  | _ => messages s' = messages s
  end.
Proof.
  cbn zeta.
  assert (Hother : forall e,
    is_compaction e = false -> message_of e = None ->
    messages (fst (_append_entry s e disk)) = messages s).
  { intros e Hc Hm. destruct (append_entry_fields s e disk) as (Hes & _ & _).
    unfold messages. rewrite Hes, (first_compaction_snoc _ _ Hc).
    destruct (first_compaction (rev (_entries s))) as [[cid sm]|].
    - rewrite messages_after_app. cbn [messages_after]. rewrite Hc.
      cbn [andb]. destruct e; try discriminate; now rewrite app_nil_r.
    - rewrite omap_app. cbn. rewrite Hm. cbn. now rewrite app_nil_r. }
  destruct op; cbn [apply_op]; try (apply Hother; reflexivity); [|exact I| |].
  - unfold append_message. cbn [snd].
    destruct (append_entry_fields s (MessageEntry (new_base s o) message) disk)
      as (Hes & _ & _).
    unfold messages. rewrite Hes, first_compaction_snoc by reflexivity.
    destruct (first_compaction (rev (_entries s))) as [[cid sm]|] eqn:E.
    + rewrite messages_after_app. cbn [messages_after is_compaction andb].
      rewrite (first_compaction_past _ _ _ false E).
      apply app_assoc.
    + rewrite omap_app. reflexivity.
  - unfold set_model. destruct (model s) as [[[p m] u]|].
    + destruct (_ && _); [reflexivity|now apply Hother].
    + now apply Hother.
  - unfold set_thinking_level. destruct (String.eqb _ _);
      [reflexivity|now apply Hother].
Qed.

(** X8. [append_compaction] leaves all the messages of the log in place
    ([all_messages] does not change); when the id it draws is carried by
    no earlier entry, the view sent to the provider becomes the
    synthetic question and the synthetic answer that carries the
    summary, and nothing else. *)
Theorem append_compaction_resets_view s o summary kept tokens details disk :
  ~ In (_generate_entry_id s o) (map entry_id (entries s)) ->
  let s' := fst (snd (append_compaction s o summary kept tokens details disk)) in
  all_messages s' = all_messages s
  /\ messages s'
     = [UserMessage (UPlain "What did we do so far?");
        AssistantMsg (mkAssistantMessage [TextContent summary] None STOP)].
Proof.
  intros Hfresh. cbn zeta. unfold append_compaction. cbn [snd].
  set (c := CompactionEntry (new_base s o) summary kept tokens details).
  destruct (append_entry_fields s c disk) as (Hes & _ & _). split.
  - unfold all_messages. rewrite Hes, omap_app. cbn. now rewrite app_nil_r.
  - apply (messages_split _ (_entries s) (new_base s o) summary kept tokens
             details []); [exact Hes|constructor|].
    apply Forall_forall. intros e He.
    destruct (String.eqb_spec (entry_id e) (id (new_base s o))) as [Heq|_];
      [|apply andb_false_r].
    exfalso. apply Hfresh. cbn [id new_base] in Heq. rewrite <- Heq.
    apply in_map. now apply list_elem_of_In.
Qed.

Lemma append_compaction_resets_view_witness :
  let s := fst (run_ops (sample_session, ∅) sample_calls) in
  let s' := fst (snd (append_compaction s (sample_outside "eeeeeeee")
                        "again" "dddddddd" 30 None ∅)) in
  all_messages s' = all_messages s
  /\ messages s'
     = [UserMessage (UPlain "What did we do so far?");
        AssistantMsg (mkAssistantMessage [TextContent "again"] None STOP)].
Proof.
  intros s.
  apply (append_compaction_resets_view s (sample_outside "eeeeeeee") "again"
           "dddddddd" 30 None ∅).
  vm_compute. intuition discriminate.
Defined.

(** ** What a reload keeps *)

Lemma apply_op_initial s disk call :
  let s' := fst (apply_op (s, disk) call) in
  _initial_thinking_level s' = _initial_thinking_level s
  /\ _initial_provider s' = _initial_provider s
  /\ _initial_model_id s' = _initial_model_id s.
Proof.
  cbn zeta.
  destruct (apply_op_cases s disk call) as [->|(e & _ & ->)]; [now repeat split|].
  unfold _append_entry, _persist_entry.
  cbn [_persist _session_file _entries _flushed].
  destruct (_persist s), (_session_file s); try (repeat split; reflexivity).
  destruct (negb (has_assistant _)); [repeat split; reflexivity|].
  destruct (negb (_flushed s)); repeat split; reflexivity.
Qed.

Lemma run_ops_initial calls : forall s disk,
  let s' := fst (run_ops (s, disk) calls) in
  _initial_thinking_level s' = _initial_thinking_level s
  /\ _initial_provider s' = _initial_provider s
  /\ _initial_model_id s' = _initial_model_id s.
Proof.
  induction calls as [|call calls IH]; intros s disk; [now repeat split|].
  cbn zeta. unfold run_ops in *. cbn [foldl].
  pose proof (apply_op_initial s disk call) as (H1 & H2 & H3).
  destruct (apply_op (s, disk) call) as [s1 d1]. cbn [fst] in *.
  destruct (IH s1 d1) as (I1 & I2 & I3). cbn zeta in *.
  repeat split; congruence.
Qed.

(** X9. Reloading a flushed session keeps its id, its working directory
    and its entries, but not the initial settings given to
    [Session.create]: the thinking level of the reloaded session is the
    latest thinking-level change or "medium", and its model is the
    latest model change or none.  So the thinking level survives the
    reload exactly when the log holds a thinking-level change or the
    initial level was "medium", and the model exactly when the log holds
    a model change or no initial model was in use. *)
Theorem reload_forgets_initial_settings sid ts fts dir cwd prov mid tl disk0
    calls :
  let st := run_ops (create sid ts fts dir cwd true prov mid tl, disk0) calls in
  has_assistant (entries (fst st)) = true ->
  exists path s',
    session_file (fst st) = Some path
    /\ load path (snd st) = Ok s'
    /\ _id s' = sid /\ _cwd s' = cwd
    /\ thinking_level s'
       = default "medium" (first_thinking_level (rev (entries (fst st))))
    /\ model s' = first_model (rev (entries (fst st)))
    /\ (thinking_level s' = thinking_level (fst st)
        <-> first_thinking_level (rev (entries (fst st))) <> None
            \/ tl = "medium")
    /\ (model s' = model (fst st)
        <-> first_model (rev (entries (fst st))) <> None
            \/ truthy prov && truthy mid = false).
Proof.
  intros st Ha.
  pose proof (run_ops_created _ _ disk0 calls _ _
                (create_created sid ts fts dir cwd prov mid tl disk0)) as Hinv.
  pose proof (run_ops_initial calls (create sid ts fts dir cwd true prov mid tl)
                disk0) as (Htl & Hprov & Hmid).
  cbn zeta in Htl, Hprov, Hmid. fold st in Hinv, Htl, Hprov, Hmid.
  destruct st as [s disk]. cbn [fst snd] in *.
  destruct Hinv as (Hf & _ & _ & _ & _ & Hfl).
  unfold entries in *. destruct (_flushed s);
    [|destruct Hfl as [Hn _]; rewrite Hn in Ha; discriminate].
  destruct Hfl as [_ Hd].
  eexists; eexists. split; [exact Hf|].
  unfold load. rewrite Hd, load_lines_written.
  split; [reflexivity|]. unfold thinking_level, model.
  cbn [_id _cwd _entries _initial_thinking_level _initial_provider
       _initial_model_id h_id h_cwd truthy andb].
  rewrite Htl, Hprov, Hmid. cbn [_initial_thinking_level _initial_provider
    _initial_model_id create Session_init].
  repeat split; auto.
  - now destruct (first_model (rev (_entries s))).
  - destruct (first_thinking_level (rev (_entries s))); cbn [default].
    + intros _. left. discriminate.
    + intros <-. now right.
  - destruct (first_thinking_level (rev (_entries s))); cbn [default];
      [reflexivity|]. intros [H|H]; [now contradiction H|now symmetry].
  - destruct (first_model (rev (_entries s))).
    + intros _. left. discriminate.
    + destruct (truthy prov && truthy mid); [discriminate|]. intros _. now right.
  - destruct (first_model (rev (_entries s))); [reflexivity|].
    intros [H|H]; [now contradiction H|]. now rewrite H.
Qed.

Lemma reload_forgets_initial_settings_witness :
  let st :=
    run_ops (create "5f0c" "2026-01-01T00:00:00+00:00" "2026-01-01T00-00-00"
               "/home/u/.kon/sessions/proj" "/proj" true (Some "openai")
               (Some "gpt-4") "high", ∅)
      [(sample_outside "aaaaaaaa", OpMessage sample_assistant)] in
  has_assistant (entries (fst st)) = true
  /\ exists path s',
      session_file (fst st) = Some path
      /\ load path (snd st) = Ok s'
      /\ _id s' = "5f0c" /\ _cwd s' = "/proj"
      /\ thinking_level s'
         = default "medium" (first_thinking_level (rev (entries (fst st))))
      /\ model s' = first_model (rev (entries (fst st)))
      /\ (thinking_level s' = thinking_level (fst st)
          <-> first_thinking_level (rev (entries (fst st))) <> None
              \/ "high" = "medium")
      /\ (model s' = model (fst st)
          <-> first_model (rev (entries (fst st))) <> None
              \/ truthy (Some "openai") && truthy (Some "gpt-4") = false).
Proof.
  intros st. split; [reflexivity|].
  apply (reload_forgets_initial_settings "5f0c" "2026-01-01T00:00:00+00:00"
           "2026-01-01T00-00-00" "/home/u/.kon/sessions/proj" "/proj"
           (Some "openai") (Some "gpt-4") "high" ∅
           [(sample_outside "aaaaaaaa", OpMessage sample_assistant)]).
  reflexivity.
Defined.

(** ** The name of the sessions directory *)

Lemma replace_char_chars old new s c :
  In c (list_ascii_of_string (replace_char old new s)) ->
  (c = new \/ In c (list_ascii_of_string s)) /\ (new <> old -> c <> old).
Proof.
  induction s as [|x s IH]; cbn; [tauto|].
  intros [<-|Hin].
  - destruct (Ascii.eqb_spec x old) as [->|Hne]; split; auto.
  - destruct (IH Hin) as [[->|H] Hn]; split; auto.
Qed.

Lemma lstrip_char_chars c s x :
  In x (list_ascii_of_string (lstrip_char c s)) ->
  In x (list_ascii_of_string s).
Proof.
  induction s as [|y s IH]; cbn; [tauto|].
  destruct (Ascii.eqb y c); cbn; auto.
Qed.

Lemma rstrip_char_chars c s : forall x,
  In x (list_ascii_of_string (rstrip_char c s)) ->
  In x (list_ascii_of_string s).
Proof.
  induction s as [|y s IH]; intros x; cbn; [tauto|].
  destruct (rstrip_char c s) as [|z k] eqn:E.
  - destruct (Ascii.eqb y c); cbn; tauto.
  - cbn. intros [<-|H]; [now left|right]. apply IH. exact H.
Qed.

Lemma rstrip_char_cons c y s :
  rstrip_char c (String y s)
  = match rstrip_char c s with
    | EmptyString => if Ascii.eqb y c then EmptyString else String y EmptyString
    | kept => String y kept
    end.
Proof. reflexivity. Qed.

Lemma rstrip_char_idempotent c s :
  rstrip_char c (rstrip_char c s) = rstrip_char c s.
Proof.
  induction s as [|y s IH]; [reflexivity|]. rewrite rstrip_char_cons.
  destruct (rstrip_char c s) as [|z k] eqn:E.
  - destruct (Ascii.eqb y c) eqn:Ey; [reflexivity|].
    rewrite rstrip_char_cons. cbn [rstrip_char]. now rewrite Ey.
  - rewrite rstrip_char_cons, IH. reflexivity.
Qed.

Lemma lstrip_char_head c s :
  lstrip_char c s = ""
  \/ exists x rest, lstrip_char c s = String x rest /\ Ascii.eqb x c = false.
Proof.
  induction s as [|y s IH]; [now left|]. cbn.
  destruct (Ascii.eqb y c) eqn:E; [exact IH|right; eauto].
Qed.

Lemma rstrip_char_keeps_head c x rest :
  Ascii.eqb x c = false ->
  exists kept, rstrip_char c (String x rest) = String x kept.
Proof.
  intros E. cbn [rstrip_char].
  destruct (rstrip_char c rest); [rewrite E|]; eauto.
Qed.

(** X10. The directory name that [get_sessions_dir] derives from a
    working directory contains no slash and no backslash, and neither
    starts nor ends with a dash: stripping dashes from it again, on
    either side, changes nothing. *)
Theorem safe_cwd_is_a_name cwd :
  (forall c, In c (list_ascii_of_string (safe_cwd cwd)) ->
             c <> "/"%char /\ c <> "\"%char)
  /\ lstrip_char "-" (safe_cwd cwd) = safe_cwd cwd
  /\ rstrip_char "-" (safe_cwd cwd) = safe_cwd cwd.
Proof.
  unfold safe_cwd, strip_char. repeat split.
  - apply rstrip_char_chars, lstrip_char_chars, replace_char_chars in H
      as [[->|H] _]; [discriminate|].
    apply replace_char_chars in H as [_ H]. apply H. discriminate.
  - apply rstrip_char_chars, lstrip_char_chars, replace_char_chars in H
      as [_ H]. apply H. discriminate.
  - destruct (lstrip_char_head "-"
                (replace_char "\" "-" (replace_char "/" "-" cwd)))
      as [->|(x & rest & -> & Hx)]; [reflexivity|].
    destruct (rstrip_char_keeps_head "-" x rest Hx) as [kept ->].
    cbn [lstrip_char]. now rewrite Hx.
  - apply rstrip_char_idempotent.
Qed.

(** ** Listing and resuming *)

Section ListingProperties.

Variable datetime : Type.
Variable fromisoformat : string -> option datetime.
Variable slice_of_dict : BuildError.
Variable str_strip : string -> string.
Variable str_lower : string -> string.

Let scan := scan_lines slice_of_dict.
Let build := build_session_info datetime fromisoformat slice_of_dict.
Let listing := list_sessions datetime fromisoformat slice_of_dict.
Let resolve :=
  continue_by_id datetime fromisoformat slice_of_dict str_strip str_lower.

Lemma digest_message_dump b m s :
  digest_message slice_of_dict
    (base_dump b ++ [("type", JStr "message"); ("message", Message_to_json m)])
    (FText s)
  = Done (FText (if String.eqb s "" then digest_of m else s)).
Proof.
  destruct b as [i p t]. unfold digest_message. cbn [base_dump app get].
  cbn -[String.eqb String.substring].
  destruct m as [[c|[|[t0|img] ps]]|a|r]; cbn -[String.substring];
    destruct (String.eqb s "") eqn:E; try reflexivity;
    try (apply String.eqb_eq in E; now subst).
Qed.

Lemma scan_entries es : forall header count s,
  scan (map entry_line es) header count (FText s)
  = Done (header, count + Z.of_nat (length (omap message_of es)),
          FText (if String.eqb s "" then first_digest (omap message_of es)
                 else s)).
Proof.
  unfold scan.
  induction es as [|e es IH]; intros header count s.
  - cbn. rewrite Z.add_0_r. now destruct (String.eqb_spec s "") as [->|].
  - destruct e as [b m|b l|b p mi u|b sm k tb d|b ct c disp d|b n];
      cbn [map entry_line entry_dump scan_lines];
      try (destruct b as [i p0 t]; cbn [base_dump app get type_is];
           cbn -[scan_lines Z.add Z.of_nat String.eqb first_digest];
           rewrite IH; reflexivity).
    assert (Ht : forall tag,
      type_is (get "type" (base_dump b ++ [("type", JStr "message");
                                           ("message", Message_to_json m)]))
        tag = String.eqb "message" tag).
    { intros tag. now destruct b. }
    rewrite !Ht. cbn [String.eqb Ascii.eqb Bool.eqb].
    rewrite digest_message_dump, IH.
    cbn [omap list_omap message_of length first_digest].
    rewrite Nat2Z.inj_succ. f_equal. f_equal; [f_equal; lia|].
    destruct (String.eqb s "") eqn:E; [|now rewrite E].
    destruct (String.eqb (digest_of m) ""); reflexivity.
Qed.

(** X11. On the file of a flushed session whose creation timestamp
    parses, [build_session_info] returns a digest with the id and the
    working directory of the session, no name, as many messages as the
    session has message entries, and as first message the first 100
    characters of the first user text that is not empty (the text of a
    plain user message, or of the first part of a user message in parts),
    or "(no messages)" when there is none. *)
Theorem build_session_info_written sid ts fts dir cwd prov mid tl disk0 calls
    mtime created :
  let st := run_ops (create sid ts fts dir cwd true prov mid tl, disk0) calls in
  has_assistant (entries (fst st)) = true ->
  fromisoformat ts = Some created ->
  exists path lines,
    session_file (fst st) = Some path
    /\ snd st !! path = Some lines
    /\ build path lines mtime
       = Done (Some
           {| si_id := sid; si_path := path; si_cwd := cwd; si_name := None;
              si_created := created; si_modified := mtime;
              si_message_count := Z.of_nat (length (all_messages (fst st)));
              si_first_message :=
                if String.eqb (first_digest (all_messages (fst st))) ""
                then "(no messages)"
                else first_digest (all_messages (fst st)) |}).
Proof.
  intros st Ha Hts.
  pose proof (run_ops_created _ _ disk0 calls _ _
                (create_created sid ts fts dir cwd prov mid tl disk0)) as Hinv.
  fold st in Hinv. destruct st as [s disk]. cbn [fst snd] in *.
  destruct Hinv as (Hf & _ & _ & _ & _ & Hfl).
  unfold entries in *. destruct (_flushed s);
    [|destruct Hfl as [Hn _]; rewrite Hn in Ha; discriminate].
  destruct Hfl as [_ Hd].
  eexists; eexists. split; [exact Hf|]. split; [exact Hd|].
  unfold build, build_session_info, header_line, header_dump.
  cbn [scan_lines]. change (type_is _ "header") with true. cbn iota.
  rewrite header_dump_validate.
  pose proof (scan_entries (_entries s)
                (Some (mkHeader CURRENT_VERSION sid ts cwd)) 0 "") as Hscan.
  unfold scan in Hscan. rewrite Hscan. cbn [h_timestamp h_id h_cwd].
  rewrite Hts. cbn [String.eqb]. unfold all_messages. now rewrite Z.add_0_l.
Qed.

Lemma insert_by_modified_perm x l :
  Permutation (insert_by_modified datetime x l) (x :: l).
Proof.
  induction l as [|y l IH]; [reflexivity|]. cbn.
  destruct (si_modified x <? si_modified y); [|reflexivity].
  rewrite IH. apply perm_swap.
Qed.

Lemma insert_by_modified_sorted x l :
  StronglySorted (fun a b => si_modified b <= si_modified a) l ->
  StronglySorted (fun a b => si_modified b <= si_modified a)
    (insert_by_modified datetime x l).
Proof.
  induction l as [|y l IH]; intros Hs; cbn.
  - constructor; constructor.
  - inversion Hs as [|? ? Hl Hy]; subst.
    destruct (Z.ltb_spec (si_modified x) (si_modified y)) as [Hlt|Hge].
    + constructor; [now apply IH|].
      rewrite (insert_by_modified_perm x l). constructor; [lia|exact Hy].
    + constructor; [exact Hs|]. constructor; [lia|].
      eapply Forall_impl; [exact Hy|]. cbn. intros a Ha. lia.
Qed.

Lemma insert_by_modified_stable x l m :
  List.filter (fun i => si_modified i =? m) (insert_by_modified datetime x l)
  = List.filter (fun i => si_modified i =? m) (x :: l).
Proof.
  induction l as [|y l IH]; [reflexivity|].
  cbn [insert_by_modified].
  destruct (Z.ltb_spec (si_modified x) (si_modified y)) as [Hlt|Hge];
    [|reflexivity].
  cbn [List.filter] in *. rewrite IH.
  destruct (Z.eqb_spec (si_modified x) m) as [Hx|Hx];
    destruct (Z.eqb_spec (si_modified y) m) as [Hy|Hy];
    try reflexivity.
  lia.
Qed.

Lemma collect_digests files :
  match collect datetime fromisoformat slice_of_dict files with
  | Done l =>
      l = digests_of datetime fromisoformat slice_of_dict files
      /\ forall f, In f files ->
                   build (f_path f) (f_lines f) (f_mtime f) <> Fails NotCaught
  | Fails e =>
      e = NotCaught
      /\ exists f, In f files
                   /\ build (f_path f) (f_lines f) (f_mtime f)
                      = Fails NotCaught
  end.
Proof.
  unfold build.
  induction files as [|f files IH]; [split; [reflexivity|intros f []]|].
  cbn [collect digests_of flat_map].
  fold (digests_of datetime fromisoformat slice_of_dict files).
  destruct (build_session_info datetime fromisoformat slice_of_dict
              (f_path f) (f_lines f) (f_mtime f)) as [[info|]|[|]] eqn:B.
  - destruct (collect datetime fromisoformat slice_of_dict files) as [l|e].
    + destruct IH as [-> Hn]. split; [reflexivity|].
      intros g [<-|Hg]; [rewrite B; discriminate|now apply Hn].
    + destruct IH as [-> (g & Hg & Hb)]. split; [reflexivity|].
      exists g. split; [now right|exact Hb].
  - destruct (collect datetime fromisoformat slice_of_dict files) as [l|e].
    + destruct IH as [-> Hn]. split; [reflexivity|].
      intros g [<-|Hg]; [rewrite B; discriminate|now apply Hn].
    + destruct IH as [-> (g & Hg & Hb)]. split; [reflexivity|].
      exists g. split; [now right|exact Hb].
  - destruct (collect datetime fromisoformat slice_of_dict files) as [l|e].
    + destruct IH as [-> Hn]. split; [reflexivity|].
      intros g [<-|Hg]; [rewrite B; discriminate|now apply Hn].
    + destruct IH as [-> (g & Hg & Hb)]. split; [reflexivity|].
      exists g. split; [now right|exact Hb].
  - split; [reflexivity|]. exists f. split; [now left|exact B].
Qed.

(** X12. [list] fails exactly when [build_session_info] raises, on some
    file, an exception that [list] does not catch.  Otherwise it
    returns, for each file on which [build_session_info] returns a
    digest, that digest, each once (a file on which it returns [None]
    or raises a caught exception gives nothing), latest modification
    first, the digests of equal modification time in the order of the
    files. *)
Theorem list_sorted_by_modified files :
  (listing files = Fails NotCaught
   <-> exists f, In f files
                 /\ build (f_path f) (f_lines f) (f_mtime f) = Fails NotCaught)
  /\ listing files <> Fails Caught
  /\ forall l,
       listing files = Done l ->
       Permutation l (digests_of datetime fromisoformat slice_of_dict files)
       /\ StronglySorted (fun a b => si_modified b <= si_modified a) l
       /\ forall m,
            List.filter (fun i => si_modified i =? m) l
            = List.filter (fun i => si_modified i =? m)
                (digests_of datetime fromisoformat slice_of_dict files).
Proof.
  unfold listing, list_sessions.
  pose proof (collect_digests files) as H.
  destruct (collect datetime fromisoformat slice_of_dict files) as [built|e].
  - destruct H as [<- Hn]. split; [|split; [discriminate|]].
    + split; [discriminate|]. intros (f & Hf & Hb). now destruct (Hn f Hf).
    + intros l [= <-].
      induction built as [|x built (IHp & IHs & IHm)];
        [split; [reflexivity|split; [constructor|reflexivity]]|].
      cbn [sort_by_modified]. split; [|split].
      * rewrite insert_by_modified_perm. now constructor.
      * now apply insert_by_modified_sorted.
      * intros m. rewrite insert_by_modified_stable.
        cbn [List.filter]. now rewrite IHm.
  - destruct H as [-> Hex]. split; [|split; [discriminate|discriminate]].
    split; [intros _; exact Hex|reflexivity].
Qed.

Lemma scan_lines_app l1 : forall l2 h c f,
  scan (l1 ++ l2) h c f
  = match scan l1 h c f with
    | Done (h', c', f') => scan l2 h' c' f'
    | Fails err => Fails err
    end.
Proof.
  unfold scan. induction l1 as [|x l1 IHl]; intros l2 h c f; [reflexivity|].
  destruct x as [| text | data]; cbn [app scan_lines]; try apply IHl.
  destruct data; try reflexivity.
  destruct (type_is _ "header").
  - destruct (header_validate fields); [apply IHl|reflexivity].
  - destruct (type_is _ "message"); [|apply IHl].
    destruct (digest_message _ _ _); [apply IHl|reflexivity].
Qed.

Lemma scan_items_then_bad items j rest : forall header count s,
  match j with JObj _ => False | _ => True end ->
  scan (map item_line items ++ JsonLine j :: rest) header count (FText s)
  = Fails NotCaught.
Proof.
  induction items as [|i items IH]; intros header count s Hj.
  - unfold scan. cbn [map app scan_lines].
    destruct j; try reflexivity. contradiction.
  - destruct i as [| text | h | e]; cbn [map item_line app].
    + unfold scan in *. cbn [scan_lines]. now apply IH.
    + unfold scan in *. cbn [scan_lines]. now apply IH.
    + unfold scan in *. unfold header_line, header_dump. cbn [scan_lines].
      change (type_is _ "header") with true. cbn iota.
      rewrite header_dump_validate. now apply IH.
    + change (entry_line e :: map item_line items ++ JsonLine j :: rest)
        with (map entry_line [e]
              ++ (map item_line items ++ JsonLine j :: rest)).
      rewrite scan_lines_app, scan_entries. now apply IH.
Qed.

(** X13. A line that is valid JSON but not an object, after lines that
    are blank, unparseable, headers or entries, makes
    [build_session_info] fail with an exception that [list] does not
    catch: one such file in the directory makes [list], and with it
    [continue_by_id], fail instead of passing over the file. *)
Theorem list_fails_on_non_object files path items j rest mtime session_id :
  match j with JObj _ => False | _ => True end ->
  In (mkFile path (map item_line items ++ JsonLine j :: rest) mtime) files ->
  listing files = Fails NotCaught
  /\ (str_lower (str_strip session_id) <> "" ->
      resolve files session_id = ListingFailed).
Proof.
  intros Hj Hin.
  assert (Hc : collect datetime fromisoformat slice_of_dict files
               = Fails NotCaught).
  { induction files as [|f files IH]; [destruct Hin|].
    cbn [collect]. destruct Hin as [->|Hin].
    - cbn [f_path f_lines f_mtime]. unfold build_session_info.
      pose proof (scan_items_then_bad items j rest None 0 "" Hj) as Hs.
      unfold scan in Hs. now rewrite Hs.
    - specialize (IH Hin).
      destruct (build_session_info _ _ _ _ _ _) as [[info|]|[|]];
        try reflexivity; try exact IH. now rewrite IH. }
  assert (Hl : listing files = Fails NotCaught).
  { unfold listing, list_sessions. now rewrite Hc. }
  split; [exact Hl|]. intros Hn. unfold resolve, continue_by_id.
  destruct (String.eqb_spec (str_lower (str_strip session_id)) "") as [E|_];
    [contradiction|].
  unfold listing in Hl. now rewrite Hl.
Qed.

End ListingProperties.

Lemma build_session_info_written_witness :
  let st := run_ops (sample_session, ∅) sample_calls in
  has_assistant (entries (fst st)) = true
  /\ sample_fromisoformat "2026-01-01T00:00:00+00:00"
     = Some "2026-01-01T00:00:00+00:00"
  /\ exists path lines,
      session_file (fst st) = Some path
      /\ snd st !! path = Some lines
      /\ build_session_info string sample_fromisoformat Caught path lines 7
         = Done (Some
             {| si_id := "5f0c"; si_path := path; si_cwd := "/proj";
                si_name := None; si_created := "2026-01-01T00:00:00+00:00";
                si_modified := 7;
                si_message_count := Z.of_nat (length (all_messages (fst st)));
                si_first_message :=
                  if String.eqb (first_digest (all_messages (fst st))) ""
                  then "(no messages)"
                  else first_digest (all_messages (fst st)) |}).
Proof.
  intros st. split; [reflexivity|]. split; [reflexivity|].
  apply (build_session_info_written string sample_fromisoformat Caught
           "5f0c" "2026-01-01T00:00:00+00:00" "2026-01-01T00-00-00"
           "/home/u/.kon/sessions/proj" "/proj" None None "medium" ∅
           sample_calls 7 "2026-01-01T00:00:00+00:00");
    reflexivity.
Defined.

Lemma list_fails_on_non_object_witness :
  list_sessions string sample_fromisoformat Caught
    [mkFile sample_path
       (map item_line [IHeader sample_header; IEntry sample_entry]
        ++ JsonLine (JNum 42) :: []) 7]
  = Fails NotCaught.
Proof.
  apply (list_fails_on_non_object string sample_fromisoformat Caught
           (fun s => s) (fun s => s)
           [mkFile sample_path
              (map item_line [IHeader sample_header; IEntry sample_entry]
               ++ JsonLine (JNum 42) :: []) 7]
           sample_path [IHeader sample_header; IEntry sample_entry]
           (JNum 42) [] 7 "5f" I).
  now left.
Defined.

Lemma list_sorted_by_modified_witness :
  list_sessions string sample_fromisoformat Caught
    [mkFile "a.jsonl" [header_line sample_header] 3;
     mkFile "b.jsonl" [Blank] 5;
     mkFile "c.jsonl" [header_line sample_header; entry_line sample_entry] 9]
  = Done
      [mkInfo string "5f0c" "c.jsonl" "/proj" None
         "2026-01-01T00:00:00+00:00" 9 1 "Hello";
       mkInfo string "5f0c" "a.jsonl" "/proj" None
         "2026-01-01T00:00:00+00:00" 3 0 "(no messages)"]
  /\ Permutation
       [mkInfo string "5f0c" "c.jsonl" "/proj" None
          "2026-01-01T00:00:00+00:00" 9 1 "Hello";
        mkInfo string "5f0c" "a.jsonl" "/proj" None
          "2026-01-01T00:00:00+00:00" 3 0 "(no messages)"]
       (digests_of string sample_fromisoformat Caught
          [mkFile "a.jsonl" [header_line sample_header] 3;
           mkFile "b.jsonl" [Blank] 5;
           mkFile "c.jsonl"
             [header_line sample_header; entry_line sample_entry] 9]).
Proof.
  split; [reflexivity|].
  apply (proj2 (proj2 (list_sorted_by_modified string sample_fromisoformat
                         Caught
                         [mkFile "a.jsonl" [header_line sample_header] 3;
                          mkFile "b.jsonl" [Blank] 5;
                          mkFile "c.jsonl"
                            [header_line sample_header;
                             entry_line sample_entry] 9]))
           [mkInfo string "5f0c" "c.jsonl" "/proj" None
              "2026-01-01T00:00:00+00:00" 9 1 "Hello";
            mkInfo string "5f0c" "a.jsonl" "/proj" None
              "2026-01-01T00:00:00+00:00" 3 0 "(no messages)"]).
  reflexivity.
Defined.

Section ResumeProperties.

Variable datetime : Type.
Variable fromisoformat : string -> option datetime.
Variable slice_of_dict : BuildError.
Variable str_strip : string -> string.
Variable str_lower : string -> string.

Let listing := list_sessions datetime fromisoformat slice_of_dict.
Let resolve :=
  continue_by_id datetime fromisoformat slice_of_dict str_strip str_lower.

Lemma prefix_refl s : String.prefix s s = true.
Proof. induction s as [|c s IH]; cbn; [reflexivity|]. now destruct (ascii_dec c c). Qed.

Lemma filter_two {A} (f g : A -> bool) l : forall a b r,
  (forall x, f x = true -> g x = true) ->
  List.filter f l = a :: b :: r ->
  exists a' b' r', List.filter g l = a' :: b' :: r'.
Proof.
  intros a b r Hfg Hf.
  assert (Hlen : (length (List.filter f l) <= length (List.filter g l))%nat).
  { clear Hf. induction l as [|x l IH]; [reflexivity|]. cbn.
    destruct (f x) eqn:Ef.
    - rewrite (Hfg x Ef). cbn. lia.
    - destruct (g x); cbn; lia. }
  rewrite Hf in Hlen. cbn in Hlen.
  destruct (List.filter g l) as [|a' [|b' r']]; cbn in Hlen; try lia. eauto.
Qed.

(** X14. [continue_by_id], for an id that is not empty once normalized
    and a listing that does not fail: the path it loads is that of a
    listed session whose id starts with the normalized id; it reports
    not-found exactly when no listed id starts with it; a single
    session with exactly that id is loaded even when other ids start
    with it; and two listed sessions with exactly that id make it
    report an ambiguous prefix although the id was given in full. *)
Theorem continue_by_id_resolution files l session_id :
  let n := str_lower (str_strip session_id) in
  n <> "" ->
  listing files = Done l ->
  (forall p, resolve files session_id = LoadPath p ->
     exists s, In s l /\ si_path s = p
               /\ String.prefix n (str_lower (si_id s)) = true)
  /\ (resolve files session_id = NotFound
      <-> forall s, In s l -> String.prefix n (str_lower (si_id s)) = false)
  /\ (forall s,
        List.filter (fun s => String.eqb (str_lower (si_id s)) n) l = [s] ->
        resolve files session_id = LoadPath (si_path s))
  /\ (forall s1 s2 rest,
        List.filter (fun s => String.eqb (str_lower (si_id s)) n) l
        = s1 :: s2 :: rest ->
        resolve files session_id = Ambiguous).
Proof.
  intros n Hn Hl. unfold resolve, continue_by_id. fold n.
  destruct (String.eqb_spec n "") as [E|_]; [contradiction|].
  unfold listing in Hl. rewrite Hl.
  set (exact := fun s : SessionInfo datetime =>
                  String.eqb (str_lower (si_id s)) n).
  set (pre := fun s : SessionInfo datetime =>
                String.prefix n (str_lower (si_id s))).
  assert (Hep : forall x, exact x = true -> pre x = true).
  { intros x Hx. unfold exact, pre in *. apply String.eqb_eq in Hx.
    rewrite Hx. apply prefix_refl. }
  assert (Hmem : forall f s, In s (List.filter f l) ->
                             In s l /\ f s = true).
  { intros f s. apply filter_In. }
  split; [|split; [split|split]].
  - intros p.
    destruct (List.filter exact l) as [|a [|b r]] eqn:Ee.
    + destruct (List.filter pre l) as [|a' [|b' r']] eqn:Ep; try discriminate.
      intros [= <-]. destruct (Hmem pre a') as [Hin Hp]; [rewrite Ep; now left|].
      exists a'. auto.
    + intros [= <-]. destruct (Hmem exact a) as [Hin Hx]; [rewrite Ee; now left|].
      exists a. split; [exact Hin|]. split; [reflexivity|]. now apply Hep.
    + destruct (List.filter pre l) as [|a' [|b' r']] eqn:Ep; try discriminate.
      intros [= <-]. destruct (Hmem pre a') as [Hin Hp]; [rewrite Ep; now left|].
      exists a'. auto.
  - intros H s Hin. change (pre s = false).
    destruct (pre s) eqn:Ep; [|reflexivity]. exfalso.
    assert (Hf : In s (List.filter pre l)) by (apply filter_In; auto).
    destruct (List.filter exact l) as [|a [|b r]];
      destruct (List.filter pre l) as [|a' [|b' r']];
      try discriminate; destruct Hf.
  - intros H.
    assert (Hp : List.filter pre l = []).
    { destruct (List.filter pre l) as [|a r] eqn:Ep; [reflexivity|].
      destruct (Hmem pre a) as [Hin Ha]; [rewrite Ep; now left|].
      unfold pre in Ha. rewrite (H a Hin) in Ha. discriminate. }
    assert (He : List.filter exact l = []).
    { destruct (List.filter exact l) as [|a r] eqn:Ee; [reflexivity|].
      destruct (Hmem exact a) as [Hin Ha]; [rewrite Ee; now left|].
      apply Hep in Ha. unfold pre in Ha. rewrite (H a Hin) in Ha.
      discriminate. }
    now rewrite He, Hp.
  - intros s ->. reflexivity.
  - intros s1 s2 rest He.
    destruct (filter_two exact pre l s1 s2 rest Hep He) as (a' & b' & r' & Hp).
    now rewrite He, Hp.
Qed.

(** X15. [continue_recent] creates a session exactly when the directory
    holds no session file; otherwise it loads a file of the directory
    that no other file is more recent than, without looking into it. *)
Theorem continue_recent_latest (files : list File) :
  (continue_recent files = CreateNew <-> files = [])
  /\ (files <> [] ->
      exists f, In f files
                /\ continue_recent files = LoadFile (f_path f)
                /\ forall g, In g files -> f_mtime g <= f_mtime f).
Proof.
  assert (Hmax : forall rest best,
    In (most_recent best rest) (best :: rest)
    /\ forall g, In g (best :: rest) ->
                 f_mtime g <= f_mtime (most_recent best rest)).
  { induction rest as [|f rest IH]; intros best; cbn [most_recent].
    - split; [now left|]. intros g [<-|[]]. lia.
    - destruct (Z.ltb_spec (f_mtime best) (f_mtime f)) as [Hlt|Hge].
      + destruct (IH f) as [Hin Hle]. split; [now right|].
        intros g [<-|Hg]; [|now apply Hle].
        specialize (Hle f (or_introl eq_refl)). lia.
      + destruct (IH best) as [Hin Hle]. split.
        * destruct Hin as [<-|Hin]; [now left|right; now right].
        * intros g [<-|[<-|Hg]].
          -- apply Hle. now left.
          -- specialize (Hle best (or_introl eq_refl)). lia.
          -- apply Hle. now right. }
  split.
  - destruct files; cbn; split; intros; try discriminate; reflexivity.
  - destruct files as [|f rest]; [intros H; now contradiction H|]. intros _.
    destruct (Hmax rest f) as [Hin Hle].
    exists (most_recent f rest). repeat split; auto.
Qed.

End ResumeProperties.

Lemma continue_by_id_resolution_witness :
  let files := [mkFile "a.jsonl" [header_line sample_header] 3] in
  exists s,
    In s [mkInfo string "5f0c" "a.jsonl" "/proj" None
            "2026-01-01T00:00:00+00:00" 3 0 "(no messages)"]
    /\ si_path s = "a.jsonl"
    /\ String.prefix "5f" (si_id s) = true.
Proof.
  intros files.
  apply (proj1 (continue_by_id_resolution string sample_fromisoformat Caught
                  (fun s => s) (fun s => s) files
                  [mkInfo string "5f0c" "a.jsonl" "/proj" None
                     "2026-01-01T00:00:00+00:00" 3 0 "(no messages)"]
                  "5f" ltac:(discriminate) eq_refl)
           "a.jsonl").
  reflexivity.
Defined.

Lemma continue_recent_latest_witness :
  exists f,
    In f [mkFile "a.jsonl" [] 3; mkFile "b.jsonl" [] 9; mkFile "c.jsonl" [] 9]
    /\ continue_recent
         [mkFile "a.jsonl" [] 3; mkFile "b.jsonl" [] 9; mkFile "c.jsonl" [] 9]
       = LoadFile (f_path f)
    /\ forall g,
        In g [mkFile "a.jsonl" [] 3; mkFile "b.jsonl" [] 9;
              mkFile "c.jsonl" [] 9] ->
        f_mtime g <= f_mtime f.
Proof.
  apply (proj2 (continue_recent_latest
                  [mkFile "a.jsonl" [] 3; mkFile "b.jsonl" [] 9;
                   mkFile "c.jsonl" [] 9])).
  discriminate.
Defined.

(** ** The last text of the assistant *)

Section LastTextProperties.

Variable str_strip : string -> string.

Lemma last_assistant_text_skip ms : forall later,
  Forall (fun m => match m with AssistantMsg _ => False | _ => True end) ms ->
  last_assistant_text str_strip (ms ++ later)
  = last_assistant_text str_strip later.
Proof.
  induction ms as [|m ms IH]; intros later Hall; [reflexivity|].
  inversion Hall as [|? ? Hm Hms]; subst.
  destruct m; try contradiction; cbn; now apply IH.
Qed.

Lemma no_assistant_messages es :
  has_assistant es = false ->
  Forall (fun m => match m with AssistantMsg _ => False | _ => True end)
    (omap message_of es).
Proof.
  induction es as [|e es IH]; intros H; [constructor|].
  cbn in H. apply orb_false_iff in H as [He Hes].
  destruct e; cbn; try now apply IH.
  constructor; [|now apply IH]. now destruct message.
Qed.

(** X16. In a session with distinct entry ids whose most recent
    compaction is followed by no assistant message (as right after an
    overflow compaction, with or without the synthetic user message),
    [get_last_assistant_text] returns the stripped summary of that
    compaction, or nothing when it strips to the empty string: not the
    last text the assistant really wrote. *)
Theorem last_text_after_compaction s before b summary k t d after :
  NoDup (map entry_id (entries s)) ->
  entries s = before ++ CompactionEntry b summary k t d :: after ->
  existsb is_compaction after = false ->
  has_assistant after = false ->
  get_last_assistant_text str_strip s
  = if String.eqb (str_strip summary) "" then None
    else Some (str_strip summary).
Proof.
  intros Hnd Hes Hc Ha.
  assert (Hafter : Forall (fun e => is_compaction e = false) after).
  { apply Forall_forall. intros e He.
    destruct (is_compaction e) eqn:E; [|reflexivity].
    assert (existsb is_compaction after = true); [|congruence].
    apply existsb_exists. exists e. split; [now apply list_elem_of_In|exact E]. }
  assert (Hbefore : Forall (fun e => is_compaction e
                                     && String.eqb (entry_id e) (id b) = false)
                      before).
  { rewrite Hes, map_app in Hnd. cbn [map] in Hnd.
    apply NoDup_app in Hnd as (_ & Hdisj & _).
    apply Forall_forall. intros e He.
    destruct (String.eqb_spec (entry_id e) (id b)) as [Heq|_];
      [|apply andb_false_r].
    exfalso. apply (Hdisj (entry_id e)).
    + apply list_elem_of_In, in_map, list_elem_of_In, He.
    + rewrite Heq. apply list_elem_of_here. }
  unfold get_last_assistant_text.
  rewrite (messages_split s before b summary k t d after Hes Hafter Hbefore).
  cbn [rev]. rewrite <- !app_assoc.
  rewrite last_assistant_text_skip.
  - cbn [app last_assistant_text am_stop_reason am_content StopReason_eqb
         andb text_parts String.concat].
    reflexivity.
  - apply Forall_rev. now apply no_assistant_messages.
Qed.

End LastTextProperties.

Lemma last_text_after_compaction_witness :
  let s := fst (run_ops (sample_session, ∅)
                  (sample_calls
                   ++ [(sample_outside "eeeeeeee", OpMessage sample_user)])) in
  get_last_assistant_text (fun t => t) s = Some "summary".
Proof.
  intros s.
  apply (last_text_after_compaction (fun t => t) s
           [MessageEntry (mkBase "aaaaaaaa" None "2026-01-01T00:00:00+00:00")
              sample_user;
            ThinkingLevelChangeEntry
              (mkBase "bbbbbbbb" (Some "aaaaaaaa") "2026-01-01T00:00:00+00:00")
              "high";
            MessageEntry
              (mkBase "cccccccc" (Some "bbbbbbbb") "2026-01-01T00:00:00+00:00")
              sample_assistant]
           (mkBase "dddddddd" (Some "cccccccc") "2026-01-01T00:00:00+00:00")
           "summary" "cccccccc" 17 (Some [("removed", JNum 5)])
           [MessageEntry
              (mkBase "eeeeeeee" (Some "dddddddd") "2026-01-01T00:00:00+00:00")
              sample_user]);
    [apply (bool_decide_unpack _); vm_compute; exact I
    | reflexivity | reflexivity | reflexivity].
Defined.

(* ===================================================================== *)
(** * More properties of the turn executor *)
(* ===================================================================== *)

(** ** Counting and projecting events *)

Lemma count_app kind a b :
  count kind (a ++ b) = (count kind a + count kind b)%nat.
Proof.
  induction a as [|e a IH]; [reflexivity|]. cbn. rewrite IH. lia.
Qed.

Lemma count_none (p q : Event -> bool) evs :
  forallb p evs = true ->
  (forall e, p e = true -> q e = false) ->
  count q evs = 0%nat.
Proof.
  intros Hall Hpq. induction evs as [|e evs IH]; [reflexivity|].
  cbn in Hall. apply andb_true_iff in Hall as [He Hr].
  cbn. rewrite (Hpq e He), (IH Hr). reflexivity.
Qed.

Lemma count_none_in q evs e :
  count q evs = 0%nat -> In e evs -> q e = false.
Proof.
  induction evs as [|x evs IH]; intros Hc Hin; [destruct Hin|].
  cbn in Hc. destruct Hin as [->|Hin].
  - destruct (q e); [discriminate|reflexivity].
  - apply IH; [|exact Hin]. destruct (q x); [discriminate|exact Hc].
Qed.

Lemma results_of_app a b : results_of (a ++ b) = results_of a ++ results_of b.
Proof.
  induction a as [|e a IH]; [reflexivity|].
  destruct e; cbn; try exact IH.
  match goal with
  | |- context [match ?r with Some _ => _ | None => _ end] => destruct r
  end; cbn; congruence.
Qed.

Lemma results_of_none evs :
  count is_tool_result evs = 0%nat -> results_of evs = [].
Proof.
  induction evs as [|e evs IH]; [reflexivity|].
  destruct e; cbn; try exact IH; discriminate.
Qed.

Lemma tool_calls_of_app a b :
  tool_calls_of (a ++ b) = tool_calls_of a ++ tool_calls_of b.
Proof.
  induction a as [|c a IH]; [reflexivity|].
  destruct c; cbn; now rewrite ?IH.
Qed.

Lemma tool_calls_of_map fin :
  tool_calls_of (map (fun p => ToolCallContent (tool_call p)) fin)
  = map tool_call fin.
Proof. induction fin as [|p fin IH]; cbn; now rewrite ?IH. Qed.

Lemma stream_calls_yields evs : stream_calls (yields evs) = 0%nat.
Proof. induction evs; cbn; auto. Qed.

Lemma sleeps_of_app a b : sleeps_of (a ++ b) = sleeps_of a ++ sleeps_of b.
Proof.
  induction a as [|x a IH]; [reflexivity|]. destruct x; cbn; now rewrite ?IH.
Qed.

Lemma sleeps_of_yields evs : sleeps_of (yields evs) = [].
Proof. induction evs; cbn; auto. Qed.

(** ** The state after the chunk loop *)

Lemma finalize_shape include_empty st :
  forallb streamed (snd (_finalize_current_state include_empty st)) = true
  /\ count is_warning (snd (_finalize_current_state include_empty st)) = 0%nat
  /\ count is_token_update (snd (_finalize_current_state include_empty st))
     = 0%nat
  /\ count is_args_delta (snd (_finalize_current_state include_empty st))
     = 0%nat
  /\ tool_calls_of (content (fst (_finalize_current_state include_empty st)))
     = tool_calls_of (content st)
  /\ _tool_arg_chunk_counter (fst (_finalize_current_state include_empty st))
     = _tool_arg_chunk_counter st
  /\ (in_tool_call_path (fst (_finalize_current_state include_empty st)) = true
      -> in_tool_call_path st = true).
Proof.
  destruct st as [ct tb ts xb pend cur cc tc cs sr intr].
  unfold _finalize_current_state, in_tool_call_path.
  cbn [current_state current_tool_call think_buffer text_buffer
       think_signature content pending_tool_calls].
  destruct cs as [[| |]|]; destruct cur; destruct include_empty; cbn [orb];
    try destruct (negb _); cbn; rewrite ?tool_calls_of_app, ?app_nil_r;
    repeat split; auto.
Qed.

Lemma on_part_shape st p :
  forallb streamed (snd (on_part st p)) = true
  /\ count is_warning (snd (on_part st p)) = 0%nat
  /\ tool_calls_of (content (fst (on_part st p))) = tool_calls_of (content st)
  /\ (in_tool_call_path (fst (on_part st p)) = true ->
      in_tool_call_path st = true \/ is_tool_call_start p = true).
Proof.
  destruct st as [ct tb ts xb pend cur cc tc cs sr intr].
  unfold in_tool_call_path.
  destruct p as [t sig|t|id name idx|idx delta|reason|err];
    cbn [on_part current_state current_tool_call think_buffer text_buffer
         think_signature content pending_tool_calls is_tool_call_start].
  4: { destruct cur as [c|]; [|cbn; repeat split; auto].
       cbn [set_current_tool_call set_counters _tool_arg_chunk_counter
            _tool_arg_token_count d_id d_name d_arguments].
       destruct (_ && _); cbn; repeat split; auto. }
  all: destruct cs as [[| |]|]; destruct cur; try destruct sig as [[|? ?]|];
    cbn; rewrite ?tool_calls_of_app, ?app_nil_r; repeat split; auto.
Qed.
Lemma promote_shape st :
  interrupted (promote_stop_reason st) = interrupted st
  /\ content (promote_stop_reason st) = content st
  /\ pending_tool_calls (promote_stop_reason st) = pending_tool_calls st
  /\ (stop_reason (promote_stop_reason st) = STOP ->
      pending_tool_calls st = []).
Proof.
  unfold promote_stop_reason.
  destruct st as [ct tb ts xb pend cur cc tc cs sr intr].
  cbn [pending_tool_calls stop_reason].
  destruct pend, sr; cbn; repeat split; auto; discriminate.
Qed.

(** A tool-result message of [_execute_tool] answers its call whatever
    the tool does. *)
Lemma execute_tool_answers tool_call tool :
  answers tool_call (_execute_tool tool_call tool).
Proof.
  unfold answers, _execute_tool.
  destruct tool as [t|]; [|repeat split; discriminate].
  destruct (params t (arguments tool_call)) as [p|e];
    [|repeat split; discriminate].
  destruct (execute t p) as [r|e]; [|repeat split; discriminate].
  cbn. repeat split.
  destruct (truthy (result r)), (images r) as [[|i imgs]|]; discriminate.
Qed.

Section TurnShape.

Variable json_loads : string -> option json.
Variable get_tool : string -> option BaseTool.
Variable format_g : Q -> string.
Variable cancel_event : bool.
Variable w : World.
Variable idle : Q.

Lemma chunk_loop_shape ps : forall i st,
  interrupted st = false ->
  loop_post st (fst (chunk_loop format_g cancel_event w idle ps i st))
    (snd (chunk_loop format_g cancel_event w idle ps i st)).
Proof.
  assert (Hend : forall include_empty st,
    interrupted st = false ->
    loop_post st
      (promote_stop_reason (fst (_finalize_current_state include_empty st)))
      (snd (_finalize_current_state include_empty st))).
  { intros ie st Hi.
    destruct (finalize_shape ie st) as (Hs & _ & _ & _ & Hc & _).
    destruct (finalize_flags ie st) as [_ Hint].
    destruct (promote_shape (fst (_finalize_current_state ie st)))
      as (Pi & Pc & Pp & Ps).
    unfold loop_post. rewrite Pi, Pc, Pp, Hint, Hi.
    repeat split; auto. discriminate. }
  induction ps as [|p ps IH]; intros i st Hi.
  - cbn [chunk_loop]. destruct (fetch cancel_event w idle i st) as [|t|].
    + destruct st; cbn in *; unfold loop_post; cbn; repeat split; auto.
      discriminate.
    + specialize (Hend false st Hi).
      destruct (_finalize_current_state false st) as [st1 ev1].
      cbn [fst snd] in *. destruct Hend as (H1 & H2 & H3 & H4).
      repeat split; auto.
    + specialize (Hend true st Hi).
      destruct (_finalize_current_state true st) as [st1 ev1].
      exact Hend.
  - cbn [chunk_loop]. destruct (fetch cancel_event w idle i st) as [|t|].
    + destruct st; cbn in *; unfold loop_post; cbn; repeat split; auto.
      discriminate.
    + specialize (Hend false st Hi).
      destruct (_finalize_current_state false st) as [st1 ev1].
      cbn [fst snd] in *. destruct Hend as (H1 & H2 & H3 & H4).
      repeat split; auto.
    + destruct (on_part_shape st p) as (Hs & _ & Hc & _).
      pose proof (on_part_interrupted st p) as Hint.
      destruct (on_part st p) as [st1 ev1]. cbn [fst snd] in *.
      rewrite Hi in Hint. specialize (IH (S i) st1 Hint).
      destruct (chunk_loop format_g cancel_event w idle ps (S i) st1)
        as [st2 later].
      cbn [fst snd] in *. destruct IH as (H1 & H2 & H3 & H4).
      unfold loop_post. rewrite forallb_app, Hs, H1, H2, Hc.
      repeat split; auto.
Qed.

Lemma consume_shape ps st :
  interrupted st = false ->
  let r := consume format_g cancel_event w idle ps 0%nat st in
  forallb streamed (snd r) = true
  /\ tool_calls_of (content (fst r)) = tool_calls_of (content st)
  /\ (interrupted (fst r) = true -> stop_reason (fst r) = INTERRUPTED)
  /\ (stop_reason (fst r) = STOP -> pending_tool_calls (fst r) = []).
Proof.
  intros Hi. unfold consume.
  destruct (chunk_loop_shape ps 0%nat st Hi) as (H1 & H2 & H3 & H4).
  destruct (chunk_loop format_g cancel_event w idle ps 0 st) as [st1 ev1].
  cbn [fst snd] in *.
  destruct (interrupted st1) eqn:E.
  - destruct (finalize_shape false st1) as (Hs & _ & _ & _ & Hc & _).
    destruct (finalize_flags false st1) as [Hsr Hint].
    destruct (_finalize_current_state false st1) as [st2 ev2].
    cbn [fst snd] in *. rewrite forallb_app, H1, Hs, Hc, H2, Hsr, Hint.
    repeat split; auto. rewrite (H3 eq_refl). discriminate.
  - cbn [fst snd]. rewrite app_nil_r. repeat split; auto. congruence.
Qed.

(** The hooks behind the tool-end events: what was finalized before an
    exception, one tool-end event each. *)
Lemma finalize_tools_shape pending :
  let r := finalize_tools json_loads get_tool pending in
  forallb is_tool_end (snd (fst r)) = true
  /\ match snd r with
     | Some e =>
         exists d, In d pending
                   /\ _finalize_tool_call_data json_loads get_tool d = Throw e
     | None => map (fun p => tc_id (tool_call p)) (fst (fst r))
               = map d_id pending
     end.
Proof.
  induction pending as [|d pending IH]; [cbn; auto|].
  cbn [finalize_tools].
  destruct (_finalize_tool_call_data json_loads get_tool d) as [p|e] eqn:E.
  - pose proof (finalize_data_id json_loads get_tool d p E) as Hid.
    destruct (finalize_tools json_loads get_tool pending)
      as [[fin evs] exc].
    cbn [fst snd] in *. destruct IH as [Hev Hexc]. split; [exact Hev|].
    destruct exc as [e|].
    + destruct Hexc as (d' & Hin & Hd'). exists d'. split; [now right|exact Hd'].
    + cbn [map]. now rewrite Hid, Hexc.
  - cbn. split; [reflexivity|]. exists d. split; [now left|exact E].
Qed.

Lemma create_skipped_answers tool_call reason :
  answers tool_call (_create_skipped_tool_result tool_call reason).
Proof. repeat split. discriminate. Qed.

(** The second loop yields one tool-result event per finalized call, in
    order, each answering its call. *)
Lemma execute_tools_shape fin : forall i,
  let r := execute_tools cancel_event w fin i in
  results_of (events_of (snd r)) = fst r
  /\ Forall2 answers (map tool_call fin) (fst r)
  /\ forallb is_tool_result (events_of (snd r)) = true
  /\ stream_calls (snd r) = 0%nat
  /\ sleeps_of (snd r) = [].
Proof.
  induction fin as [|p fin IH]; intros i; [cbn; repeat split; constructor|].
  cbn [execute_tools]. specialize (IH (S i)).
  destruct (execute_tools cancel_event w fin (S i)) as [results later].
  cbn [fst snd] in IH. destruct IH as (H1 & H2 & H3 & H4 & H5).
  destruct (cancel_event && is_set_at_tool w i); cbn [fst snd map app];
    rewrite ?events_of_app; cbn [events_of results_of forallb is_tool_result
                                  stream_calls sleeps_of andb app];
    rewrite H1, H3, H4, H5; repeat split; try reflexivity;
    constructor; auto using execute_tool_answers, create_skipped_answers.
Qed.

End TurnShape.

Section TurnRuns.

Variable json_loads : string -> option json.
Variable get_tool : string -> option BaseTool.
Variable format_g : Q -> string.
Variable cancel_event : bool.
Variable w : World.
Variable idle : Q.

Let eaten (s : LLMStream) :=
  consume format_g cancel_event w idle (parts s) 0%nat initial_state.
Let drive := drive_stream json_loads get_tool format_g cancel_event w idle.
Let run := run_single_turn json_loads get_tool format_g cancel_event w idle.

(** The run of a turn whose stream was opened: the events of the chunk
    loop, the tool-end events, then, unless a hook of a tool raised, the
    tool-result events, the interrupted event if the turn was cut, and
    the turn-end event. *)
Lemma drive_shape turn s :
  exists tool_ends,
    forallb streamed (snd (eaten s)) = true
    /\ forallb is_tool_end tool_ends = true
    /\ stream_calls (trace (drive turn s)) = 0%nat
    /\ sleeps_of (trace (drive turn s)) = []
    /\ match raised (drive turn s) with
       | Some e =>
           events_of (trace (drive turn s)) = snd (eaten s) ++ tool_ends
           /\ exists d, _finalize_tool_call_data json_loads get_tool d = Throw e
       | None =>
           exists result_events results content sr intr,
             events_of (trace (drive turn s))
             = snd (eaten s) ++ tool_ends ++ result_events
               ++ (if intr : bool
                   then [InterruptedEvent "Interrupted by user"] else [])
               ++ [TurnEndEvent turn
                     (Some (mkAssistantMessage content (stream_usage s) sr))
                     results sr]
             /\ forallb is_tool_result result_events = true
             /\ results_of result_events = results
             /\ Forall2 answers (tool_calls_of content) results
             /\ (intr = true -> sr = INTERRUPTED)
             /\ (sr = STOP -> results = [])
       end.
Proof.
  unfold drive, drive_stream, eaten.
  destruct (consume_shape format_g cancel_event w idle (parts s) initial_state
              eq_refl) as (Hs & Hc & Hi & Hp).
  destruct (consume format_g cancel_event w idle (parts s) 0 initial_state)
    as [st evs].
  cbn [fst snd] in *.
  pose proof (finalize_tools_shape json_loads get_tool (pending_tool_calls st))
    as Hf.
  assert (Hnil : pending_tool_calls st = [] ->
                 fst (fst (finalize_tools json_loads get_tool
                             (pending_tool_calls st))) = [])
    by (intros ->; reflexivity).
  destruct (finalize_tools json_loads get_tool (pending_tool_calls st))
    as [[fin ends] exc].
  cbn [fst snd] in *. destruct Hf as [He Hx].
  exists ends. split; [exact Hs|]. split; [exact He|].
  destruct exc as [e|].
  - cbn [trace raised]. rewrite stream_calls_yields, sleeps_of_yields.
    rewrite events_of_yields. repeat split; auto.
    destruct Hx as (d & _ & Hd). now exists d.
  - destruct (execute_tools_shape cancel_event w fin 0%nat)
      as (R1 & R2 & R3 & R4 & R5).
    destruct (execute_tools cancel_event w fin 0) as [results effects].
    cbn [fst snd trace raised] in *.
    rewrite !stream_calls_app, !sleeps_of_app, !events_of_app.
    rewrite stream_calls_yields, sleeps_of_yields, events_of_yields, R4, R5.
    split; [now destruct (interrupted st)|].
    split; [now destruct (interrupted st)|].
    exists (events_of effects), results,
      (content st ++ map (fun p => ToolCallContent (tool_call p)) fin),
      (stop_reason st), (interrupted st).
    split.
    { rewrite <- !app_assoc. do 3 f_equal. now destruct (interrupted st). }
    split; [exact R3|]. split; [exact R1|].
    split.
    { rewrite tool_calls_of_app, Hc, tool_calls_of_map. exact R2. }
    split; [exact Hi|].
    intros Hstop. specialize (Hnil (Hp Hstop)). subst fin.
    now inversion R2.
Qed.

(** The retry loop over [[*delays, None]]: one call of the provider more
    than there are retry events, one sleep per retry event, and the loop
    never runs out. *)
Lemma open_stream_shape provider turn total ds : forall k,
  let o := open_stream provider turn total k (map Some ds ++ [None]) in
  let n := count is_retry (events_of (fst o)) in
  stream_calls (fst o) = S n
  /\ sleeps_of (fst o) = firstn n ds
  /\ (n <= length ds)%nat
  /\ exists retries,
       forallb is_retry retries = true
       /\ match snd o with
          | Opened s =>
              events_of (fst o) = retries
              /\ stream provider (k + n)%nat = Return s
          | GaveUp =>
              exists err,
                events_of (fst o)
                = retries ++ [ErrorEvent err; TurnEndEvent turn None [] ERROR]
          | NeverOpened => False
          end.
Proof.
  induction ds as [|d ds IH]; intros k.
  - cbn [map app open_stream]. destruct (stream provider k) as [s|e] eqn:E.
    + cbn. repeat split; auto. exists []. rewrite Nat.add_0_r. auto.
    + replace (match should_retry_for_error provider e with
               | true | _ => _ end)
        with ([CallStream k; Yield (ErrorEvent (str e));
               Yield (TurnEndEvent turn None [] ERROR)], GaveUp)
        by now destruct (should_retry_for_error provider e).
      cbn. repeat split; auto. exists []. split; [reflexivity|].
      now exists (str e).
  - cbn [map app open_stream]. destruct (stream provider k) as [s|e] eqn:E.
    + cbn. repeat split; auto; [lia|]. exists []. rewrite Nat.add_0_r. auto.
    + destruct (should_retry_for_error provider e).
      * specialize (IH (S k)).
        destruct (open_stream provider turn total (S k) (map Some ds ++ [None]))
          as [later o].
        cbn [fst snd] in *. cbn [app events_of count is_retry stream_calls
                                 sleeps_of Nat.add].
        destruct IH as (H1 & H2 & H3 & retries & Hr & Ho).
        rewrite H1, H2. cbn [firstn length]. repeat split; auto; [lia|].
        exists (RetryEvent (Z.of_nat k + 1) total d (str e) :: retries).
        split; [exact Hr|].
        destruct o as [s| |]; [| |exact Ho].
        -- destruct Ho as [Hev Hs]. split; [now rewrite Hev|].
           rewrite <- Hs. f_equal. lia.
        -- destruct Ho as [err Hev]. exists err. now rewrite Hev.
      * cbn. repeat split; auto; [lia|]. exists []. split; [reflexivity|].
        now exists (str e).
Qed.

(** The three ways a turn runs. *)
Lemma run_shape provider turn retry_delays :
  let delays := match retry_delays with
                | Some d => d
                | None => default_retry_delays
                end in
  (cancel_event && is_set_at_entry w = true
   /\ run provider turn retry_delays
      = mkRun (yields [InterruptedEvent "Interrupted by user";
                       TurnEndEvent turn None [] INTERRUPTED]) None)
  \/ (cancel_event && is_set_at_entry w = false
      /\ exists retries,
          forallb is_retry retries = true
          /\ stream_calls (trace (run provider turn retry_delays))
             = S (length retries)
          /\ sleeps_of (trace (run provider turn retry_delays))
             = firstn (length retries) delays
          /\ (length retries <= length delays)%nat
          /\ ((exists err,
                 events_of (trace (run provider turn retry_delays))
                 = retries ++ [ErrorEvent err; TurnEndEvent turn None [] ERROR]
                 /\ raised (run provider turn retry_delays) = None)
              \/ (exists s,
                    stream provider (length retries) = Return s
                    /\ events_of (trace (run provider turn retry_delays))
                       = retries ++ events_of (trace (drive turn s))
                    /\ raised (run provider turn retry_delays)
                       = raised (drive turn s)))).
Proof.
  intros delays. unfold run, run_single_turn.
  destruct (cancel_event && is_set_at_entry w); [left; auto|right].
  split; [reflexivity|]. fold delays.
  pose proof (open_stream_shape provider turn (Z.of_nat (length delays))
                delays 0%nat) as H.
  destruct (open_stream provider turn (Z.of_nat (length delays)) 0
              (map Some delays ++ [None])) as [opening o].
  cbn [fst snd] in H. destruct H as (H1 & H2 & H3 & retries & Hr & Ho).
  assert (Hlen : forall l, forallb is_retry l = true ->
                           count is_retry l = length l).
  { induction l as [|e l IHl]; [reflexivity|]. cbn.
    intros H. apply andb_true_iff in H as [-> Hl]. now rewrite IHl. }
  exists retries. split; [exact Hr|].
  destruct o as [s| |]; [| |destruct Ho].
  - destruct Ho as [Hev Hs]. rewrite Hev, (Hlen _ Hr) in *.
    destruct (drive_shape turn s) as (_ & _ & _ & D1 & D2 & _).
    fold (drive turn s). cbn [trace raised].
    rewrite stream_calls_app, sleeps_of_app, events_of_app, D1, D2, H1, H2.
    rewrite app_nil_r, Nat.add_0_r, Hev.
    repeat split; auto. right. exists s. auto.
  - destruct Ho as [err Hev]. cbn [trace raised].
    assert (Hc : count is_retry (events_of opening) = length retries).
    { rewrite Hev, count_app, (Hlen _ Hr). cbn. lia. }
    rewrite Hc in *. repeat split; auto. left. exists err. auto.
Qed.

End TurnRuns.

Lemma count_all kind evs :
  forallb kind evs = true -> count kind evs = length evs.
Proof.
  induction evs as [|e evs IH]; [reflexivity|]. cbn.
  intros H. apply andb_true_iff in H as [-> Hl]. now rewrite IH.
Qed.

Ltac kinds :=
  let e := fresh "e" in
  intros e; destruct e; cbn; intros; congruence.

Ltac no_such kind :=
  rewrite ?count_app;
  repeat match goal with
         | H : forallb ?p ?l = true |- context [count kind ?l] =>
             rewrite (count_none p kind l H ltac:(kinds))
         end;
  cbn [count is_retry is_turn_end is_interrupted is_warning is_token_update
       is_args_delta is_tool_result Nat.add].

Lemma open_stream_succeeds provider turn total errors s ds : forall a k,
  (k <= length ds)%nat ->
  (forall j, (j < k)%nat ->
             stream provider (a + j)%nat = Throw (errors (a + j)%nat)
             /\ should_retry_for_error provider (errors (a + j)%nat) = true) ->
  stream provider (a + k)%nat = Return s ->
  events_of (fst (open_stream provider turn total a (map Some ds ++ [None])))
  = retry_events errors total a (firstn k ds)
  /\ snd (open_stream provider turn total a (map Some ds ++ [None]))
     = Opened s.
Proof.
  induction ds as [|d ds IH]; intros a k Hk Hfail Hs.
  - cbn in Hk. assert (k = 0%nat) by lia. subst k.
    rewrite Nat.add_0_r in Hs. cbn [map app open_stream]. now rewrite Hs.
  - destruct k as [|k].
    + rewrite Nat.add_0_r in Hs. cbn [map app open_stream]. now rewrite Hs.
    + cbn [map app open_stream].
      destruct (Hfail 0%nat ltac:(lia)) as [Hthrow Hretry].
      rewrite Nat.add_0_r in Hthrow, Hretry. rewrite Hthrow, Hretry.
      destruct (IH (S a) k) as [Hev Ho].
      * cbn in Hk. lia.
      * intros j Hj. replace (S a + j)%nat with (a + S j)%nat by lia.
        apply Hfail. lia.
      * now replace (S a + k)%nat with (a + S k)%nat by lia.
      * destruct (open_stream provider turn total (S a) (map Some ds ++ [None]))
          as [later o].
        cbn [fst snd] in *. cbn [app events_of firstn retry_events].
        now rewrite Hev, Ho.
Qed.

Section TurnOutcomes.

Variable json_loads : string -> option json.
Variable get_tool : string -> option BaseTool.
Variable format_g : Q -> string.
Variable cancel_event : bool.
Variable w : World.
Variable idle : Q.

Let drive := drive_stream json_loads get_tool format_g cancel_event w idle.
Let run := run_single_turn json_loads get_tool format_g cancel_event w idle.

(** X17. A turn that returns ends with a turn-end event of its own turn
    number, and yields no other turn-end event.  A turn that an
    exception of [_finalize_tool_call_data] ends yields no turn-end
    event.  The retry loop over the delays followed by [None] never
    runs out: it opens a stream or ends the turn, so that the assertion
    that follows it holds. *)
Theorem turn_end_closes_run provider turn retry_delays :
  let r := run provider turn retry_delays in
  match raised r with
  | None =>
      exists before assistant_message tool_results stop_reason,
        events_of (trace r)
        = before ++ [TurnEndEvent turn assistant_message tool_results
                       stop_reason]
        /\ count is_turn_end before = 0%nat
  | Some e => count is_turn_end (events_of (trace r)) = 0%nat
  end
  /\ forall total_attempts delays,
       snd (open_stream provider turn total_attempts 0%nat
              (map Some delays ++ [None])) <> NeverOpened.
Proof.
  intros r. subst r. unfold run, drive in *. split.
  2: { intros total delays.
       destruct (open_stream_shape provider turn total delays 0%nat)
         as (_ & _ & _ & retries & _ & Ho).
       destruct (snd (open_stream provider turn total 0
                        (map Some delays ++ [None])));
         [discriminate|discriminate|destruct Ho]. }
  destruct (run_shape json_loads get_tool format_g cancel_event w idle
              provider turn retry_delays)
    as [[_ Hrun] | (_ & retries & Hr & _ & _ & _ & [Hgave | Hopen])].
  - rewrite Hrun. cbn.
    exists [InterruptedEvent "Interrupted by user"], None, [], INTERRUPTED.
    auto.
  - destruct Hgave as (err & Hev & Hraised). rewrite Hraised, Hev.
    exists (retries ++ [ErrorEvent err]), None, [], ERROR.
    rewrite <- app_assoc. split; [reflexivity|]. now no_such is_turn_end.
  - destruct Hopen as (s & _ & Hev & Hraised). rewrite Hraised, Hev.
    destruct (drive_shape json_loads get_tool format_g cancel_event w idle
                turn s) as (ends & Hs & He & _ & _ & Hd).
    destruct (raised (drive_stream json_loads get_tool format_g cancel_event
                        w idle turn s)) as [e|].
    + destruct Hd as [Hd Hexc]. rewrite Hd. now no_such is_turn_end.
    + destruct Hd as (revs & results & content & sr & intr & Hd & Hres & _).
      rewrite Hd.
      exists (retries
              ++ snd (consume format_g cancel_event w idle (parts s) 0
                        initial_state)
              ++ ends ++ revs
              ++ (if intr then [InterruptedEvent "Interrupted by user"]
                  else [])),
        (Some (mkAssistantMessage content (stream_usage s) sr)), results, sr.
      split; [now rewrite <- !app_assoc|].
      no_such is_turn_end. now destruct intr.
Qed.

(** X18. When a turn ends with an assistant message, the tool results of
    its turn-end event answer the tool calls of that message one by one,
    in order: same id, same name, some content.  They are the results
    the tool-result events carried, the stop reason of the event is that
    of the message, and a turn that stops with STOP ran no tool. *)
Theorem tool_results_answer_tool_calls provider turn retry_delays
    before t a results sr :
  events_of (trace (run provider turn retry_delays))
  = before ++ [TurnEndEvent t (Some a) results sr] ->
  t = turn
  /\ am_stop_reason a = sr
  /\ Forall2 answers (tool_calls_of (am_content a)) results
  /\ results_of before = results
  /\ (sr = STOP -> results = [])
  /\ raised (run provider turn retry_delays) = None.
Proof.
  intros Hlast. unfold run, drive in *.
  assert (Hone : (1 <= count is_turn_end
                         (events_of (trace (run provider turn retry_delays))))
                   %nat).
  { unfold run. rewrite Hlast, count_app. cbn. lia. }
  unfold run in Hone.
  destruct (run_shape json_loads get_tool format_g cancel_event w idle
              provider turn retry_delays)
    as [[_ Hrun] | (_ & retries & Hr & _ & _ & _ & [Hgave | Hopen])].
  - rewrite Hrun in Hlast. cbn in Hlast.
    change [InterruptedEvent "Interrupted by user";
            TurnEndEvent turn None [] INTERRUPTED]
      with ([InterruptedEvent "Interrupted by user"]
            ++ [TurnEndEvent turn None [] INTERRUPTED]) in Hlast.
    apply app_inj_tail in Hlast as [_ Hlast]. discriminate.
  - destruct Hgave as (err & Hev & _). rewrite Hev in Hlast.
    change (retries ++ [ErrorEvent err; TurnEndEvent turn None [] ERROR])
      with (retries ++ [ErrorEvent err] ++ [TurnEndEvent turn None [] ERROR])
      in Hlast.
    rewrite app_assoc in Hlast.
    apply app_inj_tail in Hlast as [_ Hlast]. discriminate.
  - destruct Hopen as (s & _ & Hev & Hraised). rewrite Hraised.
    rewrite Hev in Hlast, Hone.
    destruct (drive_shape json_loads get_tool format_g cancel_event w idle
                turn s) as (ends & Hs & He & _ & _ & Hd).
    destruct (raised (drive_stream json_loads get_tool format_g cancel_event
                        w idle turn s)) as [e|].
    + exfalso. destruct Hd as [Hd _]. rewrite Hd in Hone.
      revert Hone. no_such is_turn_end. lia.
    + destruct Hd as (revs & results' & content & sr' & intr & Hd & Hrevs
                      & Hres & Hans & Hint & Hstop).
      rewrite Hd, !app_assoc in Hlast.
      apply app_inj_tail in Hlast as [Hbefore Hend].
      injection Hend as <- <- <- <-.
      repeat split; auto.
      rewrite <- Hbefore, !results_of_app.
      rewrite (results_of_none retries) by now no_such is_tool_result.
      rewrite (results_of_none (snd _)) by now no_such is_tool_result.
      rewrite (results_of_none ends) by now no_such is_tool_result.
      rewrite Hres. cbn [app]. destruct intr; cbn; now rewrite app_nil_r.
Qed.

(** X19. An interrupted event is the last event of a turn before its
    turn-end event, which then has stop reason INTERRUPTED; the turn
    yields no other interrupted event, and it returns. *)
Theorem interrupted_event_ends_turn provider turn retry_delays message :
  In (InterruptedEvent message)
     (events_of (trace (run provider turn retry_delays))) ->
  exists before assistant_message tool_results,
    events_of (trace (run provider turn retry_delays))
    = before ++ [InterruptedEvent "Interrupted by user";
                 TurnEndEvent turn assistant_message tool_results INTERRUPTED]
    /\ count is_interrupted before = 0%nat
    /\ raised (run provider turn retry_delays) = None.
Proof.
  intros Hin. unfold run, drive in *.
  assert (Hsome : count is_interrupted
                    (events_of (trace (run provider turn retry_delays)))
                  <> 0%nat).
  { intros Hc. pose proof (count_none_in _ _ _ Hc Hin). discriminate. }
  clear Hin. unfold run in Hsome.
  destruct (run_shape json_loads get_tool format_g cancel_event w idle
              provider turn retry_delays)
    as [[_ Hrun] | (_ & retries & Hr & _ & _ & _ & [Hgave | Hopen])].
  - rewrite Hrun. cbn. exists [], None, []. auto.
  - exfalso. destruct Hgave as (err & Hev & _). rewrite Hev in Hsome.
    apply Hsome. now no_such is_interrupted.
  - destruct Hopen as (s & _ & Hev & Hraised). rewrite Hraised.
    rewrite Hev in Hsome |- *.
    destruct (drive_shape json_loads get_tool format_g cancel_event w idle
                turn s) as (ends & Hs & He & _ & _ & Hd).
    destruct (raised (drive_stream json_loads get_tool format_g cancel_event
                        w idle turn s)) as [e|].
    + exfalso. destruct Hd as [Hd _]. rewrite Hd in Hsome.
      apply Hsome. now no_such is_interrupted.
    + destruct Hd as (revs & results & content & sr & intr & Hd & Hrevs
                      & Hres & Hans & Hint & Hstop).
      rewrite Hd in Hsome |- *. destruct intr.
      * rewrite (Hint eq_refl).
        exists (retries
                ++ snd (consume format_g cancel_event w idle (parts s) 0
                          initial_state)
                ++ ends ++ revs),
          (Some (mkAssistantMessage content (stream_usage s) INTERRUPTED)),
          results.
        split; [now rewrite <- !app_assoc|]. split; [|reflexivity].
        now no_such is_interrupted.
      * exfalso. apply Hsome. now no_such is_interrupted.
Qed.

(** X20. Unless the turn is cancelled at entry, the provider is called
    once more than there are retry events, so at most once more than
    there are delays; the generator sleeps once per retry event, for the
    delays of the schedule in order, and nowhere else. *)
Theorem provider_calls_follow_schedule provider turn retry_delays :
  let r := run provider turn retry_delays in
  let delays := match retry_delays with
                | Some d => d
                | None => default_retry_delays
                end in
  let retries := count is_retry (events_of (trace r)) in
  stream_calls (trace r)
  = (if cancel_event && is_set_at_entry w then 0 else S retries)%nat
  /\ sleeps_of (trace r) = firstn retries delays
  /\ (retries <= length delays)%nat.
Proof.
  intros r delays n. subst r n. unfold run, drive in *.
  destruct (run_shape json_loads get_tool format_g cancel_event w idle
              provider turn retry_delays)
    as [[Hc Hrun] | (Hc & retries & Hr & H1 & H2 & H3 & [Hgave | Hopen])];
    try fold delays in H2, H3; rewrite Hc.
  - rewrite Hrun. cbn. repeat split. lia.
  - destruct Hgave as (err & Hev & _).
    assert (Hn : count is_retry
                   (events_of (trace (run provider turn retry_delays)))
                 = length retries).
    { unfold run. rewrite Hev, count_app, (count_all _ _ Hr). cbn. lia. }
    unfold run in Hn. rewrite Hn. auto.
  - destruct Hopen as (s & _ & Hev & _).
    assert (Hn : count is_retry
                   (events_of (trace (run provider turn retry_delays)))
                 = length retries).
    { unfold run. rewrite Hev, count_app, (count_all _ _ Hr).
      destruct (drive_shape json_loads get_tool format_g cancel_event w idle
                  turn s) as (ends & Hs & He & _ & _ & Hd).
        destruct (raised (drive_stream json_loads get_tool format_g cancel_event
                            w idle turn s)) as [e|].
      - destruct Hd as [Hd _]. rewrite Hd. no_such is_retry. lia.
      - destruct Hd as (revs & results & content & sr & intr & Hd & Hrevs & _).
        rewrite Hd. no_such is_retry. destruct intr; cbn; lia. }
    unfold run in Hn. rewrite Hn. auto.
Qed.

(** X21. When the first [k] calls of the provider fail with retryable
    errors and the next one opens a stream, with [k] at most the number
    of delays, the turn yields one retry event per failure and then
    goes on exactly as a turn whose first call opened that stream. *)
Theorem retry_then_success provider turn delays errors k s :
  cancel_event && is_set_at_entry w = false ->
  (k <= length delays)%nat ->
  (forall j, (j < k)%nat ->
             stream provider j = Throw (errors j)
             /\ should_retry_for_error provider (errors j) = true) ->
  stream provider k = Return s ->
  events_of (trace (run provider turn (Some delays)))
  = retry_events errors (Z.of_nat (length delays)) 0 (firstn k delays)
    ++ events_of (trace (drive turn s))
  /\ raised (run provider turn (Some delays)) = raised (drive turn s).
Proof.
  intros Hc Hk Hfail Hs. unfold run, drive, run_single_turn. rewrite Hc.
  destruct (open_stream_succeeds provider turn (Z.of_nat (length delays))
              errors s delays 0%nat k Hk Hfail Hs) as [Hev Ho].
  destruct (open_stream provider turn (Z.of_nat (length delays)) 0
              (map Some delays ++ [None])) as [opening o].
  cbn [fst snd] in *. subst o. cbn [trace raised].
  now rewrite events_of_app, Hev.
Qed.

End TurnOutcomes.

Lemma tool_results_answer_tool_calls_witness :
  Forall2 answers
    [mkToolCall "call-1" "read" []; mkToolCall "call-2" "bash" []]
    [mkToolResultMessage "call-1" "read" [PText "contents"] None false;
     mkToolResultMessage "call-2" "bash" [PText "(no output)"]
       (Some "nothing") true].
Proof.
  apply (tool_results_answer_tool_calls sample_json_loads sample_get_tool
           sample_format_g false quiet (60 # 1)
           (streaming [ThinkPart "Let me think about this..." None;
                       TextPart "I'll help you with that.";
                       ToolCallStart "call-1" "read" 0;
                       ToolCallDelta 0 "{}";
                       ToolCallStart "call-2" "bash" 1;
                       ToolCallDelta 1 "{}";
                       StreamDone TOOL_USE])
           1 None
           [ThinkingStartEvent;
            ThinkingDeltaEvent "Let me think about this...";
            ThinkingEndEvent "Let me think about this..." None;
            TextStartEvent;
            TextDeltaEvent "I'll help you with that.";
            TextEndEvent "I'll help you with that.";
            ToolStartEvent "call-1" "read";
            ToolArgsDeltaEvent "call-1" "{}";
            ToolStartEvent "call-2" "bash";
            ToolArgsDeltaEvent "call-2" "{}";
            ToolEndEvent "call-1" "read" [] "Read file";
            ToolEndEvent "call-2" "bash" [] "Run";
            ToolResultEvent "call-1" "read"
              (Some (mkToolResultMessage "call-1" "read" [PText "contents"]
                       None false));
            ToolResultEvent "call-2" "bash"
              (Some (mkToolResultMessage "call-2" "bash" [PText "(no output)"]
                       (Some "nothing") true))]
           1
           (mkAssistantMessage
              [ThinkingContent "Let me think about this..." None;
               TextContent "I'll help you with that.";
               ToolCallContent (mkToolCall "call-1" "read" []);
               ToolCallContent (mkToolCall "call-2" "bash" [])]
              mock_usage TOOL_USE)
           [mkToolResultMessage "call-1" "read" [PText "contents"] None false;
            mkToolResultMessage "call-2" "bash" [PText "(no output)"]
              (Some "nothing") true]
           TOOL_USE).
  reflexivity.
Defined.

Lemma interrupted_event_ends_turn_witness :
  exists before assistant_message tool_results,
    events_of (trace (sample_run true (cancelled_in_iteration 1)
                        (streaming [TextPart "Hello"; TextPart ", world"])
                        None))
    = before ++ [InterruptedEvent "Interrupted by user";
                 TurnEndEvent 1 assistant_message tool_results INTERRUPTED]
    /\ count is_interrupted before = 0%nat
    /\ raised (sample_run true (cancelled_in_iteration 1)
                 (streaming [TextPart "Hello"; TextPart ", world"]) None)
       = None.
Proof.
  apply (interrupted_event_ends_turn sample_json_loads sample_get_tool
           sample_format_g true (cancelled_in_iteration 1) (60 # 1)
           (streaming [TextPart "Hello"; TextPart ", world"]) 1 None
           "Interrupted by user").
  vm_compute. auto.
Defined.

Lemma retry_then_success_witness :
  events_of (trace (sample_run false quiet
                      (fails_then 2
                         (mkStream [TextPart "Hello, world!"; StreamDone STOP]
                            mock_usage))
                      (Some [0; 0; 0])))
  = retry_events (fun _ => mkException OtherError "Rate limit") 3 0 [0; 0]
    ++ events_of
         (trace (drive_stream sample_json_loads sample_get_tool sample_format_g
                   false quiet (60 # 1) 1
                   (mkStream [TextPart "Hello, world!"; StreamDone STOP]
                      mock_usage)))
  /\ raised (sample_run false quiet
               (fails_then 2
                  (mkStream [TextPart "Hello, world!"; StreamDone STOP]
                     mock_usage))
               (Some [0; 0; 0]))
     = raised (drive_stream sample_json_loads sample_get_tool sample_format_g
                 false quiet (60 # 1) 1
                 (mkStream [TextPart "Hello, world!"; StreamDone STOP]
                    mock_usage)).
Proof.
  apply (retry_then_success sample_json_loads sample_get_tool sample_format_g
           false quiet (60 # 1)
           (fails_then 2
              (mkStream [TextPart "Hello, world!"; StreamDone STOP] mock_usage))
           1 [0; 0; 0] (fun _ => mkException OtherError "Rate limit") 2%nat
           (mkStream [TextPart "Hello, world!"; StreamDone STOP] mock_usage)).
  - reflexivity.
  - cbn. lia.
  - intros j Hj. destruct j as [|[|j]]; [split; reflexivity ..|lia].
  - reflexivity.
Defined.

(** ** Token updates and stall warnings *)

Lemma no_update_over evs :
  count is_token_update evs = 0%nat -> Forall over_threshold evs.
Proof.
  induction evs as [|e evs IH]; [constructor|].
  destruct e; cbn; try discriminate; intros H; constructor; cbn; auto.
Qed.

Lemma on_part_updates st p :
  4 * Z.of_nat (count is_token_update (snd (on_part st p)))
  + _tool_arg_chunk_counter (fst (on_part st p)) mod 4
  <= Z.of_nat (count is_args_delta (snd (on_part st p)))
     + _tool_arg_chunk_counter st mod 4
  /\ Forall over_threshold (snd (on_part st p)).
Proof.
  destruct st as [ct tb ts xb pend cur cc tc cs sr intr].
  destruct p as [t sig|t|id name idx|idx delta|reason|err];
    cbn [on_part current_state current_tool_call think_buffer text_buffer
         think_signature content pending_tool_calls].
  4: { destruct cur as [c|]; [|cbn -[Z.modulo]; split; [lia|constructor]].
       cbn [set_current_tool_call set_counters _tool_arg_chunk_counter
            _tool_arg_token_count d_id d_name d_arguments fst snd].
       destruct (Z.ltb_spec _TOOL_ARGS_TOKEN_DISPLAY_THRESHOLD
                   (tc + _count_tokens delta)) as [Hlt|Hge];
         [destruct (Z.eqb_spec
                      ((cc + 1) mod _TOOL_ARGS_TOKEN_CHUNK_UPDATE_INTERVAL) 0)
            as [Hz|Hnz]|];
         cbn -[Z.modulo _TOOL_ARGS_TOKEN_DISPLAY_THRESHOLD];
         unfold _TOOL_ARGS_TOKEN_CHUNK_UPDATE_INTERVAL in *;
         (split; [Z.div_mod_to_equations; lia|]);
         repeat constructor; exact Hlt. }
  all: destruct cs as [[| |]|]; destruct cur; try destruct sig as [[|? ?]|];
    cbn -[Z.modulo]; (split; [Z.div_mod_to_equations; lia|]);
    repeat constructor.
Qed.

Lemma idle_timeout (timeout : Q) :
  _get_tool_call_idle_timeout_seconds timeout
  = if Qle_bool timeout (0 # 1) then None else Some timeout.
Proof.
  unfold _get_tool_call_idle_timeout_seconds.
  destruct (Qle_bool timeout (0 # 1)) eqn:Hle; [reflexivity|].
  destruct (Qeq_bool timeout (0 # 1)) eqn:Heq; [|reflexivity].
  apply Qeq_bool_eq in Heq.
  assert (Qle_bool timeout (0 # 1) = true); [|congruence].
  apply Qle_bool_iff. rewrite Heq. apply Qle_refl.
Qed.

Section StreamEvents.

Variable format_g : Q -> string.
Variable cancel_event : bool.
Variable w : World.
Variable idle : Q.

Lemma fetch_timed_out i st t :
  fetch cancel_event w idle i st = TimedOut t ->
  t = idle /\ Qle_bool idle (0 # 1) = false /\ in_tool_call_path st = true.
Proof.
  unfold fetch, chunk_timeout, tool_call_idle_timeout_seconds,
    in_tool_call_path.
  rewrite idle_timeout.
  destruct (cancel_event && is_set_at_iteration w i); [discriminate|].
  destruct (Qle_bool idle (0 # 1));
    [destruct cancel_event, (waited w i); discriminate|].
  destruct (state_is TOOL_CALL (current_state st) || _);
    destruct cancel_event, (waited w i); try discriminate;
    intros [= <-]; auto.
Qed.

Lemma chunk_loop_updates ps : forall i st,
  4 * Z.of_nat (count is_token_update
                  (snd (chunk_loop format_g cancel_event w idle ps i st)))
  <= Z.of_nat (count is_args_delta
                 (snd (chunk_loop format_g cancel_event w idle ps i st)))
     + _tool_arg_chunk_counter st mod 4
  /\ Forall over_threshold
       (snd (chunk_loop format_g cancel_event w idle ps i st)).
Proof.
  assert (Hend : forall include_empty st,
    4 * Z.of_nat (count is_token_update
                    (snd (_finalize_current_state include_empty st)))
    <= Z.of_nat (count is_args_delta
                   (snd (_finalize_current_state include_empty st)))
       + _tool_arg_chunk_counter st mod 4
    /\ Forall over_threshold (snd (_finalize_current_state include_empty st))).
  { intros ie st.
    destruct (finalize_shape ie st) as (_ & _ & Hu & Hd & _).
    rewrite Hu, Hd. split; [|now apply no_update_over].
    Z.div_mod_to_equations; lia. }
  induction ps as [|p ps IH]; intros i st.
  - cbn [chunk_loop]. destruct (fetch cancel_event w idle i st) as [|t|].
    + cbn -[Z.modulo]. split; [Z.div_mod_to_equations; lia|constructor].
    + specialize (Hend false st).
      destruct (_finalize_current_state false st) as [st1 ev1].
      cbn [fst snd] in *. cbn [count is_token_update is_args_delta stall_warning
                               Nat.add].
      destruct Hend as [H1 H2]. split; [exact H1|].
      constructor; [exact I|exact H2].
    + specialize (Hend true st).
      destruct (_finalize_current_state true st) as [st1 ev1]. exact Hend.
  - cbn [chunk_loop]. destruct (fetch cancel_event w idle i st) as [|t|].
    + cbn -[Z.modulo]. split; [Z.div_mod_to_equations; lia|constructor].
    + specialize (Hend false st).
      destruct (_finalize_current_state false st) as [st1 ev1].
      cbn [fst snd] in *. cbn [count is_token_update is_args_delta stall_warning
                               Nat.add].
      destruct Hend as [H1 H2]. split; [exact H1|].
      constructor; [exact I|exact H2].
    + destruct (on_part_updates st p) as [P1 P2].
      destruct (on_part st p) as [st1 ev1]. cbn [fst snd] in *.
      specialize (IH (S i) st1).
      destruct (chunk_loop format_g cancel_event w idle ps (S i) st1)
        as [st2 later].
      cbn [fst snd] in *. destruct IH as [I1 I2].
      rewrite !count_app, !Nat2Z.inj_add. split; [lia|].
      apply Forall_app. auto.
Qed.

Lemma consume_updates ps st :
  _tool_arg_chunk_counter st = 0 ->
  (4 * count is_token_update
         (snd (consume format_g cancel_event w idle ps 0%nat st))
   <= count is_args_delta
        (snd (consume format_g cancel_event w idle ps 0%nat st)))%nat
  /\ Forall over_threshold
       (snd (consume format_g cancel_event w idle ps 0%nat st)).
Proof.
  intros Hz. unfold consume.
  destruct (chunk_loop_updates ps 0%nat st) as [H1 H2]. rewrite Hz in H1.
  destruct (chunk_loop format_g cancel_event w idle ps 0 st) as [st1 ev1].
  cbn [fst snd] in *.
  assert (Hfin : count is_token_update
                   (snd (if interrupted st1
                         then _finalize_current_state false st1
                         else (st1, []))) = 0%nat
                 /\ count is_args_delta
                      (snd (if interrupted st1
                            then _finalize_current_state false st1
                            else (st1, []))) = 0%nat).
  { destruct (interrupted st1); [|auto].
    destruct (finalize_shape false st1) as (_ & _ & Hu & Hd & _). auto. }
  destruct (if interrupted st1 then _ else _) as [st2 ev2].
  cbn [fst snd] in *. destruct Hfin as [Hu Hd].
  rewrite !count_app, Hu, Hd. change (0 mod 4) with 0 in H1. split; [lia|].
  apply Forall_app. split; [exact H2|now apply no_update_over].
Qed.

Lemma chunk_loop_warns ps : forall i st,
  warns format_g idle st ps
    (snd (chunk_loop format_g cancel_event w idle ps i st)).
Proof.
  assert (Hstall : forall i st t rest,
    fetch cancel_event w idle i st = TimedOut t ->
    warns format_g idle st rest
      (stall_warning format_g t :: snd (_finalize_current_state false st))).
  { intros i st t rest F. apply fetch_timed_out in F as (-> & Hq & Hp).
    destruct (finalize_shape false st) as (_ & Hw & _).
    right. cbn [count is_warning stall_warning]. rewrite Hw.
    split; [reflexivity|]. split; [|auto].
    intros e [<-|Hin] He; [reflexivity|].
    rewrite (count_none_in _ _ _ Hw Hin) in He. discriminate. }
  induction ps as [|p ps IH]; intros i st.
  - cbn [chunk_loop].
    destruct (fetch cancel_event w idle i st) as [|t|] eqn:F.
    + now left.
    + specialize (Hstall i st t [] F).
      destruct (_finalize_current_state false st) as [st1 ev1]. exact Hstall.
    + destruct (finalize_shape true st) as (_ & Hw & _).
      destruct (_finalize_current_state true st) as [st1 ev1]. now left.
  - cbn [chunk_loop].
    destruct (fetch cancel_event w idle i st) as [|t|] eqn:F.
    + now left.
    + specialize (Hstall i st t (p :: ps) F).
      destruct (_finalize_current_state false st) as [st1 ev1]. exact Hstall.
    + destruct (on_part_shape st p) as (_ & Hw & _ & Hp).
      destruct (on_part st p) as [st1 ev1]. cbn [fst snd] in *.
      specialize (IH (S i) st1).
      destruct (chunk_loop format_g cancel_event w idle ps (S i) st1)
        as [st2 later].
      cbn [fst snd] in *.
      destruct IH as [Hnone | (Hone & Hall & Hq & Hwhy)].
      * left. now rewrite count_app, Hw, Hnone.
      * right. rewrite count_app, Hw, Hone. split; [reflexivity|].
        split; [|split; [exact Hq|]].
        -- intros e Hin He. apply in_app_or in Hin as [Hin|Hin].
           ++ rewrite (count_none_in _ _ _ Hw Hin) in He. discriminate.
           ++ now apply Hall.
        -- cbn [existsb]. destruct Hwhy as [Hpath|Hlater].
           ++ destruct (Hp Hpath) as [H|H]; [now left|right; now rewrite H].
           ++ right. rewrite Hlater. apply orb_true_r.
Qed.

Lemma consume_warns ps st :
  warns format_g idle st ps
    (snd (consume format_g cancel_event w idle ps 0%nat st)).
Proof.
  unfold consume. pose proof (chunk_loop_warns ps 0%nat st) as H.
  destruct (chunk_loop format_g cancel_event w idle ps 0 st) as [st1 ev1].
  cbn [fst snd] in *.
  assert (Hfin : count is_warning
                   (snd (if interrupted st1
                         then _finalize_current_state false st1
                         else (st1, []))) = 0%nat).
  { destruct (interrupted st1); [|auto].
    now destruct (finalize_shape false st1) as (_ & Hw & _). }
  destruct (if interrupted st1 then _ else _) as [st2 ev2].
  cbn [fst snd] in *.
  destruct H as [Hnone | (Hone & Hall & Hq & Hwhy)].
  - left. now rewrite count_app, Hnone, Hfin.
  - right. rewrite count_app, Hone, Hfin. split; [reflexivity|].
    split; [|auto].
    intros e Hin He. apply in_app_or in Hin as [Hin|Hin]; [now apply Hall|].
    rewrite (count_none_in _ _ _ Hfin Hin) in He. discriminate.
Qed.

End StreamEvents.

Lemma forallb_weaken (p q : Event -> bool) evs :
  (forall e, p e = true -> q e = true) ->
  forallb p evs = true -> forallb q evs = true.
Proof.
  intros Hpq. induction evs as [|e evs IH]; [reflexivity|]. cbn.
  intros H. apply andb_true_iff in H as [He Hr]. now rewrite (Hpq e He), IH.
Qed.

Section StreamOutcomes.

Variable json_loads : string -> option json.
Variable get_tool : string -> option BaseTool.
Variable format_g : Q -> string.
Variable cancel_event : bool.
Variable w : World.
Variable idle : Q.

(** The events of a turn around those of its chunk loop. *)
Lemma run_events provider turn retry_delays :
  exists pre loop_events post,
    events_of (trace (run_single_turn json_loads get_tool format_g
                        cancel_event w idle provider turn retry_delays))
    = pre ++ loop_events ++ post
    /\ forallb outside_stream pre = true
    /\ forallb outside_stream post = true
    /\ (loop_events = []
        \/ exists j s,
             stream provider j = Return s
             /\ loop_events
                = snd (consume format_g cancel_event w idle (parts s) 0%nat
                         initial_state)).
Proof.
  destruct (run_shape json_loads get_tool format_g cancel_event w idle
              provider turn retry_delays)
    as [[_ Hrun] | (_ & retries & Hr & _ & _ & _ & [Hgave | Hopen])].
  - rewrite Hrun.
    exists [], [], [InterruptedEvent "Interrupted by user";
                    TurnEndEvent turn None [] INTERRUPTED].
    cbn. auto.
  - destruct Hgave as (err & Hev & _). rewrite Hev.
    exists retries, [], [ErrorEvent err; TurnEndEvent turn None [] ERROR].
    split; [reflexivity|].
    split; [apply (forallb_weaken is_retry); [kinds|exact Hr]|]. auto.
  - destruct Hopen as (s & Hs & Hev & _). rewrite Hev.
    destruct (drive_shape json_loads get_tool format_g cancel_event w idle
                turn s) as (ends & _ & He & _ & _ & Hd).
    assert (Hends : forallb outside_stream ends = true)
      by (apply (forallb_weaken is_tool_end); [kinds|exact He]).
    assert (Hpre : forallb outside_stream retries = true)
      by (apply (forallb_weaken is_retry); [kinds|exact Hr]).
    destruct (raised (drive_stream json_loads get_tool format_g cancel_event
                        w idle turn s)) as [e|].
    + destruct Hd as [Hd _]. rewrite Hd.
      exists retries,
        (snd (consume format_g cancel_event w idle (parts s) 0 initial_state)),
        ends.
      repeat split; auto. right. now exists (length retries), s.
    + destruct Hd as (revs & results & content & sr & intr & Hd & Hrevs & _).
      rewrite Hd.
      exists retries,
        (snd (consume format_g cancel_event w idle (parts s) 0 initial_state)),
        (ends ++ revs
         ++ (if intr then [InterruptedEvent "Interrupted by user"] else [])
         ++ [TurnEndEvent turn
               (Some (mkAssistantMessage content (stream_usage s) sr))
               results sr]).
      split; [reflexivity|]. split; [exact Hpre|]. split.
      * rewrite !forallb_app, Hends.
        rewrite (forallb_weaken is_tool_result outside_stream revs);
          [now destruct intr|kinds|exact Hrevs].
      * right. now exists (length retries), s.
Qed.

(** X22. In the events of a turn there is at most one token update per
    four argument deltas, and every token update reports more than
    twenty tokens. *)
Theorem token_updates_sparse provider turn retry_delays :
  let evs :=
    events_of (trace (run_single_turn json_loads get_tool format_g
                        cancel_event w idle provider turn retry_delays)) in
  (4 * count is_token_update evs <= count is_args_delta evs)%nat
  /\ Forall over_threshold evs.
Proof.
  intros evs. subst evs.
  destruct (run_events provider turn retry_delays)
    as (pre & mid & post & -> & Hpre & Hpost & Hmid).
  assert (Hm : (4 * count is_token_update mid <= count is_args_delta mid)%nat
               /\ Forall over_threshold mid).
  { destruct Hmid as [-> | (j & s & _ & ->)]; [cbn; split; [lia|constructor]|].
    now apply consume_updates. }
  destruct Hm as [Hc Ho].
  rewrite !count_app.
  rewrite (count_none outside_stream is_token_update pre Hpre ltac:(kinds)).
  rewrite (count_none outside_stream is_token_update post Hpost ltac:(kinds)).
  rewrite (count_none outside_stream is_args_delta pre Hpre ltac:(kinds)).
  rewrite (count_none outside_stream is_args_delta post Hpost ltac:(kinds)).
  split; [lia|].
  apply Forall_app. split; [|apply Forall_app; split; [exact Ho|]];
    apply no_update_over;
    now apply (count_none outside_stream); [|kinds].
Qed.

(** X23. A turn warns at most once, and only of a tool-call stream that
    stalled: the warning names the configured idle timeout, which is
    then positive (the default of sixty seconds is never used), and the
    provider opened a stream that starts a tool call. *)
Theorem stall_warning_needs_tool_call provider turn retry_delays warning :
  In (WarningEvent warning)
     (events_of (trace (run_single_turn json_loads get_tool format_g
                          cancel_event w idle provider turn retry_delays))) ->
  WarningEvent warning = stall_warning format_g idle
  /\ Qle_bool idle (0 # 1) = false
  /\ count is_warning
       (events_of (trace (run_single_turn json_loads get_tool format_g
                            cancel_event w idle provider turn retry_delays)))
     = 1%nat
  /\ exists j s,
       stream provider j = Return s
       /\ existsb is_tool_call_start (parts s) = true.
Proof.
  destruct (run_events provider turn retry_delays)
    as (pre & mid & post & -> & Hpre & Hpost & Hmid).
  pose proof (count_none outside_stream is_warning pre Hpre ltac:(kinds))
    as Cpre.
  pose proof (count_none outside_stream is_warning post Hpost ltac:(kinds))
    as Cpost.
  intros Hin.
  assert (Hmidin : In (WarningEvent warning) mid).
  { apply in_app_or in Hin as [Hin|Hin].
    - pose proof (count_none_in _ _ _ Cpre Hin). discriminate.
    - apply in_app_or in Hin as [Hin|Hin]; [exact Hin|].
      pose proof (count_none_in _ _ _ Cpost Hin). discriminate. }
  destruct Hmid as [-> | (j & s & Hs & ->)]; [destruct Hmidin|].
  destruct (consume_warns format_g cancel_event w idle (parts s) initial_state)
    as [Hnone | (Hone & Hall & Hq & Hwhy)].
  - pose proof (count_none_in _ _ _ Hnone Hmidin). discriminate.
  - split; [now apply Hall|]. split; [exact Hq|].
    split; [rewrite !count_app, Cpre, Cpost, Hone; reflexivity|].
    exists j, s. split; [exact Hs|].
    destruct Hwhy as [Hpath|Hstart]; [discriminate|exact Hstart].
Qed.

End StreamOutcomes.

Lemma stall_warning_needs_tool_call_witness :
  WarningEvent
    "Tool-call stream stalled for 60s; continuing with collected arguments."
  = stall_warning sample_format_g (60 # 1)
  /\ Qle_bool (60 # 1) (0 # 1) = false
  /\ count is_warning
       (events_of (trace (sample_run false (stalls_in_iteration 2)
                            (streaming [ToolCallStart "call-1" "read" 0;
                                        ToolCallDelta 0 "{}"])
                            None)))
     = 1%nat
  /\ exists j s,
       stream (streaming [ToolCallStart "call-1" "read" 0;
                          ToolCallDelta 0 "{}"]) j = Return s
       /\ existsb is_tool_call_start (parts s) = true.
Proof.
  apply (stall_warning_needs_tool_call sample_json_loads sample_get_tool
           sample_format_g false (stalls_in_iteration 2) (60 # 1)
           (streaming [ToolCallStart "call-1" "read" 0; ToolCallDelta 0 "{}"])
           1 None).
  vm_compute. auto.
Defined.

(* ===================================================================== *)
(** * Properties of the agent loop *)
(* ===================================================================== *)

Lemma turn_starts_of_app a b :
  turn_starts_of (a ++ b) = turn_starts_of a ++ turn_starts_of b.
Proof.
  induction a as [|e a IH]; [reflexivity|]. destruct e; cbn; now rewrite ?IH.
Qed.

Lemma turn_starts_none evs :
  forallb turn_event evs = true -> turn_starts_of evs = [].
Proof.
  induction evs as [|e evs IH]; [reflexivity|]. cbn.
  intros H. apply andb_true_iff in H as [He Hr].
  destruct e; try discriminate; now apply IH.
Qed.

Lemma stop_after_app sr a b :
  stop_after sr (a ++ b) = stop_after (stop_after sr a) b.
Proof. apply fold_left_app. Qed.

Lemma usage_after_app u a b :
  usage_after u (a ++ b) = usage_after (usage_after u a) b.
Proof. apply fold_left_app. Qed.

Lemma logged_app mode a b : logged mode (a ++ b) = logged mode a ++ logged mode b.
Proof. apply flat_map_app. Qed.

Lemma crashed_app a b :
  crashed (a ++ b) = match b with [] => crashed a | _ => crashed b end.
Proof.
  unfold crashed. rewrite last_app. destruct b as [|x b]; [reflexivity|].
  rewrite last_cons. now destruct (last b).
Qed.

Lemma StopReason_eqb_eq a b : StopReason_eqb a b = true -> a = b.
Proof. destruct a, b; cbn; congruence. Qed.

Import AgentRun.

Section AgentProperties.

Variable json_loads : string -> option json.
Variable get_tool : string -> option BaseTool.
Variable format_g : Q -> string.
Variable idle : Q.
Variable is_overflow : Usage -> Z -> Z -> Z -> bool.
Variable generate_summary : list Message -> string -> Try string.
Variable config : AgentConfig.
Variable kon_config : Settings.
Variable agent_max_turns : Z.
Variable system_prompt : string.
Variable cancel_event : bool.
Variable provider : nat -> list Message -> BaseProvider.
Variable world : nat -> World.
Variable is_set_at_top : nat -> bool.
Variable is_set_at_check : nat -> bool.
Variable outside : nat -> Outside.

Local Abbreviation append := (AgentRun.append outside).
Local Abbreviation on_event := (AgentRun.on_event outside).
Local Abbreviation turns :=
  (AgentRun.turns json_loads get_tool format_g idle is_overflow
     generate_summary config kon_config system_prompt cancel_event provider
     world is_set_at_top is_set_at_check outside).
Local Abbreviation mode := (compaction_on_overflow kon_config).

Lemma append_shape l m :
  l_run_usage (append l m) = l_run_usage l
  /\ l_turn (append l m) = l_turn l
  /\ l_stop_reason (append l m) = l_stop_reason l
  /\ was_interrupted (append l m) = was_interrupted l
  /\ all_messages (l_session (append l m))
     = all_messages (l_session l) ++ [m].
Proof.
  unfold AgentRun.append, append_message. cbn [snd].
  match goal with
  | |- context [_append_entry ?s ?e ?d] =>
      destruct (append_entry_fields s e d) as (He & _);
      destruct (_append_entry s e d) as [s1 d1]
  end.
  cbn [fst] in He. cbn. unfold all_messages. rewrite He, omap_app.
  repeat split.
Qed.

Lemma fold_append results : forall l,
  let l' := fold_left (fun l result => append l (ToolResultMsg result))
              results l in
  l_run_usage l' = l_run_usage l
  /\ l_turn l' = l_turn l
  /\ l_stop_reason l' = l_stop_reason l
  /\ was_interrupted l' = was_interrupted l
  /\ all_messages (l_session l')
     = all_messages (l_session l) ++ map ToolResultMsg results.
Proof.
  induction results as [|r results IH]; intros l.
  - cbn. rewrite app_nil_r. auto.
  - cbn [fold_left map]. specialize (IH (append l (ToolResultMsg r))).
    destruct (append_shape l (ToolResultMsg r)) as (A1 & A2 & A3 & A4 & A5).
    destruct IH as (I1 & I2 & I3 & I4 & I5).
    cbn zeta. rewrite I1, I2, I3, I4, I5, A1, A2, A3, A4, A5, <- app_assoc.
    auto.
Qed.

Lemma on_event_shape l e :
  turn_event e = true ->
  l_turn (on_event l e) = l_turn l
  /\ l_stop_reason (on_event l e) = stop_after (l_stop_reason l) [e]
  /\ l_run_usage (on_event l e) = usage_after (l_run_usage l) [e]
  /\ was_interrupted (on_event l e) = was_interrupted l || is_interrupted e
  /\ all_messages (l_session (on_event l e))
     = all_messages (l_session l) ++ logged_by mode e.
Proof.
  destruct e; try discriminate; intros _; cbn [AgentRun.on_event];
    try (cbn; rewrite ?orb_false_r, ?orb_true_r, ?app_nil_r; now auto).
  match goal with
  | |- context [fold_left _ ?rs ?l0] => destruct (fold_append rs l0)
                                          as (F1 & F2 & F3 & F4 & F5)
  end.
  cbn zeta in *. rewrite F1, F2, F3, F4, F5. clear F1 F2 F3 F4 F5.
  cbn [l_turn l_stop_reason l_run_usage AgentRun.was_interrupted l_session
       stop_after usage_after fold_left is_interrupted logged_by].
  rewrite orb_false_r.
  destruct assistant_message as [m|].
  - match goal with
    | |- context [AgentRun.append _ ?l0 ?msg] =>
        destruct (append_shape l0 msg) as (A1 & A2 & A3 & A4 & A5)
    end.
    rewrite A1, A2, A4, A5. cbn. now rewrite <- app_assoc.
  - cbn. auto.
Qed.

Lemma fold_on_event evs : forall l,
  forallb turn_event evs = true ->
  let l' := fold_left on_event evs l in
  l_turn l' = l_turn l
  /\ l_stop_reason l' = stop_after (l_stop_reason l) evs
  /\ was_interrupted l' = was_interrupted l || existsb is_interrupted evs
  /\ kept mode l evs l'.
Proof.
  unfold kept.
  induction evs as [|e evs IH]; intros l Hk.
  - cbn. rewrite orb_false_r, app_nil_r. auto.
  - cbn in Hk. apply andb_true_iff in Hk as [He Hr].
    cbn [fold_left]. specialize (IH (on_event l e) Hr).
    destruct (on_event_shape l e He) as (E1 & E2 & E3 & E4 & E5).
    cbn zeta in IH. destruct IH as (I1 & I2 & I3 & I4 & I5).
    cbn zeta. rewrite I1, I2, I3, I4, I5, E1, E2, E3, E4, E5.
    cbn [existsb logged flat_map]. fold (logged mode evs).
    rewrite orb_assoc, <- app_assoc. auto.
Qed.

(** The events of a turn are turn events, and the last event of a turn
    that returns is its turn-end event. *)
Lemma turn_events_kind w p turn retry_delays :
  let r := run_single_turn json_loads get_tool format_g cancel_event w idle
             p turn retry_delays in
  forallb turn_event (events_of (trace r)) = true
  /\ (raised r = None ->
      events_of (trace r) <> [] /\ crashed (events_of (trace r)) = false).
Proof.
  cbn zeta.
  destruct (run_shape json_loads get_tool format_g cancel_event w idle
              p turn retry_delays)
    as [[_ Hrun] | (_ & retries & Hr & _ & _ & _ & [Hgave | Hopen])].
  - rewrite Hrun. cbn. repeat split. discriminate.
  - destruct Hgave as (err & Hev & Hraised). rewrite Hev.
    assert (Hk : forallb turn_event retries = true)
      by (apply (forallb_weaken is_retry); [kinds|exact Hr]).
    rewrite forallb_app, Hk, crashed_app. split; [reflexivity|].
    intros _. split; [|reflexivity].
    intros H. now apply app_eq_nil in H as [_ H].
  - destruct Hopen as (s & _ & Hev & Hraised). rewrite Hev, Hraised.
    assert (Hk : forallb turn_event retries = true)
      by (apply (forallb_weaken is_retry); [kinds|exact Hr]).
    destruct (drive_shape json_loads get_tool format_g cancel_event w idle
                turn s) as (ends & Hs & He & _ & _ & Hd).
    assert (Hks : forallb turn_event
                    (snd (consume format_g cancel_event w idle (parts s) 0
                            initial_state)) = true)
      by (apply (forallb_weaken streamed); [kinds|exact Hs]).
    assert (Hke : forallb turn_event ends = true)
      by (apply (forallb_weaken is_tool_end); [kinds|exact He]).
    destruct (raised (drive_stream json_loads get_tool format_g cancel_event
                        w idle turn s)) as [e|].
    + destruct Hd as [Hd _]. rewrite Hd, !forallb_app, Hk, Hks, Hke.
      split; [reflexivity|discriminate].
    + destruct Hd as (revs & results & content & sr & intr & Hd & Hrevs & _).
      assert (Hkr : forallb turn_event revs = true)
        by (apply (forallb_weaken is_tool_result); [kinds|exact Hrevs]).
      rewrite Hd, !forallb_app, Hk, Hks, Hke, Hkr.
      split; [now destruct intr|]. intros _.
      rewrite !app_assoc, crashed_app. split; [|reflexivity].
      intros H. now apply app_eq_nil in H as [_ H].
Qed.

(** The compaction check yields nothing or a start and an end, and adds
    to the messages of the session what its events tell. *)
Lemma check_compaction_shape session disk stop_reason cancelled o1 o2 :
  let r := _check_compaction is_overflow generate_summary config kon_config
             session disk stop_reason system_prompt cancelled o1 o2 in
  (fst r = []
   \/ exists tokens_before aborted,
        fst r = [CompactionStartEvent;
                 CompactionEndEvent tokens_before aborted])
  /\ all_messages (fst (snd r)) = all_messages session ++ logged mode (fst r).
Proof.
  cbn zeta. unfold _check_compaction.
  assert (Hnone : all_messages session
                  = all_messages session ++ logged mode [])
    by (cbn; now rewrite app_nil_r).
  destruct (StopReason_eqb stop_reason ERROR); [cbn; now eauto|].
  destruct (last_assistant_usage (rev (entries session))) as [[u|]|];
    [|cbn; now eauto|cbn; now eauto].
  destruct (negb _); [cbn; now eauto|].
  destruct cancelled; [cbn; now eauto|].
  destruct (generate_summary (all_messages session) system_prompt)
    as [summary|e].
  - unfold append_compaction, append_message. cbn [snd].
    match goal with
    | |- context [_append_entry session ?c disk] =>
        destruct (append_entry_fields session c disk) as (He & _);
        destruct (_append_entry session c disk) as [s1 d1]
    end.
    cbn [fst] in He. cbn [logged flat_map logged_by app].
    destruct (String.eqb mode "continue") eqn:Em.
    + match goal with
      | |- context [_append_entry s1 ?m d1] =>
          destruct (append_entry_fields s1 m d1) as (He' & _);
          destruct (_append_entry s1 m d1) as [s2 d2]
      end.
      cbn [fst snd] in *. split; [eauto|].
      unfold all_messages. rewrite He', He, !omap_app. cbn.
      now rewrite Em, !app_nil_r.
    + cbn [fst snd]. split; [eauto|].
      unfold all_messages. rewrite He, !omap_app. cbn.
      now rewrite Em, !app_nil_r.
  - cbn. split; [eauto|]. now rewrite app_nil_r.
Qed.

Lemma kept_app l0 a l1 b l2 :
  kept mode l0 a l1 -> kept mode l1 b l2 -> kept mode l0 (a ++ b) l2.
Proof.
  intros [U1 M1] [U2 M2]. split.
  - now rewrite usage_after_app, <- U1.
  - now rewrite logged_app, app_assoc, <- M1.
Qed.

(** The loop, from any point where the run is not interrupted: the
    turn-start events number the turns it runs, it runs at most [fuel]
    of them, and it leaves the variables as its events tell. *)
Lemma turns_shape fuel : forall l,
  was_interrupted l = false ->
  let evs := fst (fst (turns fuel l)) in
  let l' := snd (fst (turns fuel l)) in
  turn_starts_of evs
  = map Z.of_nat (seq (S (l_turn l)) (l_turn l' - l_turn l))
  /\ (l_turn l <= l_turn l' <= l_turn l + fuel)%nat
  /\ count is_agent_frame evs = 0%nat
  /\ kept mode l evs l'
  /\ (snd (turns fuel l) = None ->
      crashed evs = false
      /\ was_interrupted l' = existsb is_interrupted evs
      /\ l_stop_reason l'
         = if existsb is_interrupted evs then INTERRUPTED
           else stop_after (l_stop_reason l) evs).
Proof.
  induction fuel as [|fuel IH]; intros l Hl; cbn zeta.
  - cbn. rewrite Nat.sub_diag, Hl. unfold kept. cbn. rewrite app_nil_r.
    repeat split; auto; lia.
  - cbn [AgentRun.turns].
    destruct (cancel_event && is_set_at_top (l_turn l)).
    { cbn. rewrite Nat.sub_diag. unfold kept. cbn. rewrite app_nil_r.
      repeat split; auto; lia. }
    cbn zeta.
    cbn [l_session l_disk l_turn l_stop_reason l_run_usage
         AgentRun.was_interrupted l_appends].
    destruct (turn_events_kind (world (S (l_turn l)))
                (provider (S (l_turn l)) (messages (l_session l)))
                (Z.of_nat (S (l_turn l))) None) as [Hk Hlast].
    set (r := run_single_turn json_loads get_tool format_g cancel_event
                (world (S (l_turn l))) idle
                (provider (S (l_turn l)) (messages (l_session l)))
                (Z.of_nat (S (l_turn l))) None) in *.
    set (l0 := mkLocals (l_session l) (l_disk l) (l_run_usage l)
                 (S (l_turn l)) (l_stop_reason l) (was_interrupted l)
                 (l_appends l)).
    destruct (fold_on_event (events_of (trace r)) l0 Hk)
      as (F1 & F2 & F3 & F4).
    set (l1 := fold_left on_event (events_of (trace r)) l0) in *.
    cbn [l0 l_turn l_stop_reason AgentRun.was_interrupted] in F1, F2, F3.
    rewrite Hl in F3. cbn [orb] in F3.
    assert (K1 : kept mode l (TurnStartEvent (Z.of_nat (S (l_turn l)))
                              :: events_of (trace r)) l1) by exact F4.
    assert (Hstarts : turn_starts_of (events_of (trace r)) = [])
      by now apply turn_starts_none.
    assert (Hframe : count is_agent_frame (events_of (trace r)) = 0%nat)
      by (apply (count_none turn_event); [exact Hk|kinds]).
    destruct (raised r) as [e|].
    { cbn [fst snd turn_starts_of count is_agent_frame Nat.add].
      rewrite Hstarts, Hframe, F1.
      replace (S (l_turn l) - l_turn l)%nat with 1%nat by lia.
      split; [reflexivity|]. split; [lia|]. split; [reflexivity|].
      split; [exact K1|]. intros H. discriminate H. }
    destruct (Hlast eq_refl) as [Hne Hcr]. clear Hlast.
    assert (Hcr1 : forall t, crashed (TurnStartEvent t :: events_of (trace r))
                             = false).
    { intros t. change (TurnStartEvent t :: events_of (trace r))
        with ([TurnStartEvent t] ++ events_of (trace r)).
      rewrite crashed_app. destruct (events_of (trace r)); [easy|exact Hcr]. }
    destruct (was_interrupted l1 || StopReason_eqb (l_stop_reason l1)
                                      INTERRUPTED) eqn:Hint.
    { cbn [fst snd turn_starts_of count is_agent_frame Nat.add l_turn
           l_stop_reason AgentRun.was_interrupted existsb is_interrupted
           stop_after fold_left orb].
      rewrite Hstarts, Hframe, F1.
      replace (S (l_turn l) - l_turn l)%nat with 1%nat by lia.
      split; [reflexivity|]. split; [lia|]. split; [reflexivity|].
      split; [exact K1|]. intros _. split; [apply Hcr1|].
      split; [exact F3|].
      rewrite <- F3. destruct (was_interrupted l1); [reflexivity|].
      cbn [orb] in Hint. apply StopReason_eqb_eq in Hint.
      rewrite <- Hint. exact F2. }
    apply orb_false_iff in Hint as [Hw Hs].
    destruct (check_compaction_shape (l_session l1) (l_disk l1)
                (l_stop_reason l1)
                (cancel_event && is_set_at_check (S (l_turn l)))
                (outside (l_appends l1)) (outside (S (l_appends l1))))
      as [Hc Hm].
    destruct (_check_compaction is_overflow generate_summary config kon_config
                (l_session l1) (l_disk l1) (l_stop_reason l1) system_prompt
                (cancel_event && is_set_at_check (S (l_turn l)))
                (outside (l_appends l1)) (outside (S (l_appends l1))))
      as [cevs [s d]].
    cbn [fst snd] in Hc, Hm.
    set (l2 := mkLocals s d (l_run_usage l1) (l_turn l1) (l_stop_reason l1)
                 (was_interrupted l1) (S (S (l_appends l1)))).
    set (P := TurnStartEvent (Z.of_nat (S (l_turn l)))
              :: events_of (trace r) ++ cevs).
    assert (Hcevs : turn_starts_of cevs = []
                    /\ count is_agent_frame cevs = 0%nat
                    /\ existsb is_interrupted cevs = false
                    /\ (forall sr, stop_after sr cevs = sr)
                    /\ (forall u, usage_after u cevs = u)
                    /\ crashed (events_of (trace r) ++ cevs) = false).
    { rewrite crashed_app.
      destruct Hc as [-> | (tb & ab & ->)]; cbn; repeat split; auto. }
    destruct Hcevs as (C1 & C2 & C3 & C4 & C5 & C6).
    assert (P1 : turn_starts_of P = [Z.of_nat (S (l_turn l))]).
    { unfold P. cbn [turn_starts_of].
      now rewrite turn_starts_of_app, Hstarts, C1. }
    assert (P2 : count is_agent_frame P = 0%nat).
    { unfold P. cbn [count is_agent_frame Nat.add].
      now rewrite count_app, Hframe, C2. }
    assert (P3 : kept mode l P l2).
    { change P with ((TurnStartEvent (Z.of_nat (S (l_turn l)))
                      :: events_of (trace r)) ++ cevs).
      apply (kept_app _ _ l1); [exact K1|].
      split; [cbn; now rewrite C5|exact Hm]. }
    assert (P4 : crashed P = false).
    { change P with ([TurnStartEvent (Z.of_nat (S (l_turn l)))]
                     ++ (events_of (trace r) ++ cevs)).
      rewrite crashed_app.
      destruct (events_of (trace r) ++ cevs) eqn:E; [|exact C6].
      apply app_eq_nil in E as [E _]. contradiction. }
    assert (P5 : existsb is_interrupted P = false).
    { unfold P. cbn [existsb is_interrupted orb].
      now rewrite existsb_app, <- F3, Hw, C3. }
    assert (P6 : stop_after (l_stop_reason l) P = l_stop_reason l2).
    { unfold P. cbn [stop_after fold_left].
      fold (stop_after (l_stop_reason l) (events_of (trace r) ++ cevs)).
      now rewrite stop_after_app, C4, <- F2. }
    assert (Hexit :
      let evs := P in
      turn_starts_of evs
      = map Z.of_nat (seq (S (l_turn l)) (l_turn l2 - l_turn l))
      /\ (l_turn l <= l_turn l2 <= l_turn l + S fuel)%nat
      /\ count is_agent_frame evs = 0%nat
      /\ kept mode l evs l2
      /\ ((None : option Exception) = None ->
          crashed evs = false
          /\ was_interrupted l2 = existsb is_interrupted evs
          /\ l_stop_reason l2
             = if existsb is_interrupted evs then INTERRUPTED
               else stop_after (l_stop_reason l) evs)).
    { cbn zeta. rewrite P1, P2, P4, P5, P6. cbn [l2 l_turn]. rewrite F1.
      replace (S (l_turn l) - l_turn l)%nat with 1%nat by lia.
      split; [reflexivity|]. split; [lia|]. split; [reflexivity|].
      split; [exact P3|]. intros _. split; [reflexivity|].
      split; [exact Hw|reflexivity]. }
    destruct (existsb is_compaction_end cevs
              && String.eqb mode "pause"); [exact Hexit|].
    destruct (negb (existsb is_compaction_end cevs)
              && negb (StopReason_eqb (l_stop_reason l1) TOOL_USE));
      [exact Hexit|].
    clear Hexit.
    specialize (IH l2 Hw). cbn zeta in IH.
    destruct (turns fuel l2) as [[later l3] exc].
    cbn [fst snd] in *.
    destruct IH as (I1 & I2 & I3 & I4 & I5).
    change (TurnStartEvent (Z.of_nat (S (l_turn l)))
            :: events_of (trace r) ++ cevs ++ later) with
      ([TurnStartEvent (Z.of_nat (S (l_turn l)))]
       ++ events_of (trace r) ++ cevs ++ later).
    replace ([TurnStartEvent (Z.of_nat (S (l_turn l)))]
             ++ events_of (trace r) ++ cevs ++ later)
      with (P ++ later)
      by (unfold P; cbn [app]; now rewrite <- app_assoc).
    cbn [l2 l_turn l_stop_reason] in I1, I2, I5. rewrite F1 in I1, I2.
    split.
    { rewrite turn_starts_of_app, P1, I1.
      replace (l_turn l3 - l_turn l)%nat
        with (S (l_turn l3 - S (l_turn l)))%nat by lia.
      reflexivity. }
    split; [lia|].
    split; [now rewrite count_app, P2, I3|].
    split; [now apply (kept_app _ _ l2)|].
    intros Hexc. destruct (I5 Hexc) as (J1 & J2 & J3).
    rewrite crashed_app, existsb_app, stop_after_app, P5, P6. cbn [orb].
    split; [destruct later; [exact P4|exact J1]|].
    split; [exact J2|exact J3].
Qed.

Local Abbreviation run :=
  (AgentRun.run json_loads get_tool format_g idle is_overflow
     generate_summary config kon_config agent_max_turns system_prompt
     cancel_event provider world is_set_at_top is_set_at_check outside).
Local Abbreviation the_max_turns :=
  (match max_turns config with
   | Some m => m
   | None => agent_max_turns
   end).
Local Abbreviation user_message_of query images :=
  (match images with
   | Some (i :: rest) =>
       UserMessage (UParts (PText query :: map PImage (i :: rest)))
   | _ => UserMessage (UPlain query)
   end).

(** A run as a whole: what it yields between its agent-start and its
    agent-end event, and what it leaves. *)
Lemma agent_run_shape session disk query images :
  exists middle n,
    fst (run session disk query images)
    = AgentStartEvent
      :: middle
      ++ [AgentEndEvent (agent_stop_reason the_max_turns n middle)
            (Z.of_nat n) (Some (usage_after Usage_zero middle))]
    /\ count is_agent_frame middle = 0%nat
    /\ turn_starts_of middle = map Z.of_nat (seq 1 n)
    /\ (n <= Z.to_nat the_max_turns)%nat
    /\ all_messages (fst (snd (run session disk query images)))
       = all_messages session
         ++ user_message_of query images :: logged mode middle.
Proof.
  unfold AgentRun.run.
  destruct (append_shape (mkLocals session disk Usage_zero 0 STOP false 0)
              (user_message_of query images)) as (A1 & A2 & A3 & A4 & A5).
  set (l := AgentRun.append outside
              (mkLocals session disk Usage_zero 0 STOP false 0)
              (user_message_of query images)) in *.
  cbn [l_run_usage l_turn l_stop_reason AgentRun.was_interrupted l_session]
    in A1, A2, A3, A4, A5.
  destruct (turns_shape (Z.to_nat the_max_turns) l A4)
    as (T1 & T2 & T3 & [T4 T5] & T6).
  destruct (turns (Z.to_nat the_max_turns) l) as [[evs l'] exc].
  cbn [fst snd] in *. rewrite A2 in T1, T2. rewrite A1 in T4.
  rewrite A5 in T5. rewrite A3 in T6.
  rewrite Nat.sub_0_r in T1. rewrite <- app_assoc in T5. cbn [app] in T5.
  destruct exc as [e|].
  - exists (evs ++ [ErrorEvent (str e)]), (l_turn l'). cbn [fst snd].
    rewrite usage_after_app, count_app, turn_starts_of_app, logged_app.
    rewrite <- T4, T1, T3, T5. cbn. rewrite !app_nil_r.
    unfold agent_stop_reason. rewrite crashed_app. cbn.
    rewrite <- app_assoc. repeat split. lia.
  - destruct (T6 eq_refl) as (J1 & J2 & J3).
    exists evs, (l_turn l'). cbn [fst snd app].
    rewrite <- T4, T1, T3, T5.
    split; [|repeat split; lia].
    do 3 f_equal. unfold agent_stop_reason. rewrite J1, <- J2, J3, <- J2.
    destruct (was_interrupted l');
      [now rewrite andb_false_r|now rewrite andb_true_r].
Qed.

(** X24. A run yields an agent-start event first and an agent-end event
    last, and none in between.  Its turn-start events number the turns
    1, 2, ... up to the total the agent-end event reports, which is at
    most the turn limit (none when the limit is not positive). *)
Theorem agent_run_framed session disk query images :
  exists middle stop_reason n total_usage,
    fst (run session disk query images)
    = AgentStartEvent
      :: middle ++ [AgentEndEvent stop_reason (Z.of_nat n) total_usage]
    /\ count is_agent_frame middle = 0%nat
    /\ turn_starts_of middle = map Z.of_nat (seq 1 n)
    /\ (n <= Z.to_nat the_max_turns)%nat.
Proof.
  destruct (agent_run_shape session disk query images)
    as (middle & n & Hev & Hf & Ht & Hn & _).
  exists middle, (agent_stop_reason the_max_turns n middle), n,
    (Some (usage_after Usage_zero middle)).
  auto.
Qed.

(** X25. The stop reason of the agent-end event follows from what the
    run yielded: ERROR when the run ended in its exception handler;
    otherwise INTERRUPTED when an interrupted event was yielded;
    otherwise LENGTH when the turns reached the limit, even if the last
    turn ended with STOP or ERROR; otherwise the stop reason of the last
    turn-end event. *)
Theorem agent_stop_reason_told session disk query images :
  exists middle n total_usage,
    fst (run session disk query images)
    = AgentStartEvent
      :: middle
      ++ [AgentEndEvent (agent_stop_reason the_max_turns n middle)
            (Z.of_nat n) total_usage].
Proof.
  destruct (agent_run_shape session disk query images)
    as (middle & n & Hev & _).
  now exists middle, n, (Some (usage_after Usage_zero middle)).
Qed.

(** X26. The total usage of the agent-end event is the sum, counter by
    counter, of the usages of the assistant messages of the turn-end
    events of the run; assistant messages without usage count for
    nothing. *)
Theorem agent_usage_total session disk query images :
  exists middle stop_reason total_turns,
    fst (run session disk query images)
    = AgentStartEvent
      :: middle
      ++ [AgentEndEvent stop_reason total_turns
            (Some (usage_after Usage_zero middle))].
Proof.
  destruct (agent_run_shape session disk query images)
    as (middle & n & Hev & _).
  now exists middle, (agent_stop_reason the_max_turns n middle), (Z.of_nat n).
Qed.

(** X27. A run appends to the messages of the session the user message,
    then, for each turn-end event in order, its assistant message and
    its tool results, and, in continue mode, the continue message for
    each compaction that was not aborted; nothing else, and it removes
    nothing. *)
Theorem agent_logs_messages session disk query images :
  exists middle agent_end,
    fst (run session disk query images)
    = AgentStartEvent :: middle ++ [agent_end]
    /\ all_messages (fst (snd (run session disk query images)))
       = all_messages session
         ++ user_message_of query images :: logged mode middle.
Proof.
  destruct (agent_run_shape session disk query images)
    as (middle & n & Hev & _ & _ & _ & Hm).
  exists middle,
    (AgentEndEvent (agent_stop_reason the_max_turns n middle) (Z.of_nat n)
       (Some (usage_after Usage_zero middle))).
  auto.
Qed.

End AgentProperties.

(** ** What a run does to the session *)

Lemma run_ops_app st a b : run_ops st (a ++ b) = run_ops (run_ops st a) b.
Proof. unfold run_ops. apply foldl_app. Qed.

Lemma created_loads path h disk0 s disk :
  created_inv path h disk0 s disk ->
  has_assistant (entries s) = true ->
  exists s',
    session_file s = Some path
    /\ load path disk = Ok s'
    /\ entries s' = entries s
    /\ leaf_id s' = leaf_id s.
Proof.
  intros (Hf & _ & _ & Hl & Hc & Hfl) Ha.
  unfold entries in Ha. destruct (_flushed s).
  - destruct Hfl as [_ Hd].
    eexists. split; [exact Hf|].
    unfold load. rewrite Hd, load_lines_written.
    split; [reflexivity|]. cbn. split; auto.
  - destruct Hfl as [Hn _]. rewrite Hn in Ha. discriminate.
Qed.

Section AgentStore.

Variable json_loads : string -> option json.
Variable get_tool : string -> option BaseTool.
Variable format_g : Q -> string.
Variable idle : Q.
Variable is_overflow : Usage -> Z -> Z -> Z -> bool.
Variable generate_summary : list Message -> string -> Try string.
Variable config : AgentConfig.
Variable kon_config : Settings.
Variable agent_max_turns : Z.
Variable system_prompt : string.
Variable cancel_event : bool.
Variable provider : nat -> list Message -> BaseProvider.
Variable world : nat -> World.
Variable is_set_at_top : nat -> bool.
Variable is_set_at_check : nat -> bool.
Variable outside : nat -> Outside.

Local Abbreviation append := (AgentRun.append outside).
Local Abbreviation on_event := (AgentRun.on_event outside).
Local Abbreviation turns :=
  (AgentRun.turns json_loads get_tool format_g idle is_overflow
     generate_summary config kon_config system_prompt cancel_event provider
     world is_set_at_top is_set_at_check outside).
Local Abbreviation run :=
  (AgentRun.run json_loads get_tool format_g idle is_overflow
     generate_summary config kon_config agent_max_turns system_prompt
     cancel_event provider world is_set_at_top is_set_at_check outside).
Local Abbreviation user_message_of query images :=
  (match images with
   | Some (i :: rest) =>
       UserMessage (UParts (PText query :: map PImage (i :: rest)))
   | _ => UserMessage (UPlain query)
   end).

Lemma append_op l m :
  store_of (append l m)
  = run_ops (store_of l) [(outside (l_appends l), OpMessage m)].
Proof.
  unfold AgentRun.append, store_of, run_ops. cbn [foldl apply_op].
  now destruct (snd (append_message _ _ _ _)).
Qed.

Lemma fold_append_ops results : forall l,
  exists calls,
    store_of (fold_left (fun l result => append l (ToolResultMsg result))
                results l)
    = run_ops (store_of l) calls
    /\ Forall run_call calls.
Proof.
  induction results as [|r results IH]; intros l.
  - exists []. split; [reflexivity|constructor].
  - cbn [fold_left].
    destruct (IH (append l (ToolResultMsg r))) as (calls & Hs & Hc).
    exists ((outside (l_appends l), OpMessage (ToolResultMsg r)) :: calls).
    split; [|constructor; [exact I|exact Hc]].
    rewrite Hs, append_op. symmetry. apply (run_ops_app _ [_] calls).
Qed.

Lemma on_event_ops l e :
  exists calls,
    store_of (on_event l e) = run_ops (store_of l) calls
    /\ Forall run_call calls.
Proof.
  assert (Hnone : exists calls,
            store_of l = run_ops (store_of l) calls /\ Forall run_call calls)
    by (exists []; split; [reflexivity|constructor]).
  destruct e; try exact Hnone; cbn [AgentRun.on_event].
  match goal with
  | |- context [fold_left _ ?rs ?l0] =>
      destruct (fold_append_ops rs l0) as (calls & Hs & Hc)
  end.
  destruct assistant_message as [m|].
  - eexists ((_, OpMessage (AssistantMsg m)) :: calls).
    split; [|constructor; [exact I|exact Hc]].
    rewrite Hs. unfold store_of at 1. cbn [l_session l_disk].
    fold (store_of (append
                      (mkLocals (l_session l) (l_disk l)
                         (_add_usage (l_run_usage l) (usage m)) (l_turn l)
                         (l_stop_reason l) (was_interrupted l) (l_appends l))
                      (AssistantMsg m))).
    rewrite append_op. symmetry. apply (run_ops_app _ [_] calls).
  - exists calls. split; [exact Hs|exact Hc].
Qed.

Lemma fold_on_event_ops evs : forall l,
  exists calls,
    store_of (fold_left on_event evs l) = run_ops (store_of l) calls
    /\ Forall run_call calls.
Proof.
  induction evs as [|e evs IH]; intros l.
  - exists []. split; [reflexivity|constructor].
  - cbn [fold_left]. destruct (on_event_ops l e) as (c1 & H1 & F1).
    destruct (IH (on_event l e)) as (c2 & H2 & F2).
    exists (c1 ++ c2). split; [|now apply Forall_app].
    now rewrite H2, H1, run_ops_app.
Qed.

Lemma check_compaction_ops session disk stop_reason cancelled o1 o2 :
  exists calls,
    snd (_check_compaction is_overflow generate_summary config kon_config
           session disk stop_reason system_prompt cancelled o1 o2)
    = run_ops (session, disk) calls
    /\ Forall run_call calls.
Proof.
  assert (Hnone : exists calls,
            (session, disk) = run_ops (session, disk) calls
            /\ Forall run_call calls)
    by (exists []; split; [reflexivity|constructor]).
  unfold _check_compaction.
  destruct (StopReason_eqb stop_reason ERROR); [exact Hnone|].
  destruct (last_assistant_usage (rev (entries session))) as [[u|]|];
    [|exact Hnone|exact Hnone].
  destruct (negb _); [exact Hnone|].
  destruct cancelled; [exact Hnone|].
  destruct (generate_summary (all_messages session) system_prompt)
    as [summary|e]; [|exact Hnone].
  destruct (String.eqb (compaction_on_overflow kon_config) "continue").
  - exists [(o1, OpCompaction summary (default "" (leaf_id session))
                   (input_tokens u + output_tokens u + cache_read_tokens u
                    + cache_write_tokens u) None);
            (o2, OpMessage continue_message)].
    split; [|repeat constructor].
    unfold run_ops. cbn [foldl apply_op].
    destruct (snd (append_compaction _ _ _ _ _ _ _)) as [s1 d1].
    cbn [apply_op]. now destruct (snd (append_message _ _ _ _)).
  - exists [(o1, OpCompaction summary (default "" (leaf_id session))
                   (input_tokens u + output_tokens u + cache_read_tokens u
                    + cache_write_tokens u) None)].
    split; [|repeat constructor].
    unfold run_ops. cbn [foldl apply_op].
    now destruct (snd (append_compaction _ _ _ _ _ _ _)).
Qed.

Lemma turns_ops fuel : forall l,
  exists calls,
    store_of (snd (fst (turns fuel l))) = run_ops (store_of l) calls
    /\ Forall run_call calls.
Proof.
  induction fuel as [|fuel IH]; intros l.
  - exists []. split; [reflexivity|constructor].
  - cbn [AgentRun.turns].
    destruct (cancel_event && is_set_at_top (l_turn l)).
    { exists []. split; [reflexivity|constructor]. }
    cbn zeta.
    cbn [l_session l_disk l_turn l_stop_reason l_run_usage
         AgentRun.was_interrupted l_appends].
    set (r := run_single_turn json_loads get_tool format_g cancel_event
                (world (S (l_turn l))) idle
                (provider (S (l_turn l)) (messages (l_session l)))
                (Z.of_nat (S (l_turn l))) None).
    set (l0 := mkLocals (l_session l) (l_disk l) (l_run_usage l)
                 (S (l_turn l)) (l_stop_reason l) (was_interrupted l)
                 (l_appends l)).
    destruct (fold_on_event_ops (events_of (trace r)) l0) as (c1 & H1 & F1).
    change (store_of l0) with (store_of l) in H1.
    set (l1 := fold_left on_event (events_of (trace r)) l0) in *.
    destruct (raised r) as [e|]; [now exists c1|].
    destruct (was_interrupted l1 || _); [now exists c1|].
    destruct (check_compaction_ops (l_session l1) (l_disk l1)
                (l_stop_reason l1)
                (cancel_event && is_set_at_check (S (l_turn l)))
                (outside (l_appends l1)) (outside (S (l_appends l1))))
      as (c2 & H2 & F2).
    destruct (_check_compaction is_overflow generate_summary config kon_config
                (l_session l1) (l_disk l1) (l_stop_reason l1) system_prompt
                (cancel_event && is_set_at_check (S (l_turn l)))
                (outside (l_appends l1)) (outside (S (l_appends l1))))
      as [cevs [s d]].
    cbn [snd] in H2. fold (store_of l1) in H2.
    set (l2 := mkLocals s d (l_run_usage l1) (l_turn l1) (l_stop_reason l1)
                 (was_interrupted l1) (S (S (l_appends l1)))).
    assert (Hexit : exists calls,
              store_of l2 = run_ops (store_of l) calls
              /\ Forall run_call calls).
    { exists (c1 ++ c2). split; [|now apply Forall_app].
      change (store_of l2) with (s, d). now rewrite H2, H1, run_ops_app. }
    destruct (existsb is_compaction_end cevs && _); [exact Hexit|].
    destruct (negb (existsb is_compaction_end cevs) && _); [exact Hexit|].
    destruct Hexit as (c12 & H12 & F12).
    destruct (IH l2) as (c3 & H3 & F3).
    destruct (turns fuel l2) as [[later l3] exc]. cbn [fst snd] in *.
    exists (c12 ++ c3). split; [|now apply Forall_app].
    now rewrite H3, H12, run_ops_app.
Qed.

(** What a run leaves of the session and of its file. *)
Lemma run_store session disk query images :
  exists calls,
    snd (run session disk query images)
    = run_ops (session, disk)
        ((outside 0%nat, OpMessage (user_message_of query images)) :: calls)
    /\ Forall run_call calls.
Proof.
  unfold AgentRun.run.
  pose proof (append_op (mkLocals session disk Usage_zero 0 STOP false 0)
                (user_message_of query images)) as H0.
  set (l := AgentRun.append outside
              (mkLocals session disk Usage_zero 0 STOP false 0)
              (user_message_of query images)) in *.
  destruct (turns_ops (Z.to_nat (match max_turns config with
                                 | Some m => m
                                 | None => agent_max_turns
                                 end)) l) as (calls & Hs & Hc).
  destruct (turns _ l) as [[evs l'] exc]. cbn [fst snd] in *.
  exists calls. split; [|exact Hc].
  destruct exc as [e|]; cbn [snd]; fold (store_of l'); rewrite Hs, H0;
    symmetry; apply (run_ops_app _ [_] calls).
Qed.

(** X28. A run changes the session and its file only by appending: what
    it leaves is what the append of the user message, followed by a
    sequence of appends of messages and of compactions, leaves.  So
    what holds of a session after any sequence of appends holds of it
    after a run. *)
Theorem agent_run_only_appends session disk query images :
  exists first calls,
    snd (run session disk query images)
    = run_ops (session, disk) (first :: calls)
    /\ snd first = OpMessage (user_message_of query images)
    /\ Forall run_call calls.
Proof.
  destruct (run_store session disk query images) as (calls & Hs & Hc).
  exists (outside 0%nat, OpMessage (user_message_of query images)), calls.
  auto.
Qed.

(** X29. After a run on a persisting session made by [Session.create]
    and extended by appends, once the session holds an assistant
    message its file loads back to a session with the same entries and
    the same leaf id: everything the run appended is on disk. *)
Theorem agent_run_file_loads sid ts fts dir cwd prov mid tl disk0 calls
    query images :
  let st0 := run_ops (create sid ts fts dir cwd true prov mid tl, disk0)
               calls in
  let st := snd (run (fst st0) (snd st0) query images) in
  has_assistant (entries (fst st)) = true ->
  exists path s',
    session_file (fst st) = Some path
    /\ load path (snd st) = Ok s'
    /\ entries s' = entries (fst st)
    /\ leaf_id s' = leaf_id (fst st).
Proof.
  intros st0 st Ha.
  destruct (run_store (fst st0) (snd st0) query images) as (more & Hst & _).
  fold st in Hst.
  pose proof (run_ops_created _ _ disk0 calls _ _
                (create_created sid ts fts dir cwd prov mid tl disk0)) as Hinv.
  fold st0 in Hinv.
  pose proof (run_ops_created _ _ disk0
                ((outside 0%nat, OpMessage (user_message_of query images))
                 :: more) _ _ Hinv) as Hinv'.
  rewrite <- Hst in Hinv'.
  destruct (created_loads _ _ _ _ _ Hinv' Ha) as (s' & H).
  eexists. exists s'. exact H.
Qed.

End AgentStore.

Lemma agent_run_file_loads_witness :
  let st :=
    snd (AgentRun.run sample_json_loads sample_get_tool sample_format_g
           (60 # 1) is_overflow_by_spec summary_works
           (mkAgentConfig None None None) sample_settings 500 "You are kon."
           false
           (fun _ _ => streaming [TextPart "Hello, world!"; StreamDone STOP])
           (fun _ => quiet) (fun _ => false) (fun _ => false) sample_draws
           sample_session ∅ "Hello" None) in
  exists path s',
    session_file (fst st) = Some path
    /\ load path (snd st) = Ok s'
    /\ entries s' = entries (fst st)
    /\ leaf_id s' = leaf_id (fst st).
Proof.
  apply (agent_run_file_loads sample_json_loads sample_get_tool
           sample_format_g (60 # 1) is_overflow_by_spec summary_works
           (mkAgentConfig None None None) sample_settings 500 "You are kon."
           false
           (fun _ _ => streaming [TextPart "Hello, world!"; StreamDone STOP])
           (fun _ => quiet) (fun _ => false) (fun _ => false) sample_draws
           "5f0c" "2026-01-01T00:00:00+00:00" "2026-01-01T00-00-00"
           "/home/u/.kon/sessions/proj" "/proj" None None "medium" ∅ []
           "Hello" None).
  vm_compute. reflexivity.
Defined.
